(** * Elastic IP reconciliation (ec2_eip) and Lambda layer listing
      (lambda_layer_info): a shallow embedding and its properties.

    The two Ansible modules are glue code over a cloud API.  The embedding
    keeps the Python control flow: every call to the cloud API is an event
    answered by an arbitrary client (a parameter of the development), the
    calls issued are recorded in a trace, and [exit_json], [fail_json] and
    uncaught Python exceptions end the invocation. *)

From Stdlib Require Import Ascii.
From stdpp Require Import gmap strings list fin_maps pretty.

Local Open Scope string_scope.

(** ** Python values *)

(** A boto3 address, instance or interface record: a dict from field name
    to string value. *)
Abbreviation pydict := (gmap string string).

(** Values stored in keyword-argument dicts. *)
Inductive pyval : Type :=
| PyNone
| PyBool (b : bool)
| PyStr (s : string).

#[global] Instance pyval_eq_dec : EqDecision pyval.
Proof. solve_decision. Defined.

Definition of_opt (o : option string) : pyval :=
  match o with Some s => PyStr s | None => PyNone end.

(** [bool(s)] for a string, for an optional string, for a dict and for an
    optional dict. *)
Definition str_truthy (s : string) : bool := negb (String.eqb s "").

Definition truthy (o : option string) : bool :=
  match o with Some s => str_truthy s | None => false end.

Definition dict_truthy {V} `{EqDecision V} (d : gmap string V) : bool :=
  negb (bool_decide (d = ∅)).

Definition optdict_truthy {V} `{EqDecision V} (o : option (gmap string V)) : bool :=
  match o with Some d => dict_truthy d | None => false end.

(** The string held by an optional parameter that is known to be set. *)
Definition the_str (o : option string) : string := default "" o.

(** [str(x)] inside an f-string for an optional string. *)
Definition py_str (o : option string) : string :=
  match o with Some s => s | None => "None" end.

(** [(address or {})]. *)
Definition or_empty (address : option pydict) : pydict :=
  match address with
  | Some a => if dict_truthy a then a else ∅
  | None => ∅
  end.

(** [s.strip(chars)]: drop leading and trailing characters that occur in
    [chars]. *)
Fixpoint char_in (c : Ascii.ascii) (chars : string) : bool :=
  match chars with
  | EmptyString => false
  | String d rest => if Ascii.eqb c d then true else char_in c rest
  end.

Fixpoint lstrip (chars s : string) : string :=
  match s with
  | EmptyString => EmptyString
  | String c rest => if char_in c chars then lstrip chars rest else s
  end.

Fixpoint rstrip (chars s : string) : string :=
  match s with
  | EmptyString => EmptyString
  | String c rest =>
      match rstrip chars rest with
      | EmptyString => if char_in c chars then EmptyString else String c EmptyString
      | r => String c r
      end
  end.

Definition py_strip (chars s : string) : string := rstrip chars (lstrip chars s).

(** ** The module's exceptions, results and failures *)

(** The typed cloud-API error carried by [AnsibleEC2Error]. *)
Record ec2_error : Type := Ec2Error { err_code : string; err_message : string }.

Inductive exn : Type :=
| AnsibleEC2Error (e : ec2_error)
| EipError (msg : string)
| KeyError (key : string)
| TypeError (msg : string).

(** The payload handed to [module.exit_json]; a key that is absent from the
    Python dict is [None]. *)
Record result : Type := Result {
  changed : bool;
  public_ip : option string;
  allocation_id : option string;
  disassociated : option bool;
  released : option bool
}.

Definition only_changed (c : bool) : result := Result c None None None None.

Inductive state : Type := present | absent.

#[global] Instance state_eq_dec : EqDecision state.
Proof. solve_decision. Defined.

(** ** Cloud API calls *)

Record filter : Type := Filter { Name : string; Values : list string }.

(** [kwargs] of [describe_addresses]: the keys that are set. *)
Record describe_kwargs : Type := DescribeKwargs {
  PublicIps : option (list string);
  Filters : option (list filter)
}.

Record tag_specification : Type := TagSpecification {
  ResourceType : string;
  Tags : pydict
}.

(** [params] of [allocate_ip_address]. *)
Record allocate_kwargs : Type := AllocateKwargs {
  Domain : option string;
  PublicIpv4Pool : option string;
  TagSpecifications : option (list tag_specification)
}.

Inductive disassociate_kwargs : Type :=
| association_id (v : option string)
| by_public_ip (v : option string).

Record reservation : Type := Reservation { Instances : list pydict }.

Record ensure_tags_args : Type := EnsureTagsArgs {
  resource_id : string;
  resource_type : string;
  tags_arg : option pydict;
  purge_tags_arg : bool
}.

Inductive call : Type :=
| DescribeAddresses (kwargs : describe_kwargs)
| DescribeInstances (InstanceIds : list string)
| DescribeNetworkInterfaces (NetworkInterfaceIds : list string)
| AllocateAddress (params : allocate_kwargs)
| AssociateAddress (params : gmap string pyval)
| DisassociateAddress (kw : disassociate_kwargs)
| ReleaseAddress (allocation_id : string)
| EnsureEc2Tags (args : ensure_tags_args).

(** What each call returns when it does not raise. *)
Definition reply (c : call) : Type :=
  match c with
  | DescribeAddresses _ => list pydict
  | DescribeInstances _ => list reservation
  | DescribeNetworkInterfaces _ => list pydict
  | AllocateAddress _ => pydict
  | AssociateAddress _ => pydict
  | DisassociateAddress _ => bool
  | ReleaseAddress _ => bool
  | EnsureEc2Tags _ => bool
  end.

(** The four calls that allocate, associate, disassociate or release. *)
Definition is_mutation (c : call) : bool :=
  match c with
  | AllocateAddress _ | AssociateAddress _
  | DisassociateAddress _ | ReleaseAddress _ => true
  | _ => false
  end.

Inductive failure : Type :=
| fail_json (msg : string)
| fail_json_more_than_one (kwargs : describe_kwargs) (addresses : list pydict)
| fail_json_aws (e : ec2_error) (msg : string)
| fail_json_aws_error (e : ec2_error).

(** ** The module object: parameters and check mode *)

Record AnsibleAWSModule : Type := Module_ {
  check_mode : bool;
  param_device_id : option string;
  param_public_ip : option string;
  param_state : state;
  param_in_vpc : bool;
  param_reuse_existing_ip_allowed : bool;
  param_release_on_disassociation : bool;
  param_allow_reassociation : bool;
  param_private_ip_address : option string;
  param_tags : option pydict;
  param_purge_tags : bool;
  param_tag_name : option string;
  param_tag_value : option string;
  param_public_ipv4_pool : option string
}.

(** ** The invocation monad

    An invocation runs against a cloud whose state has type [cloud]; the
    client [ec2] answers every call with a value or with a cloud-API error
    and moves the cloud to its next state.  Nothing is assumed about the
    client. *)

Record world (cloud : Type) : Type := World {
  cloud_state : cloud;
  trace : list call
}.
Arguments World {cloud} _ _.
Arguments cloud_state {cloud} _.
Arguments trace {cloud} _.

(** How a computation ends: with a value, with a raised exception, or with
    the process exit of [exit_json] or of a [fail_json] variant. *)
Inductive outcome (A : Type) : Type :=
| Return (a : A)
| Raise (e : exn)
| ExitJson (r : result)
| FailJson (f : failure).
Arguments Return {A} _.
Arguments Raise {A} _.
Arguments ExitJson {A} _.
Arguments FailJson {A} _.

Definition M (cloud A : Type) : Type := world cloud → outcome A * world cloud.

Definition ret {cloud A} (a : A) : M cloud A := fun w => (Return a, w).

Definition bind {cloud A B} (m : M cloud A) (k : A → M cloud B) : M cloud B :=
  fun w =>
    match m w with
    | (Return a, w') => k a w'
    | (Raise e, w') => (Raise e, w')
    | (ExitJson r, w') => (ExitJson r, w')
    | (FailJson f, w') => (FailJson f, w')
    end.

Definition raise {cloud A} (e : exn) : M cloud A := fun w => (Raise e, w).

Definition exit_json {cloud A} (r : result) : M cloud A :=
  fun w => (ExitJson r, w).

Definition fail {cloud A} (f : failure) : M cloud A :=
  fun w => (FailJson f, w).

(** [try: body except AnsibleEC2Error as e: handler e]. *)
Definition try_except {cloud A} (body : M cloud A)
    (handler : ec2_error → M cloud A) : M cloud A :=
  fun w =>
    match body w with
    | (Raise (AnsibleEC2Error e), w') => handler e w'
    | r => r
    end.

Declare Scope eip_scope.
Delimit Scope eip_scope with eip.
Notation "'let*' x ':=' m 'in' k" := (bind m (fun x => k))
  (at level 10, x name, m at level 100, k at level 200) : eip_scope.
Local Open Scope eip_scope.

(** Subscripting: [d[key]] raises [KeyError] on a missing key, and
    subscripting [None] raises [TypeError]. *)
Definition getitem {cloud} (d : pydict) (key : string) : M cloud string :=
  match d !! key with
  | Some v => ret v
  | None => raise (KeyError key)
  end.

Definition not_subscriptable : exn :=
  TypeError "'NoneType' object is not subscriptable".

Definition getitem_opt {cloud} (d : option pydict) (key : string)
    : M cloud string :=
  match d with
  | Some d => getitem d key
  | None => raise not_subscriptable
  end.

(** ** Helpers of the collection that the module imports *)

(** What Python raises when a function is called with a keyword that is not
    one of its parameters: here [public_ip], handed to
    [disassociate_address]. *)
Definition unexpected_public_ip : exn :=
  TypeError
    "disassociate_address() got an unexpected keyword argument 'public_ip'".

(** Modelled from the spec: [boto3_tag_specifications] (module_utils.tagging,
    not part of the sources) wraps the requested tags for the cloud API's
    native tagging parameter of the given resource type. *)
Definition boto3_tag_specifications (tags : pydict) (types : string)
    : list tag_specification :=
  [TagSpecification types tags].

(** Modelled from the spec: [ansible_dict_to_boto3_filter_list]
    (module_utils.transformation, not part of the sources) turns every
    entry of the tag-match dict into one exact-match filter. *)
Definition ansible_dict_to_boto3_filter_list (d : pydict) : list filter :=
  (fun kv => Filter kv.1 [kv.2]) <$> map_to_list d.

(** ** ec2_eip.py *)

(** [check_is_instance]: [inl] is the raised [EipError]. *)
Definition check_is_instance (device_id : option string) (in_vpc : bool)
    : exn + bool :=
  if negb (truthy device_id) then inr false
  else if String.prefix "i-" (the_str device_id) then inr true
  else if String.prefix "eni-" (the_str device_id) && negb in_vpc then
    inl (EipError "If you are specifying an ENI, in_vpc must be true")
  else inr false.

Section Eip.
Context {cloud : Type}.
Variable ec2 : ∀ c : call, cloud → (ec2_error + reply c) * cloud.

(** One call to the cloud API: the call is appended to the trace, the cloud
    moves on, and an error reply raises [AnsibleEC2Error]. *)
Definition invoke (c : call) : M cloud (reply c) :=
  fun w =>
    let '(r, s') := ec2 c (cloud_state w) in
    let w' := World s' (trace w ++ [c]) in
    match r with
    | inl e => (Raise (AnsibleEC2Error e), w')
    | inr v => (Return v, w')
    end.

Definition describe_addresses (kwargs : describe_kwargs)
    : M cloud (list pydict) :=
  invoke (DescribeAddresses kwargs).
Definition describe_instances (InstanceIds : list string)
    : M cloud (list reservation) :=
  invoke (DescribeInstances InstanceIds).
Definition describe_network_interfaces (NetworkInterfaceIds : list string)
    : M cloud (list pydict) :=
  invoke (DescribeNetworkInterfaces NetworkInterfaceIds).
Definition allocate_ip_address (params : allocate_kwargs) : M cloud pydict :=
  invoke (AllocateAddress params).
Definition associate_address (params : gmap string pyval) : M cloud pydict :=
  invoke (AssociateAddress params).
(** Modelled from the spec: [disassociate_address] (module_utils.ec2, not part
    of the sources) takes the association id and nothing else; the note at
    the call in [disassociate_ip_and_device] says so of the public-IP
    argument.  Called with the keyword [public_ip] it raises [TypeError]
    before anything is sent to the cloud. *)
Definition disassociate_address (kw : disassociate_kwargs) : M cloud bool :=
  match kw with
  | association_id _ => invoke (DisassociateAddress kw)
  | by_public_ip _ => raise unexpected_public_ip
  end.
Definition release_address (allocation_id : string) : M cloud bool :=
  invoke (ReleaseAddress allocation_id).
Definition ensure_ec2_tags (resource_id resource_type : string)
    (tags : option pydict) (purge_tags : bool) : M cloud bool :=
  invoke (EnsureEc2Tags (EnsureTagsArgs resource_id resource_type tags purge_tags)).

(** The first half of [find_address]: the [kwargs] of the query, or [None]
    when the function returns [None] without querying. *)
Definition find_address_kwargs (public_ip device_id : option string)
    (is_instance : bool) : option describe_kwargs :=
  let filters : option (list filter) := None in
  let kwargs := DescribeKwargs None None in
  let '(kwargs, filters) :=
    if truthy public_ip then
      (DescribeKwargs (Some [the_str public_ip]) (Filters kwargs), filters)
    else if truthy device_id then
      if is_instance then
        (kwargs, Some [Filter "instance-id" [the_str device_id]])
      else
        (kwargs, Some [Filter "network-interface-id" [the_str device_id]])
    else (kwargs, filters) in
  match filters with
  | Some (_ :: _) => Some (DescribeKwargs (PublicIps kwargs) filters)
  | _ => if bool_decide (public_ip = None) then None else Some kwargs
  end.

(** The [try] block of [find_address] either returns [None] from the
    function ([inl]) or leaves [addresses] bound ([inr]). *)
Definition find_address (module : AnsibleAWSModule)
    (public_ip device_id : option string) (is_instance : bool)
    : M cloud (option pydict) :=
  match find_address_kwargs public_ip device_id is_instance with
  | None => ret None
  | Some kwargs =>
      let* r :=
        try_except
          (let* addresses := describe_addresses kwargs in
           if bool_decide (addresses = []) then
             if bool_decide (param_state module = absent) then
               exit_json (Result false None None (Some false) (Some false))
             else ret (inl None)
           else ret (inr addresses))
          (fun e => fail (fail_json_aws e
                     "Couldn't obtain list of existing Elastic IP addresses")) in
      match r with
      | inl early => ret early
      | inr addresses =>
          if Nat.eqb (length addresses) 1 then ret (head addresses)
          else if Nat.ltb 1 (length addresses) then
            fail (fail_json_more_than_one kwargs addresses)
          else ret None
      end
  end.

(** [result.get(key, False) == device_id]. *)
Definition field_is (result : pydict) (key : string)
    (device_id : option string) : bool :=
  match result !! key, device_id with
  | Some v, Some d => String.eqb v d
  | _, _ => false
  end.

Definition address_is_associated_with_device (module : AnsibleAWSModule)
    (address : option pydict) (device_id : option string)
    (is_instance : bool) : M cloud bool :=
  let* result :=
    find_address module (or_empty address !! "PublicIp") device_id is_instance in
  if optdict_truthy result then
    let result := or_empty result in
    if is_instance && field_is result "InstanceId" device_id then ret true
    else if negb is_instance && field_is result "NetworkInterfaceId" device_id
    then ret true
    else ret false
  else ret false.

Definition associate_ip_and_device (module : AnsibleAWSModule)
    (address : option pydict) (private_ip_address device_id : option string)
    (allow_reassociation is_instance : bool) : M cloud bool :=
  let* associated :=
    address_is_associated_with_device module address device_id is_instance in
  if associated then ret false
  else
    let* _ :=
      if negb (check_mode module) then
        let* res :=
          if is_instance then
            try_except
              (let params : gmap string pyval :=
                 <["AllowReassociation" := PyBool allow_reassociation]>
                   (<["InstanceId" := of_opt device_id]> ∅) in
               let params :=
                 if truthy private_ip_address then
                   <["PrivateIpAddress" := of_opt private_ip_address]> params
                 else params in
               let params :=
                 if bool_decide (or_empty address !! "Domain" = Some "vpc") then
                   <["AllocationId" := of_opt (or_empty address !! "AllocationId")]> params
                 else
                   <["PublicIp" := of_opt (or_empty address !! "PublicIp")]> params in
               associate_address params)
              (fun e => fail (fail_json_aws e
                 ("Couldn't associate Elastic IP address with instance '"
                    +:+ py_str device_id +:+ "'")))
          else
            let params : gmap string pyval :=
              <["AllowReassociation" := PyBool allow_reassociation]>
                (<["AllocationId" := of_opt (or_empty address !! "AllocationId")]>
                   (<["NetworkInterfaceId" := of_opt device_id]> ∅)) in
            let params :=
              if truthy private_ip_address then
                <["PrivateIpAddress" := of_opt private_ip_address]> params
              else params in
            try_except (associate_address params)
              (fun e => fail (fail_json_aws e
                 ("Couldn't associate Elastic IP address with network interface '"
                    +:+ py_str device_id +:+ "'"))) in
        if negb (dict_truthy res) then fail (fail_json "Association failed.")
        else ret tt
      else ret tt in
    ret true.

Definition disassociate_ip_and_device (module : AnsibleAWSModule)
    (address : option pydict) (device_id : option string)
    (is_instance : bool) : M cloud bool :=
  let* associated :=
    address_is_associated_with_device module address device_id is_instance in
  if negb associated then ret false
  else
    let* _ :=
      if negb (check_mode module) then
        try_except
          (if bool_decide (or_empty address !! "Domain" = Some "vpc") then
             let* _ := disassociate_address
                         (association_id (or_empty address !! "AssociationId")) in
             ret tt
           else
             let* _ := disassociate_address
                         (by_public_ip (or_empty address !! "PublicIp")) in
             ret tt)
          (fun e => fail (fail_json_aws e "Dissassociation of Elastic IP failed"))
      else ret tt in
    ret true.

Definition allocate_address_from_pool (module : AnsibleAWSModule)
    (domain : option string) (check_mode : bool)
    (public_ipv4_pool : option string) (tags : option pydict)
    : M cloud (option pydict) :=
  if check_mode then ret None
  else
    let params := AllocateKwargs None None None in
    let params :=
      if bool_decide (domain ≠ None) then
        AllocateKwargs domain (PublicIpv4Pool params) (TagSpecifications params)
      else params in
    let params :=
      if bool_decide (public_ipv4_pool ≠ None) then
        AllocateKwargs (Domain params) public_ipv4_pool (TagSpecifications params)
      else params in
    let params :=
      if optdict_truthy tags then
        AllocateKwargs (Domain params) (PublicIpv4Pool params)
          (Some (boto3_tag_specifications (default ∅ tags) "elastic-ip"))
      else params in
    let* result :=
      try_except (allocate_ip_address params)
        (fun e => fail (fail_json_aws e "Couldn't allocate Elastic IP address")) in
    ret (Some result).

(** [[a for a in l if cond(a)]], where evaluating [cond] may raise. *)
Fixpoint list_comprehension {A} (cond : A → M cloud bool) (l : list A)
    : M cloud (list A) :=
  match l with
  | [] => ret []
  | a :: l' =>
      let* keep := cond a in
      let* rest := list_comprehension cond l' in
      ret (if keep then a :: rest else rest)
  end.

(** The condition [not a["InstanceId"]] of the comprehension over
    standard-domain addresses. *)
Definition instance_id_is_empty (a : pydict) : M cloud bool :=
  let* v := getitem a "InstanceId" in ret (negb (str_truthy v)).

Definition allocate_address (module : AnsibleAWSModule)
    (domain : option string) (reuse_existing_ip_allowed check_mode : bool)
    (tags search_tags : option pydict) (public_ipv4_pool : option string)
    : M cloud (option pydict * bool) :=
  let domain := if negb (truthy domain) then "standard" else the_str domain in
  let* reused :=
    if reuse_existing_ip_allowed then
      let filters := [Filter "domain" [domain]] in
      let filters :=
        match search_tags with
        | Some search_tags =>
            (filters ++ ansible_dict_to_boto3_filter_list search_tags)%list
        | None => filters
        end in
      let* all_addresses :=
        try_except (describe_addresses (DescribeKwargs None (Some filters)))
          (fun e => fail (fail_json_aws e
             "Couldn't obtain list of existing Elastic IP addresses")) in
      let* unassociated_addresses :=
        if String.eqb domain "vpc" then
          ret (List.filter (fun a => negb (truthy (a !! "AssociationId")))
                 all_addresses)
        else
          list_comprehension instance_id_is_empty all_addresses in
      match unassociated_addresses with
      | a :: _ => ret (Some (Some a, false))
      | [] => ret None
      end
    else ret None in
  match reused with
  | Some early => ret early
  | None =>
      if truthy public_ipv4_pool then
        let* a := allocate_address_from_pool module (Some domain) check_mode
                    public_ipv4_pool tags in
        ret (a, true)
      else
        let params := AllocateKwargs (Some domain) None None in
        let params :=
          if optdict_truthy tags then
            AllocateKwargs (Domain params) (PublicIpv4Pool params)
              (Some (boto3_tag_specifications (default ∅ tags) "elastic-ip"))
          else params in
        let changed := true in
        let result : option pydict := None in
        let* result :=
          try_except
            (if negb check_mode then
               let* r := allocate_ip_address params in ret (Some r)
             else ret result)
            (fun e => fail (fail_json_aws e "Couldn't allocate Elastic IP address")) in
        ret (result, changed)
  end.

Definition release_ip_address (module : AnsibleAWSModule)
    (address : option pydict) : M cloud bool :=
  let changed := true in
  if negb (check_mode module) then
    try_except
      (let* allocation_id := getitem_opt address "AllocationId" in
       release_address allocation_id)
      (fun e => fail (fail_json_aws e "Couldn't release Elastic IP address"))
  else ret changed.

Definition find_device (module : AnsibleAWSModule) (device_id : option string)
    (is_instance : bool) : M cloud (option pydict) :=
  let result : option pydict := None in
  if is_instance then
    let* reservations :=
      try_except (describe_instances [the_str device_id])
        (fun e => fail (fail_json_aws e "Couldn't get list of instances")) in
    match reservations with
    | [r] => match Instances r with
             | [i] => ret (Some i)
             | _ => ret result
             end
    | _ => ret result
    end
  else
    let* interfaces :=
      try_except (describe_network_interfaces [the_str device_id])
        (fun e => fail (fail_json_aws e "Couldn't get list of network interfaces.")) in
    match interfaces with
    | [i] => ret (Some i)
    | _ => ret result
    end.

Definition ensure_present (module : AnsibleAWSModule) (domain : option string)
    (address : option pydict) (private_ip_address device_id : option string)
    (reuse_existing_ip_allowed allow_reassociation check_mode : bool)
    (tags : option pydict) (is_instance : bool) : M cloud result :=
  let changed := false in
  let* allocated :=
    if negb (optdict_truthy address) then
      if check_mode then ret (inl (only_changed true))
      else
        let* r := allocate_address module domain reuse_existing_ip_allowed
                    check_mode tags None None in
        ret (inr r)
    else ret (inr (address, changed)) in
  match allocated with
  | inl early => ret early
  | inr (address, changed) =>
      let* changed :=
        if truthy device_id then
          if is_instance then
            let* instance := find_device module device_id true in
            let* _ :=
              if reuse_existing_ip_allowed then
                let* vpc_id := getitem_opt instance "VpcId" in
                if str_truthy vpc_id && Nat.ltb 0 (String.length vpc_id)
                   && bool_decide (domain = None)
                then fail (fail_json
                  "You must set 'in_vpc' to true to associate an instance with an existing ip in a vpc")
                else ret tt
              else ret tt in
            let* associated :=
              associate_ip_and_device module address private_ip_address
                device_id allow_reassociation true in
            ret (changed || associated)
          else
            let* instance := find_device module device_id false in
            let* associated :=
              associate_ip_and_device module address private_ip_address
                device_id allow_reassociation false in
            ret (changed || associated)
        else ret changed in
      let* ip := getitem_opt address "PublicIp" in
      let* alloc := getitem_opt address "AllocationId" in
      ret (Result changed (Some ip) (Some alloc) None None)
  end.

Definition ensure_absent (module : AnsibleAWSModule) (address : option pydict)
    (device_id : option string) (is_instance : bool) : M cloud bool :=
  if negb (optdict_truthy address) then ret false
  else if truthy device_id then
    if is_instance then disassociate_ip_and_device module address device_id true
    else disassociate_ip_and_device module address device_id false
  else release_ip_address module address.

Definition generate_tag_dict (module : AnsibleAWSModule)
    (tag_name tag_value : option string) : M cloud (option pydict) :=
  let result : option pydict := None in
  if truthy tag_name && negb (truthy tag_value) then
    let tag_name := the_str tag_name in
    let tag_name :=
      if String.prefix "tag:" tag_name then py_strip "tag:" tag_name
      else tag_name in
    ret (Some {[ "tag-key" := tag_name ]})
  else if truthy tag_name && truthy tag_value then
    let tag_name := the_str tag_name in
    let tag_name :=
      if negb (String.prefix "tag:" tag_name) then "tag:" +:+ tag_name
      else tag_name in
    ret (Some {[ tag_name := the_str tag_value ]})
  else if truthy tag_value && negb (truthy tag_name) then
    fail (fail_json "parameters are required together: ('tag_name', 'tag_value')")
  else ret result.

(** [result["changed"] |= c]. *)
Definition or_changed (r : result) (c : bool) : result :=
  Result (changed r || c) (public_ip r) (allocation_id r)
    (disassociated r) (released r).

(** The body of the [try] block of [main]: locate the address, then
    reconcile it with the desired state. *)
Definition main_try_block (module : AnsibleAWSModule) (is_instance : bool)
    (search_tags : option pydict) : M cloud result :=
  let device_id := param_device_id module in
  let public_ip := param_public_ip module in
  let private_ip_address := param_private_ip_address module in
  let state := param_state module in
  let in_vpc := param_in_vpc module in
  let domain := if in_vpc then Some "vpc" else None in
  let reuse_existing_ip_allowed := param_reuse_existing_ip_allowed module in
  let release_on_disassociation := param_release_on_disassociation module in
  let allow_reassociation := param_allow_reassociation module in
  let public_ipv4_pool := param_public_ipv4_pool module in
  let tags := param_tags module in
  let purge_tags := param_purge_tags module in
  let* address :=
    if truthy device_id then
      find_address module public_ip device_id is_instance
    else find_address module public_ip None true in
  if bool_decide (state = present) then
    let* result :=
      if truthy device_id then
        let* result :=
          ensure_present module domain address private_ip_address
            device_id reuse_existing_ip_allowed allow_reassociation
            (check_mode module) tags is_instance in
        if bool_decide (allocation_id result = None) then exit_json result
        else ret result
      else if optdict_truthy address then
        let* ip := getitem_opt address "PublicIp" in
        let* alloc := getitem_opt address "AllocationId" in
        ret (Result false (Some ip) (Some alloc) None None)
      else
        let* allocated :=
          allocate_address module domain reuse_existing_ip_allowed
            (check_mode module) tags search_tags public_ipv4_pool in
        let '(address, changed) := allocated in
        if optdict_truthy address then
          let* ip := getitem_opt address "PublicIp" in
          let* alloc := getitem_opt address "AllocationId" in
          ret (Result changed (Some ip) (Some alloc) None None)
        else exit_json (only_changed changed) in
    let* tags_changed :=
      ensure_ec2_tags (the_str (allocation_id result)) "elastic-ip"
        tags purge_tags in
    ret (or_changed result tags_changed)
  else if truthy device_id then
    let* disassociated :=
      ensure_absent module address device_id is_instance in
    if release_on_disassociation && disassociated then
      let* changed := release_ip_address module address in
      ret (Result true None None (Some disassociated) (Some changed))
    else
      ret (Result disassociated None None (Some disassociated) (Some false))
  else
    let* changed := release_ip_address module address in
    ret (Result changed None None (Some false) (Some changed)).

(** [main] always ends with [exit_json], [fail_json] or an uncaught
    exception, so it has no value to return. *)
Definition main (module : AnsibleAWSModule) : M cloud Empty_set :=
  let device_id := param_device_id module in
  let in_vpc := param_in_vpc module in
  let tag_name := param_tag_name module in
  let tag_value := param_tag_value module in
  let* is_instance :=
    match check_is_instance device_id in_vpc with
    | inr b => ret b
    | inl (EipError msg) => fail (fail_json msg)
    | inl e => raise e
    end in
  let* search_tags := generate_tag_dict module tag_name tag_value in
  let* result :=
    try_except (main_try_block module is_instance search_tags)
      (fun e => fail (fail_json_aws_error e)) in
  exit_json result.

End Eip.

(** ** lambda_layer_info.py *)

Module LambdaLayerInfo.

(** The keys of a dict: the strings of a boto3 record and, once [update]
    has been fed a sequence of pairs, the integers too. *)
Inductive key : Type :=
| KStr (s : string)
| KInt (n : Z).

#[global] Instance key_eq_dec : EqDecision key.
Proof. solve_decision. Defined.

Coercion KStr : string >-> key.

(** A value of a boto3 layer record; the record itself is a dict kept in
    insertion order. *)
#[local] Unset Elimination Schemes.
Inductive json : Type :=
| JStr (s : string)
| JNum (n : Z)
| JList (l : list json)
| JDict (d : list (key * json)).
#[local] Set Elimination Schemes.

Abbreviation layer := (list (key * json)).

(** [d.pop(key, None)]: the value (or [None]) and the dict without the key. *)
Fixpoint pop (key : key) (d : layer) : option json * layer :=
  match d with
  | [] => (None, [])
  | (k, v) :: rest =>
      if bool_decide (k = key) then (Some v, rest)
      else let '(found, rest') := pop key rest in (found, (k, v) :: rest')
  end.

(** [d[key] = v]. *)
Fixpoint setitem (key : key) (v : json) (d : layer) : layer :=
  match d with
  | [] => [(key, v)]
  | (k, v') :: rest =>
      if bool_decide (k = key) then (k, v) :: rest
      else (k, v') :: setitem key v rest
  end.

Inductive lambda_exn : Type :=
| LTypeError (msg : string)
| LValueError (msg : string).

Definition of_key (k : key) : json :=
  match k with
  | KStr s => JStr s
  | KInt n => JNum n
  end.

(** The characters of a string, as iterating over it yields them. *)
Fixpoint characters (s : string) : list json :=
  match s with
  | EmptyString => []
  | String c rest => JStr (String c EmptyString) :: characters rest
  end.

(** An element of the sequence handed to [update] is read as a sequence
    itself: the items of a list, the characters of a string, the keys of a
    dict; a number is none. *)
Definition as_sequence (item : json) : option (list json) :=
  match item with
  | JList l => Some l
  | JStr s => Some (characters s)
  | JDict d => Some (of_key <$> d.*1)
  | JNum _ => None
  end.

(** What can be a key: lists and dicts are unhashable. *)
Definition as_key (v : json) : lambda_exn + key :=
  match v with
  | JStr s => inr (KStr s)
  | JNum n => inr (KInt n)
  | JList _ => inl (LTypeError "unhashable type: 'list'")
  | JDict _ => inl (LTypeError "unhashable type: 'dict'")
  end.

(** [d.update(items)] for a sequence: every element, from index [i] on, has
    to be a pair of a key and a value. *)
Fixpoint update_from_sequence (i : nat) (items : list json) (d : layer)
    : lambda_exn + layer :=
  match items with
  | [] => inr d
  | item :: rest =>
      match as_sequence item with
      | None =>
          inl (LTypeError
                 ("cannot convert dictionary update sequence element #"
                    +:+ pretty i +:+ " to a sequence"))
      | Some [k; v] =>
          match as_key k with
          | inl e => inl e
          | inr k => update_from_sequence (S i) rest (setitem k v d)
          end
      | Some elements =>
          inl (LValueError
                 ("dictionary update sequence element #" +:+ pretty i
                    +:+ " has length " +:+ pretty (length elements)
                    +:+ "; 2 is required"))
      end
  end.

(** [d.update(other)]: a dict is merged in, entry by entry; a list or a
    string is read as a sequence of pairs; [None] and numbers are not
    iterable. *)
Definition update (d : layer) (other : option json) : lambda_exn + layer :=
  match other with
  | None => inl (LTypeError "'NoneType' object is not iterable")
  | Some (JDict o) => inr (fold_left (fun acc kv => setitem kv.1 kv.2 acc) o d)
  | Some (JList items) => update_from_sequence 0 items d
  | Some (JStr s) => update_from_sequence 0 (characters s) d
  | Some (JNum _) => inl (LTypeError "'int' object is not iterable")
  end.

Record params : Type := Params {
  name : option string;
  compatible_runtime : option string;
  compatible_architecture : option string
}.

Inductive lambda_call : Type :=
| list_layer_versions_op (kwargs : gmap string pyval)
| list_layers_op (kwargs : gmap string pyval).

(** The payload of [exit_json]. *)
Record lambda_result : Type := LambdaResult {
  lambda_changed : bool;
  layers_versions : list layer
}.

Inductive lambda_failure : Type :=
| fail_list_layer_versions (e : ec2_error) (msg : string)
| fail_list_layers (e : ec2_error) (kwargs : gmap string pyval).

Inductive lambda_outcome (A : Type) : Type :=
| LReturn (a : A)
| LRaise (e : lambda_exn)
| LExitJson (r : lambda_result)
| LFailJson (f : lambda_failure).
Arguments LReturn {A} _.
Arguments LRaise {A} _.
Arguments LExitJson {A} _.
Arguments LFailJson {A} _.

Section Module_.
Context {cloud : Type}.

(** The paginated client: the full result of an operation, or a botocore
    error. *)
Variable lambda_client : lambda_call → cloud → (ec2_error + list layer) * cloud.

(** From ansible.module_utils.common.dict_transformations. *)
Variable camel_dict_to_snake_dict : layer → layer.

(** The state threaded through an invocation: the cloud and the operations
    requested so far. *)
Definition L (A : Type) : Type :=
  cloud * list lambda_call → lambda_outcome A * (cloud * list lambda_call).

Definition paginate (c : lambda_call) : L (ec2_error + list layer) :=
  fun w =>
    let '(r, s') := lambda_client c w.1 in
    (LReturn r, (s', (w.2 ++ [c])%list)).

Definition lbind {A B} (m : L A) (k : A → L B) : L B :=
  fun w =>
    match m w with
    | (LReturn a, w') => k a w'
    | (LRaise e, w') => (LRaise e, w')
    | (LExitJson r, w') => (LExitJson r, w')
    | (LFailJson f, w') => (LFailJson f, w')
    end.

Definition with_filters (module : params) (kwargs : gmap string pyval)
    : gmap string pyval :=
  let kwargs :=
    if truthy (compatible_runtime module) then
      <["CompatibleRuntime" := of_opt (compatible_runtime module)]> kwargs
    else kwargs in
  if truthy (compatible_architecture module) then
    <["CompatibleArchitecture" := of_opt (compatible_architecture module)]> kwargs
  else kwargs.

Definition list_layer_versions (module : params) : L (list layer) :=
  let kwargs := with_filters module {[ "LayerName" := of_opt (name module) ]} in
  lbind (paginate (list_layer_versions_op kwargs)) (fun r =>
    match r with
    | inr layer_versions =>
        fun w => (LReturn (camel_dict_to_snake_dict <$> layer_versions), w)
    | inl e =>
        fun w => (LFailJson (fail_list_layer_versions e
                   ("Unable to list layer versions for name "
                      +:+ py_str (name module))), w)
    end).

(** The [for] loop of [list_layers]. *)
Fixpoint merge_latest (layers : list layer) : lambda_exn + list layer :=
  match layers with
  | [] => inr []
  | layer :: rest =>
      let '(latest, layer) := pop (KStr "LatestMatchingVersion") layer in
      match update layer latest with
      | inl e => inl e
      | inr layer =>
          match merge_latest rest with
          | inl e => inl e
          | inr rest => inr (camel_dict_to_snake_dict layer :: rest)
          end
      end
  end.

Definition list_layers (module : params) : L (list layer) :=
  let kwargs := with_filters module ∅ in
  lbind (paginate (list_layers_op kwargs)) (fun r =>
    match r with
    | inr layers =>
        match merge_latest layers with
        | inr layer_versions => fun w => (LReturn layer_versions, w)
        | inl e => fun w => (LRaise e, w)
        end
    | inl e => fun w => (LFailJson (fail_list_layers e kwargs), w)
    end).

Definition execute_module (module : params) : L Empty_set :=
  let operation := list_layers in
  let operation :=
    if bool_decide (name module ≠ None) then list_layer_versions
    else operation in
  lbind (operation module) (fun layers =>
    fun w => (LExitJson (LambdaResult false layers), w)).

End Module_.

End LambdaLayerInfo.

(** ** An in-memory cloud

    A small stateful client used to run the module on concrete inputs: a
    table of allocated addresses, the addresses that can still be handed
    out, the known devices and the tags of each address. *)

Module InMemory.

Record cloud : Type := Cloud {
  addresses : list pydict;
  available : list pydict;
  instances : list pydict;
  interfaces : list pydict;
  tags_of : gmap string pydict
}.

Definition has (key value : string) (a : pydict) : bool :=
  bool_decide (a !! key = Some value).

Definition mem (v : option string) (values : list string) : bool :=
  match v with
  | Some v => existsb (String.eqb v) values
  | None => false
  end.

Definition tags_for (s : cloud) (a : pydict) : pydict :=
  match a !! "AllocationId" with
  | Some id => default ∅ (tags_of s !! id)
  | None => ∅
  end.

Definition matches (s : cloud) (a : pydict) (f : filter) : bool :=
  if String.eqb (Name f) "domain" then mem (a !! "Domain") (Values f)
  else if String.eqb (Name f) "instance-id" then mem (a !! "InstanceId") (Values f)
  else if String.eqb (Name f) "network-interface-id" then
    mem (a !! "NetworkInterfaceId") (Values f)
  else if String.eqb (Name f) "tag-key" then
    existsb (fun k => bool_decide (is_Some (tags_for s a !! k))) (Values f)
  else if String.prefix "tag:" (Name f) then
    mem (tags_for s a !! String.substring 4 (String.length (Name f) - 4) (Name f))
      (Values f)
  else false.

Definition selected (s : cloud) (kwargs : describe_kwargs) (a : pydict) : bool :=
  match PublicIps kwargs with
  | Some ips => mem (a !! "PublicIp") ips
  | None => true
  end &&
  match Filters kwargs with
  | Some fs => forallb (matches s a) fs
  | None => true
  end.

Definition error (code : string) : ec2_error := Ec2Error code "".

(** The address that an associate call names. *)
Definition targets (params : gmap string pyval) (a : pydict) : bool :=
  match params !! "AllocationId", params !! "PublicIp" with
  | Some (PyStr id), _ => has "AllocationId" id a
  | _, Some (PyStr ip) => has "PublicIp" ip a
  | _, _ => false
  end.

Definition is_associated (a : pydict) : bool :=
  truthy (a !! "InstanceId") || truthy (a !! "NetworkInterfaceId")
  || truthy (a !! "AssociationId").

Definition bind_device (params : gmap string pyval) (a : pydict) : pydict :=
  let a := <["AssociationId" := "eipassoc-" +:+ the_str (a !! "PublicIp")]> a in
  match params !! "InstanceId", params !! "NetworkInterfaceId" with
  | Some (PyStr i), _ => <["InstanceId" := i]> (delete "NetworkInterfaceId" a)
  | _, Some (PyStr n) => <["NetworkInterfaceId" := n]> (delete "InstanceId" a)
  | _, _ => a
  end.

Definition unbind (a : pydict) : pydict :=
  if has "Domain" "vpc" a then
    delete "AssociationId" (delete "InstanceId" (delete "NetworkInterfaceId" a))
  else <["InstanceId" := ""]> a.

Definition named (kw : disassociate_kwargs) (a : pydict) : bool :=
  match kw with
  | association_id (Some id) => has "AssociationId" id a
  | by_public_ip (Some ip) => has "PublicIp" ip a
  | _ => false
  end.

Definition update_where (p : pydict → bool) (f : pydict → pydict)
    (l : list pydict) : list pydict :=
  (fun a => if p a then f a else a) <$> l.

Definition with_addresses (s : cloud) (l : list pydict) : cloud :=
  Cloud l (available s) (instances s) (interfaces s) (tags_of s).

Definition desired_tags (current tags : pydict) (purge : bool) : pydict :=
  if purge then tags else tags ∪ current.

Definition ec2 (c : call) : cloud → (ec2_error + reply c) * cloud :=
  match c with
  | DescribeAddresses kwargs => fun s =>
      (inr (List.filter (selected s kwargs) (addresses s)), s)
  | DescribeInstances ids => fun s =>
      match List.filter (fun i => mem (i !! "InstanceId") ids) (instances s) with
      | [] => (inr [], s)
      | found => (inr [Reservation found], s)
      end
  | DescribeNetworkInterfaces ids => fun s =>
      (inr (List.filter (fun i => mem (i !! "NetworkInterfaceId") ids)
              (interfaces s)), s)
  | AllocateAddress params => fun s =>
      match available s with
      | [] => (inl (error "AddressLimitExceeded"), s)
      | a :: rest =>
          let a := <["Domain" := default "standard" (Domain params)]> a in
          let tags :=
            match TagSpecifications params with
            | Some (spec :: _) => Tags spec
            | _ => ∅
            end in
          (inr a,
           Cloud (addresses s ++ [a]) rest (instances s) (interfaces s)
             (<[the_str (a !! "AllocationId") := tags]> (tags_of s)))
      end
  | AssociateAddress params => fun s =>
      match List.filter (targets params) (addresses s) with
      | [] => (inl (error "InvalidAddress.NotFound"), s)
      | a :: _ =>
          if is_associated a
             && negb (bool_decide (params !! "AllowReassociation" = Some (PyBool true)))
             && negb (bool_decide (bind_device params a = a))
          then (inl (error "Resource.AlreadyAssociated"), s)
          else
            (inr {[ "AssociationId" := "eipassoc-" +:+ the_str (a !! "PublicIp") ]},
             with_addresses s
               (update_where (targets params) (bind_device params) (addresses s)))
      end
  | DisassociateAddress kw => fun s =>
      match List.filter (named kw) (addresses s) with
      | [] => (inl (error "InvalidAssociationID.NotFound"), s)
      | _ => (inr true,
              with_addresses s (update_where (named kw) unbind (addresses s)))
      end
  | ReleaseAddress id => fun s =>
      match List.filter (has "AllocationId" id) (addresses s) with
      | [] => (inr false, s)
      | a :: _ =>
          if is_associated a then (inl (error "InvalidIPAddress.InUse"), s)
          else
            (inr true,
             with_addresses s
               (List.filter (fun a => negb (has "AllocationId" id a)) (addresses s)))
      end
  | EnsureEc2Tags args => fun s =>
      match tags_arg args with
      | None => (inr false, s)
      | Some tags =>
          let current := default ∅ (tags_of s !! resource_id args) in
          let wanted := desired_tags current tags (purge_tags_arg args) in
          (inr (negb (bool_decide (wanted = current))),
           Cloud (addresses s) (available s) (instances s) (interfaces s)
             (<[resource_id args := wanted]> (tags_of s)))
      end
  end.

(** Running the module from a cloud state with an empty trace. *)
Definition run (module : AnsibleAWSModule) (s : cloud)
    : outcome Empty_set * world cloud :=
  main ec2 module (World s []).

End InMemory.

(** ** Specifications over traces

    [spec m Q]: from every world, [m] appends some calls [l] to the trace
    and [Q] holds of its outcome and of [l]. *)

Definition spec {cloud A} (m : M cloud A)
    (Q : outcome A → list call → Prop) : Prop :=
  ∀ w, ∃ l, trace (m w).2 = (trace w ++ l)%list ∧ Q (m w).1 l.

(** The usual instance: every appended call satisfies [P], an exit payload
    satisfies [E] and a returned value satisfies [R]. *)
Definition outcome_ok {A} (E : result → Prop) (R : A → Prop)
    (o : outcome A) : Prop :=
  match o with
  | Return a => R a
  | ExitJson r => E r
  | Raise _ | FailJson _ => True
  end.

Definition ok {cloud A} (P : call → Prop) (E : result → Prop) (R : A → Prop)
    (m : M cloud A) : Prop :=
  spec m (fun o l => Forall P l ∧ outcome_ok E R o).

(** The payloads with which [main] can exit. *)
Inductive main_exit (module : AnsibleAWSModule) : result → Prop :=
| exit_already_absent :
    param_state module = absent →
    main_exit module (Result false None None (Some false) (Some false))
| exit_only_changed c :
    param_state module = present →
    main_exit module (only_changed c)
| exit_present c ip alloc :
    param_state module = present →
    main_exit module (Result c (Some ip) (Some alloc) None None)
| exit_released c :
    param_state module = absent →
    truthy (param_device_id module) = true →
    param_release_on_disassociation module = true →
    main_exit module (Result true None None (Some true) (Some c))
| exit_disassociated d :
    param_state module = absent →
    truthy (param_device_id module) = true →
    main_exit module (Result d None None (Some d) (Some false))
| exit_release c :
    param_state module = absent →
    truthy (param_device_id module) = false →
    main_exit module (Result c None None (Some false) (Some c)).

(** The result of the locator once its query has been answered. *)
Definition located (module : AnsibleAWSModule) (kwargs : describe_kwargs)
    (addresses : list pydict) : outcome (option pydict) :=
  match addresses with
  | [] =>
      if bool_decide (param_state module = absent) then
        ExitJson (Result false None None (Some false) (Some false))
      else Return None
  | [a] => Return (Some a)
  | _ => FailJson (fail_json_more_than_one kwargs addresses)
  end.

(** The domain that [allocate_address] works in, and the query of its reuse
    scan. *)
Definition allocator_domain (domain : option string) : string :=
  if negb (truthy domain) then "standard" else the_str domain.

Definition reuse_kwargs (domain : option string) (search_tags : option pydict)
    : describe_kwargs :=
  let filters := [Filter "domain" [allocator_domain domain]] in
  DescribeKwargs None
    (Some match search_tags with
          | Some search_tags =>
              (filters ++ ansible_dict_to_boto3_filter_list search_tags)%list
          | None => filters
          end).

(** An address that is free for reuse: no association id in the vpc domain,
    no attached instance otherwise. *)
Definition unassociated (domain : string) (a : pydict) : bool :=
  if String.eqb domain "vpc" then negb (truthy (a !! "AssociationId"))
  else negb (truthy (a !! "InstanceId")).

(** ** Concrete inputs

    Addresses, devices, cloud states and parameter sets on which the
    module is run below. *)

Module Sample.

Definition address (ip id domain : string) : pydict :=
  <["PublicIp" := ip]> (<["AllocationId" := id]> (<["Domain" := domain]> ∅)).

(** Two vpc addresses: one bound to an instance, one free. *)
Definition vpc_bound : pydict :=
  <["InstanceId" := "i-1212f003"]>
    (<["AssociationId" := "eipassoc-1"]>
       (address "93.184.216.119" "eipalloc-1" "vpc")).

Definition vpc_free : pydict := address "198.51.100.2" "eipalloc-2" "vpc".

Definition vpc_spare : pydict := address "198.51.100.3" "eipalloc-3" "vpc".

(** Two standard-domain addresses: one with an empty [InstanceId], one
    without the field. *)
Definition classic_free : pydict :=
  <["PublicIp" := "203.0.113.5"]>
    (<["Domain" := "standard"]> (<["InstanceId" := ""]> ∅)).

Definition classic_bare : pydict :=
  <["PublicIp" := "203.0.113.6"]> (<["Domain" := "standard"]> ∅).

Definition instance : pydict :=
  <["InstanceId" := "i-1212f003"]> (<["VpcId" := "vpc-0a"]> ∅).

Definition empty_cloud : InMemory.cloud :=
  InMemory.Cloud [] [vpc_free; vpc_spare] [instance] [] ∅.

Definition vpc_cloud : InMemory.cloud :=
  InMemory.Cloud [vpc_bound; vpc_free] [vpc_spare] [instance] [] ∅.

Definition classic_cloud : InMemory.cloud :=
  InMemory.Cloud [classic_free; classic_bare] [] [] [] ∅.

(** Two addresses that answer to the same public IP. *)
Definition twin_cloud : InMemory.cloud :=
  InMemory.Cloud [vpc_bound; address "93.184.216.119" "eipalloc-9" "vpc"]
    [] [instance] [] ∅.

(** The parameters with their defaults, and the parameter sets used below. *)
Definition params (check_mode : bool) (device_id public_ip : option string)
    (state : state) (in_vpc reuse release : bool) : AnsibleAWSModule :=
  Module_ check_mode device_id public_ip state in_vpc reuse release false
    None None true None None None.

Definition present_nothing : AnsibleAWSModule :=
  params false None None present false false false.

Definition absent_nothing (check_mode : bool) : AnsibleAWSModule :=
  params check_mode None None absent false false false.

Definition absent_ip (ip : string) : AnsibleAWSModule :=
  params false None (Some ip) absent false false false.

Definition present_eni_no_vpc : AnsibleAWSModule :=
  params false (Some "eni-c8ad70f3") None present false false false.

End Sample.

(** A sample paginated Lambda client and the layers it lists. *)
Module SampleLambda.
Import LambdaLayerInfo.

Definition version : layer :=
  [(KStr "LayerVersionArn",
    JStr "arn:aws:lambda:eu-west-2:1:layer:pylogger:2");
   (KStr "Version", JNum 2)].

Definition summary : layer :=
  [(KStr "LayerName", JStr "pylogger");
   (KStr "LatestMatchingVersion", JDict version)].

Definition client (c : lambda_call) (s : unit)
    : (ec2_error + list layer) * unit :=
  match c with
  | list_layer_versions_op _ => (inr [version], s)
  | list_layers_op _ => (inr [summary], s)
  end.

End SampleLambda.

(** What [ensure_present] returns: the bare check-mode verdict, or a verdict
    with the identity of the address. *)
Definition present_result (r : result) : Prop :=
  r = only_changed true ∨
  ∃ c ip alloc, r = Result c (Some ip) (Some alloc) None None.

(** The calls of an [absent] invocation: describe queries of the locator,
    followed by the mutating calls listed here. *)
Definition is_describe (c : call) : Prop := ∃ kwargs, c = DescribeAddresses kwargs.

Inductive device_tail (module : AnsibleAWSModule) : list call → Prop :=
| device_tail_nothing : device_tail module []
| device_tail_disassociate kw :
    check_mode module = false →
    device_tail module [DisassociateAddress kw]
| device_tail_release kw id :
    check_mode module = false →
    param_release_on_disassociation module = true →
    device_tail module [DisassociateAddress kw; ReleaseAddress id].

Inductive no_device_tail (module : AnsibleAWSModule) : list call → Prop :=
| no_device_tail_nothing : no_device_tail module []
| no_device_tail_release id :
    check_mode module = false →
    no_device_tail module [ReleaseAddress id].

Definition describes_then (tail : list call → Prop) (l : list call) : Prop :=
  ∃ ds t, l = (ds ++ t)%list ∧ Forall is_describe ds ∧ tail t.

(** The outcome of the disassociation step: it either only queries, and
    then it answers [True] in check mode only; or, outside check mode, it
    queries and then issues one disassociate call. *)
Definition disassociation (module : AnsibleAWSModule) (o : outcome bool)
    (l : list call) : Prop :=
  (Forall is_describe l ∧ (o = Return true → check_mode module = true)) ∨
  (check_mode module = false ∧
   ∃ ds kw, l = (ds ++ [DisassociateAddress kw])%list ∧ Forall is_describe ds).

(** The same, for the runs about releases. *)
Module SampleRelease.

Definition absent_device_release : AnsibleAWSModule :=
  Sample.params false (Some "i-1212f003") None absent true false true.

Definition check_present_device : AnsibleAWSModule :=
  Sample.params true (Some "i-1212f003") (Some "198.51.100.2") present
    true false false.

End SampleRelease.

(** ** What idempotence asks of the cloud

    The cloud is an external service; these are the properties of its
    client on which a second run relies.  [by_ip] is the locator's query
    for a public IP, and the device queries are those of [find_device]. *)

Definition by_ip (ip : string) : describe_kwargs := DescribeKwargs (Some [ip]) None.

Definition device_key (is_instance : bool) : string :=
  if is_instance then "InstanceId" else "NetworkInterfaceId".

Definition is_view (c : call) : Prop :=
  match c with
  | DescribeAddresses kwargs => ∃ ip, kwargs = by_ip ip
  | DescribeInstances _ | DescribeNetworkInterfaces _ => True
  | _ => False
  end.

Record lawful {cloud : Type}
    (ec2 : ∀ c : call, cloud → (ec2_error + reply c) * cloud) : Prop := Lawful {
  (** Queries leave the cloud as it is. *)
  views_are_pure : ∀ c s, is_view c → (ec2 c s).2 = s;
  (** A query by public IP returns addresses with that public IP. *)
  by_ip_sound : ∀ ip s addresses,
    (ec2 (DescribeAddresses (by_ip ip)) s).1 = inr addresses →
    Forall (fun a => a !! "PublicIp" = Some ip) addresses;
  (** After a successful associate call that names an address (by its
      allocation id or by its public IP) and a device, the query by public
      IP shows the address bound to the device, with the same allocation
      id. *)
  associate_binds : ∀ params s res s' is_instance device ip a,
    ec2 (AssociateAddress params) s = (inr res, s') →
    params !! device_key is_instance = Some (PyStr device) →
    params !! device_key (negb is_instance) = None →
    (ec2 (DescribeAddresses (by_ip ip)) s).1 = inr [a] →
    (params !! "AllocationId" = Some (of_opt (a !! "AllocationId")) ∧
     params !! "PublicIp" = None) ∨
    (params !! "PublicIp" = Some (PyStr ip) ∧ params !! "AllocationId" = None) →
    ∃ a', (ec2 (DescribeAddresses (by_ip ip)) s').1 = inr [a'] ∧
          a' !! device_key is_instance = Some device ∧
          a' !! "AllocationId" = a !! "AllocationId";
  (** Associating an address does not change what is known of devices. *)
  associate_keeps_devices : ∀ params s res s',
    ec2 (AssociateAddress params) s = (inr res, s') →
    (∀ ids, (ec2 (DescribeInstances ids) s').1 = (ec2 (DescribeInstances ids) s).1) ∧
    (∀ ids, (ec2 (DescribeNetworkInterfaces ids) s').1
            = (ec2 (DescribeNetworkInterfaces ids) s).1);
  (** Tag reconciliation does not change the answers to the queries, and
      once done it has nothing left to change. *)
  tags_keep_views : ∀ args s changed s',
    ec2 (EnsureEc2Tags args) s = (inr changed, s') →
    (∀ ip, (ec2 (DescribeAddresses (by_ip ip)) s').1
           = (ec2 (DescribeAddresses (by_ip ip)) s).1) ∧
    (∀ ids, (ec2 (DescribeInstances ids) s').1 = (ec2 (DescribeInstances ids) s).1) ∧
    (∀ ids, (ec2 (DescribeNetworkInterfaces ids) s').1
            = (ec2 (DescribeNetworkInterfaces ids) s).1);
  tags_settle : ∀ args s changed s',
    ec2 (EnsureEc2Tags args) s = (inr changed, s') →
    ec2 (EnsureEc2Tags args) s' = (inr false, s')
}.

(** Two cloud states that answer the device queries alike, and two that
    also answer the locator's query for [ip] alike. *)
Definition same_devices {cloud : Type}
    (ec2 : ∀ c : call, cloud → (ec2_error + reply c) * cloud)
    (s s' : cloud) : Prop :=
  (∀ ids, (ec2 (DescribeInstances ids) s').1 = (ec2 (DescribeInstances ids) s).1) ∧
  (∀ ids, (ec2 (DescribeNetworkInterfaces ids) s').1
          = (ec2 (DescribeNetworkInterfaces ids) s).1).

Definition same_views {cloud : Type}
    (ec2 : ∀ c : call, cloud → (ec2_error + reply c) * cloud)
    (ip : string) (s s' : cloud) : Prop :=
  (ec2 (DescribeAddresses (by_ip ip)) s').1
    = (ec2 (DescribeAddresses (by_ip ip)) s).1 ∧
  same_devices ec2 s s'.

(** [result["changed"] = c]. *)
Definition with_changed (r : result) (c : bool) : result :=
  Result c (public_ip r) (allocation_id r) (disassociated r) (released r).

(** A computation that neither looks at the world nor changes it. *)
Definition constant {cloud A} (m : M cloud A) : Prop :=
  ∃ o, ∀ w, m w = (o, w).

(** *** A cloud that answers from a table of addresses

    What a second run finds depends on how the answers to different
    queries hang together.  Here the addresses of the account form a
    table: the queries of the module select from it, an allocate call
    appends to it, an associate call rewrites the entries that it names,
    and the tag reconciliation leaves it alone. *)

Definition has_field (key value : string) (a : pydict) : bool :=
  bool_decide (a !! key = Some value).

(** The locator's query for a device, and the allocator's query for the
    addresses of a domain. *)
Definition by_device (is_instance : bool) (device : string) : describe_kwargs :=
  DescribeKwargs None
    (Some [Filter (if is_instance then "instance-id" else "network-interface-id")
             [device]]).

Definition by_domain (domain : string) : describe_kwargs :=
  DescribeKwargs None (Some [Filter "domain" [domain]]).

(** The addresses that an associate call names: by allocation id when it
    gives one, by public IP otherwise. *)
Definition targeted (params : gmap string pyval) (a : pydict) : bool :=
  match params !! "AllocationId", params !! "PublicIp" with
  | Some (PyStr id), _ => has_field "AllocationId" id a
  | _, Some (PyStr ip) => has_field "PublicIp" ip a
  | _, _ => false
  end.

(** An address bound to nothing. *)
Definition unbound (a : pydict) : Prop :=
  truthy (a !! "InstanceId") = false ∧
  truthy (a !! "NetworkInterfaceId") = false ∧
  truthy (a !! "AssociationId") = false.

Definition field_values (key : string) (l : list pydict) : list string :=
  omap (fun a : pydict => a !! key) l.

Record tabular {cloud : Type}
    (ec2 : ∀ c : call, cloud → (ec2_error + reply c) * cloud)
    (table : cloud → list pydict) (good : cloud → Prop) : Prop := Tabular {
  (** Queries select from the table and leave the cloud as it is. *)
  answers_by_ip : ∀ ip s,
    ec2 (DescribeAddresses (by_ip ip)) s
    = (inr (List.filter (has_field "PublicIp" ip) (table s)), s);
  answers_by_device : ∀ is_instance device s,
    ec2 (DescribeAddresses (by_device is_instance device)) s
    = (inr (List.filter (has_field (device_key is_instance) device) (table s)),
       s);
  answers_by_domain : ∀ domain s,
    ec2 (DescribeAddresses (by_domain domain)) s
    = (inr (List.filter (has_field "Domain" domain) (table s)), s);
  device_queries_are_pure : ∀ ids s,
    (ec2 (DescribeInstances ids) s).2 = s ∧
    (ec2 (DescribeNetworkInterfaces ids) s).2 = s;
  (** In a good state no public IP and no allocation id occurs twice. *)
  good_unique : ∀ s,
    good s →
    NoDup (field_values "PublicIp" (table s)) ∧
    NoDup (field_values "AllocationId" (table s));
  (** A successful allocate call appends the address that it returns,
      which is of the domain asked for and bound to nothing. *)
  allocate_appends : ∀ params s a s',
    good s →
    ec2 (AllocateAddress params) s = (inr a, s') →
    table s' = (table s ++ [a])%list ∧
    a !! "Domain" = Some (default "standard" (Domain params)) ∧
    unbound a ∧ same_devices ec2 s s' ∧ good s';
  (** A successful associate call names an address of the table; it binds
      the addresses that it names to its device and leaves their public IP
      and allocation id, and the other addresses, as they are. *)
  associate_rebinds : ∀ params s res s',
    ec2 (AssociateAddress params) s = (inr res, s') →
    ∃ bound : pydict → pydict,
      table s' = (fun a => if targeted params a then bound a else a) <$> table s ∧
      (∀ a, bound a !! "PublicIp" = a !! "PublicIp" ∧
            bound a !! "AllocationId" = a !! "AllocationId") ∧
      (∀ a is_instance device,
         params !! device_key is_instance = Some (PyStr device) →
         params !! device_key (negb is_instance) = None →
         bound a !! device_key is_instance = Some device) ∧
      List.filter (targeted params) (table s) ≠ [] ∧
      same_devices ec2 s s' ∧ (good s → good s');
  (** The tag reconciliation leaves the table alone, and once done it has
      nothing left to change. *)
  tags_keep_table : ∀ args s changed s',
    ec2 (EnsureEc2Tags args) s = (inr changed, s') →
    table s' = table s ∧ same_devices ec2 s s' ∧ (good s → good s') ∧
    ec2 (EnsureEc2Tags args) s' = (inr false, s')
}.

(** The requests of [state=present] that a second run finds settled: a
    public IP that the locator finds; or a device and no public IP; or
    neither, with reuse allowed, in the vpc domain and without a tag
    filter. *)
Definition settling {cloud : Type}
    (ec2 : ∀ c : call, cloud → (ec2_error + reply c) * cloud)
    (module : AnsibleAWSModule) (s : cloud) : Prop :=
  (∃ ip a,
     param_public_ip module = Some ip ∧ str_truthy ip = true ∧
     (ec2 (DescribeAddresses (by_ip ip)) s).1 = inr [a]) ∨
  (truthy (param_public_ip module) = false ∧
   truthy (param_device_id module) = true) ∨
  (param_public_ip module = None ∧
   truthy (param_device_id module) = false ∧
   param_reuse_existing_ip_allowed module = true ∧
   param_in_vpc module = true ∧
   truthy (param_tag_name module) = false ∧
   truthy (param_tag_value module) = false).

(** The state of the in-memory cloud in which no public IP and no
    allocation id occurs twice, among the addresses allocated and those
    still to hand out, and the latter are bound to nothing. *)
Definition in_memory_good (s : InMemory.cloud) : Prop :=
  NoDup (field_values "PublicIp" (InMemory.addresses s ++ InMemory.available s)) ∧
  NoDup (field_values "AllocationId"
           (InMemory.addresses s ++ InMemory.available s)) ∧
  Forall unbound (InMemory.available s).

(** The runs about a second invocation: an instance and a public IP of the
    account, and the first and second run with neither device nor IP. *)
Module SampleIdempotence.

Definition present_device : AnsibleAWSModule :=
  Sample.params false (Some "i-1212f003") (Some "198.51.100.2") present
    true false false.

Definition first : outcome Empty_set * world InMemory.cloud :=
  InMemory.run Sample.present_nothing Sample.empty_cloud.

Definition second : outcome Empty_set * world InMemory.cloud :=
  InMemory.run Sample.present_nothing (cloud_state first.2).

End SampleIdempotence.

(** ** Vocabulary of the further properties *)

(** What [s.strip(chars)] leaves: [k] is [s] without a run of leading and a
    run of trailing characters of [chars], and neither end of [k] is a
    character of [chars]. *)
Fixpoint all_in (chars s : string) : bool :=
  match s with
  | EmptyString => true
  | String c rest => char_in c chars && all_in chars rest
  end.

Definition first_char (s : string) : option Ascii.ascii :=
  match s with
  | EmptyString => None
  | String c _ => Some c
  end.

Fixpoint last_char (s : string) : option Ascii.ascii :=
  match s with
  | EmptyString => None
  | String c EmptyString => Some c
  | String _ rest => last_char rest
  end.

Definition outside (chars : string) (c : option Ascii.ascii) : Prop :=
  match c with
  | Some c => char_in c chars = false
  | None => True
  end.

Definition stripped (chars s k : string) : Prop :=
  ∃ pre post,
    s = pre +:+ k +:+ post ∧
    all_in chars pre = true ∧ all_in chars post = true ∧
    outside chars (first_char k) ∧ outside chars (last_char k).

(** The exceptions of a subscript: subscripting [None], and a missing key
    among the four that the module subscripts. *)
Definition failed_subscript (e : exn) : Prop :=
  e = not_subscriptable ∨
  ∃ key, e = KeyError key ∧
         In key ["InstanceId"; "VpcId"; "PublicIp"; "AllocationId"].

(** How an invocation ends in check mode: with a verdict of one of the
    shapes of [main_exit], with a failure, or with the exception of a
    subscript, which nothing catches. *)
Definition verdict_or_failure (module : AnsibleAWSModule)
    (o : outcome Empty_set) : Prop :=
  match o with
  | ExitJson r => main_exit module r
  | FailJson _ => True
  | Raise e => failed_subscript e
  | Return v => False
  end.

(** The exceptions that no handler of the module catches: those of a
    subscript, and the keyword that [disassociate_address] refuses, which
    is passed only when a device is to be detached outside check mode. *)
Definition uncaught (module : AnsibleAWSModule) (e : exn) : Prop :=
  failed_subscript e ∨
  (e = unexpected_public_ip ∧ check_mode module = false ∧
   param_state module = absent ∧ truthy (param_device_id module) = true).

(** The failures that carry a message of the module, as opposed to the
    generic report of [fail_json_aws_error]. *)
Definition specific (f : failure) : Prop := ∀ e, f ≠ fail_json_aws_error e.

(** Inside [try: ... except AnsibleEC2Error], cloud errors may be raised. *)
Definition caught (X : exn → Prop) (e : exn) : Prop :=
  match e with
  | AnsibleEC2Error _ => True
  | _ => X e
  end.

(** [m] raises only exceptions of [X] and fails only with failures of [F]. *)
Definition ends_within {cloud A} (X : exn → Prop) (F : failure → Prop)
    (m : M cloud A) : Prop :=
  ∀ w, match (m w).1 with
       | Raise e => X e
       | FailJson f => F f
       | _ => True
       end.

(** A context that lets through what the functions of the module may end
    with. *)
Definition allows (X : exn → Prop) (F : failure → Prop) : Prop :=
  (∀ e, failed_subscript e → X e) ∧ (∀ f, specific f → F f).

(** A cloud like the in-memory one on which tags cannot be changed. *)
Module ReadOnlyTags.

Definition ec2 (c : call)
    : InMemory.cloud → (ec2_error + reply c) * InMemory.cloud :=
  match c as c0
    return InMemory.cloud → (ec2_error + reply c0) * InMemory.cloud with
  | EnsureEc2Tags _ => fun s => (inl (InMemory.error "UnauthorizedOperation"), s)
  | c0 => InMemory.ec2 c0
  end.

End ReadOnlyTags.

(** The arguments of an associate call that names the device under the
    key of its kind, carries the reassociation flag and the private IP
    when there is one, and targets the address by its public IP for an
    instance outside the vpc domain, by its allocation id otherwise. *)
Definition associates (address : option pydict)
    (private_ip_address device_id : option string)
    (allow_reassociation is_instance : bool)
    (params : gmap string pyval) : Prop :=
  params !! device_key is_instance = Some (of_opt device_id) ∧
  params !! device_key (negb is_instance) = None ∧
  params !! "AllowReassociation" = Some (PyBool allow_reassociation) ∧
  params !! "PrivateIpAddress"
    = (if truthy private_ip_address then Some (of_opt private_ip_address)
       else None) ∧
  if is_instance && negb (bool_decide (or_empty address !! "Domain" = Some "vpc"))
  then params !! "PublicIp" = Some (of_opt (or_empty address !! "PublicIp")) ∧
       params !! "AllocationId" = None
  else params !! "AllocationId"
         = Some (of_opt (or_empty address !! "AllocationId")) ∧
       params !! "PublicIp" = None.

(** The request of the allocate call of the allocator: the domain (by
    default [standard]), the pool when one is given, and the tags when there
    are some. *)
Definition allocate_request (domain : option string) (tags : option pydict)
    (public_ipv4_pool : option string) : allocate_kwargs :=
  AllocateKwargs (Some (allocator_domain domain))
    (if truthy public_ipv4_pool then public_ipv4_pool else None)
    (if optdict_truthy tags then
       Some (boto3_tag_specifications (default ∅ tags) "elastic-ip")
     else None).

(** The reply to the instance query from which [find_device] takes no
    instance: anything but one reservation of one instance. *)
Definition no_single_instance (reservations : list reservation) : Prop :=
  match reservations with
  | [r] => match Instances r with
           | [i] => False
           | _ => True
           end
  | _ => True
  end.

(** Reading a layer record: [d.get(key)], and the dict under
    [LatestMatchingVersion] (empty when there is none). *)
Fixpoint get (key : LambdaLayerInfo.key) (d : LambdaLayerInfo.layer)
    : option LambdaLayerInfo.json :=
  match d with
  | [] => None
  | (k, v) :: rest => if bool_decide (k = key) then Some v else get key rest
  end.

Definition latest_version (layer : LambdaLayerInfo.layer)
    : LambdaLayerInfo.layer :=
  match get (LambdaLayerInfo.KStr "LatestMatchingVersion") layer with
  | Some (LambdaLayerInfo.JDict version) => version
  | _ => []
  end.

(** A layer record as boto3 returns it: a dict (no key twice) whose
    [LatestMatchingVersion] is a dict. *)
Definition layer_summary (layer : LambdaLayerInfo.layer) : Prop :=
  NoDup layer.*1 ∧
  ∃ version,
    get (LambdaLayerInfo.KStr "LatestMatchingVersion") layer
      = Some (LambdaLayerInfo.JDict version) ∧
    NoDup version.*1.

(** Parameter sets and clients for the runs of the further properties. *)
Module SampleMore.

Definition value_without_name : AnsibleAWSModule :=
  Module_ false None None present false false false false
    None None true None (Some "web") None.

Definition present_ip (ip : string) : AnsibleAWSModule :=
  Sample.params false None (Some ip) present false false false.

Definition check_present_unlocated : AnsibleAWSModule :=
  Sample.params true (Some "i-1212f003") (Some "192.0.2.9") present
    true false false.

Definition present_bound : AnsibleAWSModule :=
  Sample.params false (Some "i-1212f003") (Some "93.184.216.119") present
    true false false.

Definition present_reuse : AnsibleAWSModule :=
  Sample.params false None None present true true false.

(** A standard-domain address bound to the instance, and the request to
    detach the instance from it. *)
Definition classic_bound : pydict :=
  <["InstanceId" := "i-1212f003"]> Sample.classic_free.

Definition classic_bound_cloud : InMemory.cloud :=
  InMemory.Cloud [classic_bound] [] [Sample.instance] [] ∅.

Definition absent_device : AnsibleAWSModule :=
  Sample.params false (Some "i-1212f003") None absent false false false.

(** A layer record without [LatestMatchingVersion], and a client that
    lists it. *)
Definition bare_summary : LambdaLayerInfo.layer :=
  [(LambdaLayerInfo.KStr "LayerName", LambdaLayerInfo.JStr "pylogger")].

Definition bare_client (c : LambdaLayerInfo.lambda_call) (s : unit)
    : (ec2_error + list LambdaLayerInfo.layer) * unit :=
  (inr [bare_summary], s).

End SampleMore.

(** ** The order of the calls of [state=present]

    An automaton over the calls: queries until an associate call is made,
    at most one allocate call and only at the start, at most one associate
    call, and a tag reconciliation that ends everything.  The states count
    the steps taken: 0, 1 after the allocate call, 2 after the associate
    call, 3 after the tag reconciliation. *)
Definition present_step (s : nat) (c : call) : option nat :=
  match c with
  | DescribeAddresses _ | DescribeInstances _ | DescribeNetworkInterfaces _ =>
      if Nat.leb s 1 then Some s else None
  | AllocateAddress _ => if Nat.eqb s 0 then Some 1 else None
  | AssociateAddress _ => if Nat.leb s 1 then Some 2 else None
  | EnsureEc2Tags _ => if Nat.leb s 2 then Some 3 else None
  | DisassociateAddress _ | ReleaseAddress _ => None
  end.

Fixpoint present_run (s : nat) (l : list call) : option nat :=
  match l with
  | [] => Some s
  | c :: l =>
      match present_step s c with
      | Some s' => present_run s' l
      | None => None
      end
  end.

(** From a state up to [a], the calls [l] are accepted and lead to a state
    up to [b]; and a computation all of whose runs are so. *)
Definition within (a b : nat) (l : list call) : Prop :=
  ∀ s : nat, (s ≤ a)%nat → ∃ s', present_run s l = Some s' ∧ (s' ≤ b)%nat.

Definition phase {cloud A} (a b : nat) (m : M cloud A) : Prop :=
  spec m (fun _ l => within a b l).

Definition is_query (c : call) : Prop :=
  match c with
  | DescribeAddresses _ | DescribeInstances _ | DescribeNetworkInterfaces _ =>
      True
  | _ => False
  end.

(** The same invocation with other search tags and another pool. *)
Definition with_search (module : AnsibleAWSModule)
    (tag_name tag_value public_ipv4_pool : option string) : AnsibleAWSModule :=
  Module_ (check_mode module) (param_device_id module) (param_public_ip module)
    (param_state module) (param_in_vpc module)
    (param_reuse_existing_ip_allowed module)
    (param_release_on_disassociation module) (param_allow_reassociation module)
    (param_private_ip_address module) (param_tags module)
    (param_purge_tags module) tag_name tag_value public_ipv4_pool.

(** * Properties *)

(** ** The monad *)

Section MonadFacts.
Context {cloud : Type}.
Implicit Types w : world cloud.

Lemma bind_Return {A B} (m : M cloud A) (k : A → M cloud B) w a w' :
  m w = (Return a, w') → bind m k w = k a w'.
Proof. unfold bind. intros ->. reflexivity. Qed.

Lemma bind_Raise {A B} (m : M cloud A) (k : A → M cloud B) w e w' :
  m w = (Raise e, w') → bind m k w = (Raise e, w').
Proof. unfold bind. intros ->. reflexivity. Qed.

Lemma bind_ExitJson {A B} (m : M cloud A) (k : A → M cloud B) w r w' :
  m w = (ExitJson r, w') → bind m k w = (ExitJson r, w').
Proof. unfold bind. intros ->. reflexivity. Qed.

Lemma bind_FailJson {A B} (m : M cloud A) (k : A → M cloud B) w f w' :
  m w = (FailJson f, w') → bind m k w = (FailJson f, w').
Proof. unfold bind. intros ->. reflexivity. Qed.

Lemma bind_assoc {A B C} (m : M cloud A) (k1 : A → M cloud B)
    (k2 : B → M cloud C) w :
  bind (bind m k1) k2 w = bind m (fun a => bind (k1 a) k2) w.
Proof. unfold bind. destruct (m w) as [[a|e|r|f] w']; reflexivity. Qed.

Lemma bind_ext {A B} (m : M cloud A) (k k' : A → M cloud B) w :
  (∀ a w', k a w' = k' a w') → bind m k w = bind m k' w.
Proof.
  intros Hk. unfold bind. destruct (m w) as [[a|e|r|f] w']; auto.
Qed.

Lemma bind_ret {A B} (a : A) (k : A → M cloud B) w : bind (ret a) k w = k a w.
Proof. reflexivity. Qed.

Lemma bind_Return_inv {A B} (m : M cloud A) (k : A → M cloud B) w b w' :
  bind m k w = (Return b, w') →
  ∃ a w1, m w = (Return a, w1) ∧ k a w1 = (Return b, w').
Proof.
  unfold bind. destruct (m w) as [[a|e|r|f] w1]; try discriminate. eauto.
Qed.

Lemma try_except_Return_inv {A} (m : M cloud A) h w a w' :
  (∀ e w1, (h e w1).1 ≠ Return a) →
  try_except m h w = (Return a, w') → m w = (Return a, w').
Proof.
  intros Hh. unfold try_except.
  destruct (m w) as [[a'|[e| | |]|r|f] w1]; try done.
  intros H. specialize (Hh e w1). rewrite H in Hh. done.
Qed.

Lemma constant_ret {A} (a : A) : constant (cloud := cloud) (ret a).
Proof. by exists (Return a). Qed.

Lemma constant_raise {A} e : constant (cloud := cloud) (A := A) (raise e).
Proof. by exists (Raise e). Qed.

Lemma constant_fail {A} f : constant (cloud := cloud) (A := A) (fail f).
Proof. by exists (FailJson f). Qed.

Lemma constant_bind {A B} (m : M cloud A) (k : A → M cloud B) :
  constant m → (∀ a, constant (k a)) → constant (bind m k).
Proof.
  intros [o Ho] Hk. unfold constant, bind.
  destruct o as [a|e|r|f].
  - destruct (Hk a) as [o' Ho']. exists o'. intros w. by rewrite Ho, Ho'.
  - exists (Raise e). intros w. by rewrite Ho.
  - exists (ExitJson r). intros w. by rewrite Ho.
  - exists (FailJson f). intros w. by rewrite Ho.
Qed.

Lemma constant_getitem d key : constant (cloud := cloud) (getitem d key).
Proof.
  unfold getitem. destruct (d !! key); [apply constant_ret|apply constant_raise].
Qed.

Lemma constant_getitem_opt d key : constant (cloud := cloud) (getitem_opt d key).
Proof.
  unfold getitem_opt. destruct d; [apply constant_getitem|apply constant_raise].
Qed.

(** A constant computation that returns once returns the same everywhere. *)
Lemma constant_Return {A} (m : M cloud A) w a w1 :
  constant m → m w = (Return a, w1) → w1 = w ∧ ∀ w2, m w2 = (Return a, w2).
Proof.
  intros [o Ho] Hm. rewrite Ho in Hm. injection Hm as -> ->. auto.
Qed.

Lemma try_except_ExitJson {A} (m : M cloud A) h w r w' :
  m w = (ExitJson r, w') → try_except m h w = (ExitJson r, w').
Proof. unfold try_except. intros ->. reflexivity. Qed.

Lemma try_except_FailJson {A} (m : M cloud A) h w f w' :
  m w = (FailJson f, w') → try_except m h w = (FailJson f, w').
Proof. unfold try_except. intros ->. reflexivity. Qed.

Lemma try_except_Return {A} (m : M cloud A) h w a w' :
  m w = (Return a, w') → try_except m h w = (Return a, w').
Proof. unfold try_except. intros ->. reflexivity. Qed.

Lemma spec_ret {A} (a : A) (Q : outcome A → list call → Prop) :
  Q (Return a) [] → spec (cloud := cloud) (ret a) Q.
Proof. intros HQ w. exists []. rewrite app_nil_r. auto. Qed.

Lemma spec_raise {A} e (Q : outcome A → list call → Prop) :
  Q (Raise e) [] → spec (cloud := cloud) (raise e) Q.
Proof. intros HQ w. exists []. rewrite app_nil_r. auto. Qed.

Lemma spec_exit_json {A} r (Q : outcome A → list call → Prop) :
  Q (ExitJson r) [] → spec (cloud := cloud) (exit_json r) Q.
Proof. intros HQ w. exists []. rewrite app_nil_r. auto. Qed.

Lemma spec_fail {A} f (Q : outcome A → list call → Prop) :
  Q (FailJson f) [] → spec (cloud := cloud) (fail f) Q.
Proof. intros HQ w. exists []. rewrite app_nil_r. auto. Qed.

Lemma spec_mono {A} (m : M cloud A) (Q Q' : outcome A → list call → Prop) :
  spec m Q → (∀ o l, Q o l → Q' o l) → spec m Q'.
Proof. intros Hm HQ w. destruct (Hm w) as (l & Hl & H). eauto. Qed.

(** Sequencing: the continuation is specified relative to the calls already
    made; an aborted first part must already satisfy the postcondition. *)
Lemma spec_bind {A B} (m : M cloud A) (k : A → M cloud B)
    (Q1 : outcome A → list call → Prop) (Q : outcome B → list call → Prop) :
  spec m Q1 →
  (∀ a l1, Q1 (Return a) l1 → spec (k a) (fun o l2 => Q o (l1 ++ l2)%list)) →
  (∀ e l1, Q1 (Raise e) l1 → Q (Raise e) l1) →
  (∀ r l1, Q1 (ExitJson r) l1 → Q (ExitJson r) l1) →
  (∀ f l1, Q1 (FailJson f) l1 → Q (FailJson f) l1) →
  spec (bind m k) Q.
Proof.
  intros Hm Hk Hr He Hf w. unfold bind.
  destruct (Hm w) as (l1 & Hl1 & H1).
  destruct (m w) as [[a|e|r|f] w1]; simpl in *; eauto.
  destruct (Hk a l1 H1 w1) as (l2 & Hl2 & H2).
  exists (l1 ++ l2)%list. rewrite Hl2, Hl1, app_assoc. auto.
Qed.

Lemma spec_try_except {A} (body : M cloud A) (h : ec2_error → M cloud A)
    (Q1 Q : outcome A → list call → Prop) :
  spec body Q1 →
  (∀ e l1, Q1 (Raise (AnsibleEC2Error e)) l1 →
     spec (h e) (fun o l2 => Q o (l1 ++ l2)%list)) →
  (∀ o l, Q1 o l → (∀ e, o ≠ Raise (AnsibleEC2Error e)) → Q o l) →
  spec (try_except body h) Q.
Proof.
  intros Hm Hh Ho w. unfold try_except.
  destruct (Hm w) as (l1 & Hl1 & H1).
  destruct (body w) as [[a|[e| | |]|r|f] w1]; simpl in *;
    try (exists l1; split; [done|]; apply Ho; [done|congruence]).
  destruct (Hh e l1 H1 w1) as (l2 & Hl2 & H2).
  exists (l1 ++ l2)%list. rewrite Hl2, Hl1, app_assoc. auto.
Qed.

Lemma ok_ret {A} P E (R : A → Prop) a : R a → ok (cloud := cloud) P E R (ret a).
Proof. intros. apply spec_ret. split; [constructor|done]. Qed.

Lemma ok_raise {A} P E (R : A → Prop) e : ok (cloud := cloud) P E R (raise e).
Proof. apply spec_raise. split; [constructor|done]. Qed.

Lemma ok_fail {A} P E (R : A → Prop) f : ok (cloud := cloud) P E R (fail f).
Proof. apply spec_fail. split; [constructor|done]. Qed.

Lemma ok_exit_json {A} P (E : result → Prop) (R : A → Prop) r :
  E r → ok (cloud := cloud) P E R (exit_json r).
Proof. intros. apply spec_exit_json. split; [constructor|done]. Qed.

Lemma ok_bind {A B} P E (R1 : A → Prop) (R : B → Prop)
    (m : M cloud A) (k : A → M cloud B) :
  ok P E R1 m → (∀ a, R1 a → ok P E R (k a)) → ok P E R (bind m k).
Proof.
  intros Hm Hk. eapply spec_bind; [exact Hm| | | |]; simpl.
  - intros a l1 [Hl1 Ha]. eapply spec_mono; [exact (Hk a Ha)|].
    simpl. intros o l2 [Hl2 Ho]. split; [|done]. by apply Forall_app.
  - intros e l1 [? _]. done.
  - intros r l1 [? ?]. done.
  - intros f l1 [? _]. done.
Qed.

Lemma ok_try_except {A} P E (R : A → Prop) (body : M cloud A) h :
  ok P E R body → (∀ e, ok P E R (h e)) → ok P E R (try_except body h).
Proof.
  intros Hm Hh. eapply spec_try_except; [exact Hm| |]; simpl.
  - intros e l1 [Hl1 _]. eapply spec_mono; [exact (Hh e)|].
    simpl. intros o l2 [Hl2 Ho]. split; [|done]. by apply Forall_app.
  - intros o l H _. exact H.
Qed.

Lemma ok_mono {A} (P P' : call → Prop) (E E' : result → Prop)
    (R R' : A → Prop) (m : M cloud A) :
  ok P E R m → (∀ c, P c → P' c) → (∀ r, E r → E' r) → (∀ a, R a → R' a) →
  ok P' E' R' m.
Proof.
  intros Hm HP HE HR. eapply spec_mono; [exact Hm|]. simpl.
  intros o l [Hl Ho]. split.
  - eapply Forall_impl; eauto.
  - destruct o; simpl in *; auto.
Qed.

End MonadFacts.

(** ** The locator *)

Section Locator.
Context {cloud : Type}.
Variable ec2 : ∀ c : call, cloud → (ec2_error + reply c) * cloud.
Implicit Types w : world cloud.

Lemma invoke_inr c w v s' :
  ec2 c (cloud_state w) = (inr v, s') →
  invoke ec2 c w = (Return v, World s' (trace w ++ [c])).
Proof. unfold invoke. intros ->. reflexivity. Qed.

Lemma invoke_inl c w e s' :
  ec2 c (cloud_state w) = (inl e, s') →
  invoke ec2 c w = (Raise (AnsibleEC2Error e), World s' (trace w ++ [c])).
Proof. unfold invoke. intros ->. reflexivity. Qed.

Lemma spec_invoke c (Q : outcome (reply c) → list call → Prop) :
  (∀ e, Q (Raise (AnsibleEC2Error e)) [c]) → (∀ v, Q (Return v) [c]) →
  spec (invoke ec2 c) Q.
Proof.
  intros He Hv w. exists [c]. unfold invoke.
  destruct (ec2 c (cloud_state w)) as [[e|v] s']; simpl; auto.
Qed.

Lemma ok_invoke P E c : P c → ok P E (fun _ => True) (invoke ec2 c).
Proof.
  intros HP. apply spec_invoke; intros; (split; [by repeat constructor|done]).
Qed.

Lemma find_address_no_query module public_ip device_id is_instance w :
  find_address_kwargs public_ip device_id is_instance = None →
  find_address ec2 module public_ip device_id is_instance w = (Return None, w).
Proof. unfold find_address. intros ->. reflexivity. Qed.

Lemma find_address_answered module public_ip device_id is_instance w
    kwargs addresses s' :
  find_address_kwargs public_ip device_id is_instance = Some kwargs →
  ec2 (DescribeAddresses kwargs) (cloud_state w) = (inr addresses, s') →
  find_address ec2 module public_ip device_id is_instance w =
    (located module kwargs addresses,
     World s' (trace w ++ [DescribeAddresses kwargs])).
Proof.
  unfold find_address. intros -> Hq.
  unfold bind, try_except, describe_addresses.
  rewrite (invoke_inr _ _ _ _ Hq).
  destruct addresses as [|a [|b rest]]; simpl.
  - case_bool_decide; reflexivity.
  - reflexivity.
  - reflexivity.
Qed.

Lemma find_address_error module public_ip device_id is_instance w kwargs e s' :
  find_address_kwargs public_ip device_id is_instance = Some kwargs →
  ec2 (DescribeAddresses kwargs) (cloud_state w) = (inl e, s') →
  find_address ec2 module public_ip device_id is_instance w =
    (FailJson (fail_json_aws e
       "Couldn't obtain list of existing Elastic IP addresses"),
     World s' (trace w ++ [DescribeAddresses kwargs])).
Proof.
  unfold find_address. intros -> Hq.
  unfold bind, try_except, describe_addresses.
  rewrite (invoke_inl _ _ _ _ Hq). reflexivity.
Qed.

(** [find_address] issues at most its one query; it exits only with the
    no-change payload, and only when the desired state is [absent]. *)
Lemma find_address_spec module public_ip device_id is_instance :
  spec (find_address ec2 module public_ip device_id is_instance)
    (fun o l =>
       (l = [] ∨ ∃ kwargs,
          find_address_kwargs public_ip device_id is_instance = Some kwargs ∧
          l = [DescribeAddresses kwargs]) ∧
       outcome_ok
         (fun r => param_state module = absent ∧
                   r = Result false None None (Some false) (Some false))
         (fun _ => True) o).
Proof.
  intros w.
  destruct (find_address_kwargs public_ip device_id is_instance)
    as [kwargs|] eqn:Hk.
  - exists [DescribeAddresses kwargs].
    destruct (ec2 (DescribeAddresses kwargs) (cloud_state w))
      as [[e|addresses] s'] eqn:Hq.
    + rewrite (find_address_error _ _ _ _ _ _ _ _ Hk Hq). simpl.
      split; [done|]. split; [eauto|done].
    + rewrite (find_address_answered _ _ _ _ _ _ _ _ Hk Hq). simpl.
      split; [done|]. split; [eauto|].
      destruct addresses as [|a [|b rest]]; simpl; [|done..].
      case_bool_decide; simpl; auto.
  - exists []. rewrite (find_address_no_query _ _ _ _ _ Hk), app_nil_r.
    simpl. auto.
Qed.

(** C7. Whenever the locator's query comes back empty while the desired
    state is [absent], [find_address] ends the invocation with
    [exit_json(changed=False, disassociated=False, released=False)]: the
    exit is not an error, only the query has been issued, and whatever the
    caller would have done next, inside a [try] block or not, is skipped. *)
Theorem find_address_already_absent module public_ip device_id is_instance
    w kwargs s' :
  param_state module = absent →
  find_address_kwargs public_ip device_id is_instance = Some kwargs →
  ec2 (DescribeAddresses kwargs) (cloud_state w) = (inr [], s') →
  let no_change := Result false None None (Some false) (Some false) in
  let w' := World s' (trace w ++ [DescribeAddresses kwargs]) in
  find_address ec2 module public_ip device_id is_instance w
    = (ExitJson no_change, w') ∧
  ∀ B (k : option pydict → M cloud B) (h : ec2_error → M cloud B),
    try_except
      (bind (find_address ec2 module public_ip device_id is_instance) k) h w
    = (ExitJson no_change, w').
Proof.
  intros Hstate Hk Hq no_change w'.
  assert (Hfind : find_address ec2 module public_ip device_id is_instance w
                  = (ExitJson no_change, w')).
  { rewrite (find_address_answered _ _ _ _ _ _ _ _ Hk Hq). simpl.
    rewrite bool_decide_eq_true_2 by done. reflexivity. }
  split; [exact Hfind|].
  intros B k h. apply try_except_ExitJson, bind_ExitJson, Hfind.
Qed.

(** C6. Whenever the locator's query (by public IP or by device filter)
    returns more than one address, [find_address] fails the invocation with
    a message that carries the query and the addresses found.  It returns
    none of the matches; the query is the last call made, and the caller's
    continuation is never entered. *)
Theorem find_address_ambiguous module public_ip device_id is_instance
    w kwargs addresses s' :
  find_address_kwargs public_ip device_id is_instance = Some kwargs →
  ec2 (DescribeAddresses kwargs) (cloud_state w) = (inr addresses, s') →
  1 < length addresses →
  let failure := FailJson (fail_json_more_than_one kwargs addresses) in
  let w' := World s' (trace w ++ [DescribeAddresses kwargs]) in
  find_address ec2 module public_ip device_id is_instance w = (failure, w') ∧
  ∀ B (k : option pydict → M cloud B) (h : ec2_error → M cloud B),
    try_except
      (bind (find_address ec2 module public_ip device_id is_instance) k) h w
    = (FailJson (fail_json_more_than_one kwargs addresses), w').
Proof.
  intros Hk Hq Hlen failure w'.
  assert (Hfind : find_address ec2 module public_ip device_id is_instance w
                  = (failure, w')).
  { rewrite (find_address_answered _ _ _ _ _ _ _ _ Hk Hq).
    destruct addresses as [|a [|b rest]]; simpl in *; [lia..|reflexivity]. }
  split; [exact Hfind|].
  intros B k h. apply try_except_FailJson, bind_FailJson, Hfind.
Qed.

End Locator.

(** ** Parameter checks *)

Section ParameterChecks.
Context {cloud : Type}.
Variable ec2 : ∀ c : call, cloud → (ec2_error + reply c) * cloud.
Implicit Types w : world cloud.

Lemma prefix_eni_not_instance d :
  String.prefix "eni-" d = true →
  truthy (Some d) = true ∧ String.prefix "i-" d = false.
Proof.
  destruct d as [|c d]; [discriminate|]. cbn [String.prefix].
  destruct (Ascii.ascii_dec "e"%char c) as [<-|]; [|discriminate].
  intros _. split; [reflexivity|].
  destruct (Ascii.ascii_dec "i"%char "e"%char); [discriminate|reflexivity].
Qed.

Lemma check_is_instance_eni d :
  String.prefix "eni-" d = true →
  check_is_instance (Some d) false =
    inl (EipError "If you are specifying an ENI, in_vpc must be true").
Proof.
  intros Hd. destruct (prefix_eni_not_instance d Hd) as [Ht Hi].
  unfold check_is_instance. rewrite Ht. simpl negb. cbv iota.
  unfold the_str. simpl default. rewrite Hi, Hd. reflexivity.
Qed.

(** C8. An invocation whose [device_id] starts with [eni-] while [in_vpc]
    is false fails with the message of [EipError]; the world is left as it
    was: no call has been added to the trace and the cloud is untouched. *)
Theorem eni_requires_vpc module w d :
  param_device_id module = Some d →
  String.prefix "eni-" d = true →
  param_in_vpc module = false →
  main ec2 module w =
    (FailJson (fail_json "If you are specifying an ENI, in_vpc must be true"), w).
Proof.
  intros Hdev Hd Hvpc. unfold main. rewrite Hdev, Hvpc.
  rewrite (check_is_instance_eni d Hd). reflexivity.
Qed.

End ParameterChecks.

(** ** The allocator *)

Section Allocator.
Context {cloud : Type}.
Variable ec2 : ∀ c : call, cloud → (ec2_error + reply c) * cloud.
Implicit Types w : world cloud.

Lemma list_comprehension_total (l : list pydict) w :
  Forall (fun a => is_Some (a !! "InstanceId")) l →
  list_comprehension instance_id_is_empty l w =
    (Return (List.filter (fun a => negb (truthy (a !! "InstanceId"))) l), w).
Proof.
  induction 1 as [|a l [v Hv] _ IH]; [reflexivity|].
  cbn [list_comprehension]. unfold bind at 1.
  unfold instance_id_is_empty at 1, getitem, bind at 1. rewrite Hv.
  cbn [ret]. unfold bind at 1. rewrite IH. cbn [ret List.filter].
  rewrite Hv. reflexivity.
Qed.

Lemma unassociated_not_vpc domain :
  String.eqb domain "vpc" = false →
  unassociated domain = fun a => negb (truthy (a !! "InstanceId")).
Proof. unfold unassociated. intros ->. reflexivity. Qed.

Lemma unassociated_vpc :
  unassociated "vpc" = fun a => negb (truthy (a !! "AssociationId")).
Proof. reflexivity. Qed.

Lemma list_comprehension_key_error (l : list pydict) w :
  Exists (fun a => a !! "InstanceId" = None) l →
  list_comprehension instance_id_is_empty l w = (Raise (KeyError "InstanceId"), w).
Proof.
  induction l as [|a l IH]; intros Hex; [by apply Exists_nil in Hex|].
  cbn [list_comprehension]. unfold bind at 1.
  unfold instance_id_is_empty at 1, getitem, bind at 1.
  destruct (a !! "InstanceId") as [v|] eqn:Hv.
  - cbn [ret raise]. unfold bind at 1. rewrite IH; [reflexivity|].
    apply Exists_cons in Hex as [Hex|Hex]; [congruence|done].
  - reflexivity.
Qed.

(** Once the listing of the reuse scan is known, the allocator filters it
    and either returns its first element or goes on as it does when reuse is
    not allowed. *)
Lemma allocate_address_scan module domain check_mode tags search_tags
    public_ipv4_pool w all_addresses s' :
  ec2 (DescribeAddresses (reuse_kwargs domain search_tags)) (cloud_state w)
    = (inr all_addresses, s') →
  allocate_address ec2 module domain true check_mode tags search_tags
    public_ipv4_pool w =
  bind
    (if String.eqb (allocator_domain domain) "vpc" then
       ret (List.filter (fun a => negb (truthy (a !! "AssociationId")))
              all_addresses)
     else list_comprehension instance_id_is_empty all_addresses)
    (fun unassociated_addresses =>
       match unassociated_addresses with
       | a :: _ => ret (Some a, false)
       | [] => allocate_address ec2 module domain false check_mode tags
                 search_tags public_ipv4_pool
       end)
    (World s' (trace w ++ [DescribeAddresses (reuse_kwargs domain search_tags)])).
Proof.
  intros Hq. pose proof (invoke_inr ec2 _ _ _ _ Hq) as Hi.
  unfold reuse_kwargs, allocator_domain in Hi |- *.
  unfold allocate_address, describe_addresses. cbv zeta.
  rewrite bind_assoc.
  erewrite bind_Return; [|apply try_except_Return, Hi].
  rewrite bind_assoc. apply bind_ext.
  intros [|a rest] w'; reflexivity.
Qed.

Lemma filter_first {A} (p : A → bool) (before : list A) a after :
  Forall (fun b => p b = false) before → p a = true →
  List.filter p (before ++ a :: after) = a :: List.filter p after.
Proof.
  induction 1 as [|b before Hb _ IH]; intros Ha; simpl.
  - rewrite Ha. reflexivity.
  - rewrite Hb. auto.
Qed.

Lemma filter_none {A} (p : A → bool) (l : list A) :
  Forall (fun b => p b = false) l → List.filter p l = [].
Proof. induction 1 as [|b l Hb _ IH]; simpl; [|rewrite Hb]; auto. Qed.

(** When reuse is not allowed the allocator raises nothing: cloud errors
    are turned into [fail_json_aws]. *)
Lemma allocate_address_fresh_no_raise module domain check_mode tags
    search_tags public_ipv4_pool w e :
  (allocate_address ec2 module domain false check_mode tags search_tags
     public_ipv4_pool w).1 ≠ Raise e.
Proof.
  unfold allocate_address, allocate_address_from_pool, allocate_ip_address,
    bind, try_except, invoke, ret, fail.
  cbv zeta.
  repeat match goal with
         | |- context [ec2 ?c ?s] => destruct (ec2 c s) as [[?|?] ?]
         | |- context [if ?b then _ else _] => destruct b
         end; simpl; congruence.
Qed.

(** The scan of a listing whose addresses all answer the lookup that the
    domain needs. *)
Lemma allocate_address_scan_total module domain check_mode tags search_tags
    public_ipv4_pool w all_addresses s' :
  ec2 (DescribeAddresses (reuse_kwargs domain search_tags)) (cloud_state w)
    = (inr all_addresses, s') →
  String.eqb (allocator_domain domain) "vpc" = true ∨
    Forall (fun a => is_Some (a !! "InstanceId")) all_addresses →
  allocate_address ec2 module domain true check_mode tags search_tags
    public_ipv4_pool w =
  match List.filter (unassociated (allocator_domain domain)) all_addresses with
  | a :: _ =>
      (Return (Some a, false),
       World s' (trace w ++ [DescribeAddresses (reuse_kwargs domain search_tags)]))
  | [] =>
      allocate_address ec2 module domain false check_mode tags search_tags
        public_ipv4_pool
        (World s' (trace w ++ [DescribeAddresses (reuse_kwargs domain search_tags)]))
  end.
Proof.
  intros Hq Hfields. rewrite (allocate_address_scan _ _ _ _ _ _ _ _ _ Hq).
  unfold unassociated.
  destruct (String.eqb (allocator_domain domain) "vpc") eqn:Hd.
  - unfold bind at 1, ret at 1.
    destruct (List.filter _ all_addresses); reflexivity.
  - destruct Hfields as [|Hfields]; [discriminate|].
    unfold bind at 1. rewrite (list_comprehension_total _ _ Hfields).
    destruct (List.filter _ all_addresses); reflexivity.
Qed.

(** C3 (as amended). With reuse allowed and the listing of the domain (and
    tag filter) answered, provided that in a domain other than vpc every
    listed address carries an [InstanceId] field: the first address of the
    listing, in the order of the reply, that is unassociated is returned
    with [changed = False] and nothing but the listing has been called; and
    when no listed address is unassociated the allocator goes on exactly as
    it does when reuse is not allowed (pool allocation or fresh
    allocation). *)
Theorem reuse_returns_first_unassociated module domain check_mode tags
    search_tags public_ipv4_pool w all_addresses s' :
  ec2 (DescribeAddresses (reuse_kwargs domain search_tags)) (cloud_state w)
    = (inr all_addresses, s') →
  String.eqb (allocator_domain domain) "vpc" = true ∨
    Forall (fun a => is_Some (a !! "InstanceId")) all_addresses →
  let free := unassociated (allocator_domain domain) in
  let w' :=
    World s' (trace w ++ [DescribeAddresses (reuse_kwargs domain search_tags)]) in
  (∀ before a after,
     all_addresses = (before ++ a :: after)%list →
     Forall (fun b => free b = false) before → free a = true →
     allocate_address ec2 module domain true check_mode tags search_tags
       public_ipv4_pool w = (Return (Some a, false), w')) ∧
  (Forall (fun b => free b = false) all_addresses →
     allocate_address ec2 module domain true check_mode tags search_tags
       public_ipv4_pool w =
     allocate_address ec2 module domain false check_mode tags search_tags
       public_ipv4_pool w').
Proof.
  intros Hq Hfields free w'.
  pose proof (allocate_address_scan_total module domain check_mode tags
                search_tags public_ipv4_pool w all_addresses s' Hq Hfields) as Hscan.
  subst free. split.
  - intros before a after -> Hbefore Ha.
    rewrite Hscan, (filter_first _ _ _ _ Hbefore Ha). reflexivity.
  - intros Hnone. rewrite Hscan, (filter_none _ _ Hnone). reflexivity.
Qed.

(** C9. In a domain other than vpc the reuse scan reads [a["InstanceId"]]
    of the listed addresses without a guard: if some listed address lacks
    the field, [allocate_address] raises [KeyError('InstanceId')], which
    nothing catches, after the listing and before any allocation; if every
    listed address carries the field, [allocate_address] raises nothing. *)
Theorem reuse_scan_requires_instance_id module domain check_mode tags
    search_tags public_ipv4_pool w all_addresses s' :
  String.eqb (allocator_domain domain) "vpc" = false →
  ec2 (DescribeAddresses (reuse_kwargs domain search_tags)) (cloud_state w)
    = (inr all_addresses, s') →
  let w' :=
    World s' (trace w ++ [DescribeAddresses (reuse_kwargs domain search_tags)]) in
  (Exists (fun a => a !! "InstanceId" = None) all_addresses →
     allocate_address ec2 module domain true check_mode tags search_tags
       public_ipv4_pool w = (Raise (KeyError "InstanceId"), w')) ∧
  (Forall (fun a => is_Some (a !! "InstanceId")) all_addresses →
     ∀ e, (allocate_address ec2 module domain true check_mode tags search_tags
             public_ipv4_pool w).1 ≠ Raise e).
Proof.
  intros Hd Hq w'. split.
  - intros Hmissing. rewrite (allocate_address_scan _ _ _ _ _ _ _ _ _ Hq), Hd.
    apply bind_Raise, list_comprehension_key_error, Hmissing.
  - intros Hfields e.
    rewrite (allocate_address_scan_total _ _ _ _ _ _ _ _ _ Hq (or_intror Hfields)).
    destruct (List.filter _ all_addresses); [|discriminate].
    apply allocate_address_fresh_no_raise.
Qed.

End Allocator.

(** ** Which calls an invocation can make, and how it can exit *)

Ltac ok_step :=
  lazymatch goal with
  | |- ok _ _ _ (bind _ _) =>
      eapply (ok_bind _ _ (fun _ => True)); [|intros]
  | |- ok _ _ _ (try_except _ _) => apply ok_try_except; [|intros]
  | |- ok _ _ _ (ret _) => apply ok_ret
  | |- ok _ _ _ (raise _) => apply ok_raise
  | |- ok _ _ _ (fail _) => apply ok_fail
  | |- ok _ _ _ (if ?b then _ else _) => destruct b eqn:?
  | |- ok _ _ _ (match ?x with _ => _ end) => destruct x eqn:?
  end.

Tactic Notation "ok_bind" "as" ident(x) :=
  eapply (ok_bind _ _ (fun _ => True)); [|intros x _].

Ltac ok_invoke :=
  lazymatch goal with
  | |- ok ?P ?E _ (invoke ?ec2 ?c) => apply (ok_invoke ec2 P E c); auto
  end.

Ltac ok_call :=
  apply ok_try_except; [ok_invoke|intros; apply ok_fail].

Section Footprint.
Context {cloud : Type}.
Variable ec2 : ∀ c : call, cloud → (ec2_error + reply c) * cloud.
Variable module : AnsibleAWSModule.
Variable P : call → Prop.
Variable E : result → Prop.

Hypothesis P_describe_addresses : ∀ kwargs, P (DescribeAddresses kwargs).
Hypothesis P_describe_instances : ∀ ids, P (DescribeInstances ids).
Hypothesis P_describe_network_interfaces :
  ∀ ids, P (DescribeNetworkInterfaces ids).
Hypothesis E_already_absent :
  param_state module = absent →
  E (Result false None None (Some false) (Some false)).

Lemma ok_top {A} (m : M cloud A) (R : A → Prop) :
  ok P E R m → ok P E (fun _ => True) m.
Proof. intros H. eapply ok_mono; eauto. Qed.

Lemma find_address_ok public_ip device_id is_instance :
  ok P E (fun _ => True)
    (find_address ec2 module public_ip device_id is_instance).
Proof.
  eapply spec_mono; [apply find_address_spec|]. simpl.
  intros o l [Hl Ho]. split.
  - destruct Hl as [->|(kwargs & _ & ->)]; repeat constructor; auto.
  - destruct o; simpl in *; auto. destruct Ho as [? ->]. auto.
Qed.

Lemma address_is_associated_with_device_ok address device_id is_instance :
  ok P E (fun _ => True)
    (address_is_associated_with_device ec2 module address device_id is_instance).
Proof.
  unfold address_is_associated_with_device.
  ok_step; [apply find_address_ok|]. repeat ok_step; done.
Qed.

Lemma associate_ip_and_device_ok address private_ip_address device_id
    allow_reassociation is_instance :
  (check_mode module = false → ∀ params, P (AssociateAddress params)) →
  ok P E (fun _ => True)
    (associate_ip_and_device ec2 module address private_ip_address device_id
       allow_reassociation is_instance).
Proof.
  intros HP. unfold associate_ip_and_device, associate_address. cbv zeta.
  ok_step; [apply address_is_associated_with_device_ok|].
  ok_step; [by ok_step|].
  ok_step; [|by ok_step].
  destruct (check_mode module) eqn:Hcm; cbn [negb]; [by ok_step|].
  ok_step; [|repeat ok_step; done].
  destruct is_instance; ok_call.
Qed.

Lemma disassociate_ip_and_device_ok address device_id is_instance :
  (check_mode module = false → ∀ kw, P (DisassociateAddress kw)) →
  ok P E (fun _ => True)
    (disassociate_ip_and_device ec2 module address device_id is_instance).
Proof.
  intros HP. unfold disassociate_ip_and_device, disassociate_address.
  ok_step; [apply address_is_associated_with_device_ok|].
  ok_step; [by ok_step|].
  ok_step; [|by ok_step].
  destruct (check_mode module) eqn:Hcm; cbn [negb]; [by ok_step|].
  ok_step; [|by ok_step].
  ok_step; (ok_step; [first [ok_invoke|ok_step]|by ok_step]).
Qed.

Lemma allocate_address_from_pool_ok domain cm public_ipv4_pool tags :
  (cm = false → ∀ params, P (AllocateAddress params)) →
  ok P E (fun _ => True)
    (allocate_address_from_pool ec2 module domain cm public_ipv4_pool tags).
Proof.
  intros HP. unfold allocate_address_from_pool, allocate_ip_address.
  destruct cm; [by ok_step|]. cbv zeta.
  ok_step; [ok_call|by ok_step].
Qed.

Lemma list_comprehension_ok {A} (cond : A → M cloud bool) l :
  (∀ a, ok P E (fun _ => True) (cond a)) →
  ok P E (fun _ => True) (list_comprehension cond l).
Proof.
  intros Hcond. induction l as [|a l IH]; simpl; [by ok_step|].
  ok_step; [apply Hcond|]. ok_step; [apply IH|by ok_step].
Qed.

Lemma getitem_ok d key : ok (cloud := cloud) P E (fun _ => True) (getitem d key).
Proof. unfold getitem. repeat ok_step; done. Qed.

Lemma getitem_opt_ok d key :
  ok (cloud := cloud) P E (fun _ => True) (getitem_opt d key).
Proof. unfold getitem_opt. ok_step; [apply getitem_ok|by ok_step]. Qed.

Lemma allocate_address_ok domain reuse cm tags search_tags public_ipv4_pool :
  (cm = false → ∀ params, P (AllocateAddress params)) →
  ok P E (fun _ => True)
    (allocate_address ec2 module domain reuse cm tags search_tags
       public_ipv4_pool).
Proof.
  intros HP. unfold allocate_address, describe_addresses, allocate_ip_address.
  cbv zeta.
  ok_step.
  { destruct reuse; [|by ok_step].
    ok_step; [ok_call|].
    ok_step; [|repeat ok_step; done].
    ok_step; [by ok_step|].
    apply list_comprehension_ok. intros a'. unfold instance_id_is_empty.
    ok_step; [apply getitem_ok|by ok_step]. }
  ok_step; [by ok_step|].
  ok_step.
  - ok_step; [by apply allocate_address_from_pool_ok|by ok_step].
  - ok_step; [|by ok_step].
    destruct cm; cbn [negb].
    + apply ok_try_except; [by ok_step|intros; ok_step].
    + apply ok_try_except; [|intros; ok_step].
      ok_step; [ok_invoke|by ok_step].
Qed.

Lemma release_ip_address_ok address :
  (check_mode module = false → ∀ id, P (ReleaseAddress id)) →
  ok P E (fun _ => True) (release_ip_address ec2 module address).
Proof.
  intros HP. unfold release_ip_address, release_address.
  destruct (check_mode module); cbn [negb]; [by ok_step|].
  apply ok_try_except; [|intros; ok_step].
  ok_step; [apply getitem_opt_ok|]. ok_invoke.
Qed.

Lemma find_device_ok device_id is_instance :
  ok P E (fun _ => True) (find_device ec2 module device_id is_instance).
Proof.
  unfold find_device, describe_instances, describe_network_interfaces.
  destruct is_instance.
  - ok_step; [ok_call|]. repeat ok_step; done.
  - ok_step; [ok_call|]. repeat ok_step; done.
Qed.

Lemma ensure_present_ok domain address private_ip_address device_id reuse
    allow_reassociation cm tags is_instance :
  (cm = false → ∀ params, P (AllocateAddress params)) →
  (check_mode module = false → ∀ params, P (AssociateAddress params)) →
  ok P E present_result
    (ensure_present ec2 module domain address private_ip_address device_id
       reuse allow_reassociation cm tags is_instance).
Proof.
  intros HPal HPas. unfold ensure_present. cbv zeta.
  eapply (ok_bind _ _ (fun x => match x with
                                | inl r => r = only_changed true
                                | inr _ => True
                                end)); [|intros allocated Hallocated].
  { ok_step; [|by ok_step].
    destruct cm; [by ok_step|].
    ok_step; [by apply allocate_address_ok|by ok_step]. }
  destruct allocated as [early|[address' changed']];
    [ok_step; by left|].
  ok_step.
  { ok_step; [|by ok_step].
    ok_step.
    - ok_step; [apply find_device_ok|].
      ok_step.
      {     ok_step; [|by ok_step].
        ok_step; [apply getitem_opt_ok|]. repeat ok_step; done. }
      ok_step; [by apply associate_ip_and_device_ok|by ok_step].
    - ok_step; [apply find_device_ok|].
      ok_step; [by apply associate_ip_and_device_ok|by ok_step]. }
  ok_step; [apply getitem_opt_ok|].
  ok_step; [apply getitem_opt_ok|].
  ok_step. right. eauto.
Qed.

Lemma ensure_absent_ok address device_id is_instance :
  (check_mode module = false → truthy device_id = true →
   ∀ kw, P (DisassociateAddress kw)) →
  (check_mode module = false → truthy device_id = false →
   ∀ id, P (ReleaseAddress id)) →
  ok P E (fun _ => True) (ensure_absent ec2 module address device_id is_instance).
Proof.
  intros HPd HPr. unfold ensure_absent.
  ok_step; [by ok_step|].
  destruct (truthy device_id) eqn:Hdev.
  - destruct is_instance; apply disassociate_ip_and_device_ok; auto.
  - apply release_ip_address_ok; auto.
Qed.

Lemma generate_tag_dict_ok tag_name tag_value :
  ok (cloud := cloud) P E (fun _ => True)
    (generate_tag_dict module tag_name tag_value).
Proof. unfold generate_tag_dict. cbv zeta. repeat ok_step; done. Qed.

End Footprint.

Section MainFootprint.
Context {cloud : Type}.
Variable ec2 : ∀ c : call, cloud → (ec2_error + reply c) * cloud.
Variable module : AnsibleAWSModule.
Variable P : call → Prop.

Hypothesis P_describe_addresses : ∀ kwargs, P (DescribeAddresses kwargs).
Hypothesis P_describe_instances : ∀ ids, P (DescribeInstances ids).
Hypothesis P_describe_network_interfaces :
  ∀ ids, P (DescribeNetworkInterfaces ids).
Hypothesis P_ensure_ec2_tags :
  param_state module = present → ∀ args, P (EnsureEc2Tags args).
Hypothesis P_allocate :
  check_mode module = false → param_state module = present →
  ∀ params, P (AllocateAddress params).
Hypothesis P_associate :
  check_mode module = false → param_state module = present →
  truthy (param_device_id module) = true →
  ∀ params, P (AssociateAddress params).
Hypothesis P_disassociate :
  check_mode module = false → param_state module = absent →
  truthy (param_device_id module) = true →
  ∀ kw, P (DisassociateAddress kw).
Hypothesis P_release :
  check_mode module = false → param_state module = absent →
  (truthy (param_device_id module) = true →
   param_release_on_disassociation module = true) →
  ∀ id, P (ReleaseAddress id).

(** Every call of an invocation is one that its parameters allow, and every
    exit payload has one of the shapes of [main_exit]. *)
Lemma main_ok : ok P (main_exit module) (fun _ => False) (main ec2 module).
Proof.
  unfold main, main_try_block. cbv zeta.
  ok_step.
  { destruct (check_is_instance _ _) as [[]|]; ok_step; done. }
  ok_step; [apply generate_tag_dict_ok|].
  eapply (ok_bind _ _ (main_exit module));
    [|intros result Hresult; by apply ok_exit_json].
  apply ok_try_except; [|intros; ok_step].
  ok_bind as address.
  { destruct (truthy (param_device_id module));
      apply find_address_ok; auto using exit_already_absent. }
  destruct (param_state module) eqn:Hstate.
  - rewrite bool_decide_eq_true_2 by done.
    eapply (ok_bind _ _ (fun r => ∃ c ip alloc,
                           r = Result c (Some ip) (Some alloc) None None)).
    + destruct (truthy (param_device_id module)) eqn:Hdev.
      * eapply (ok_bind _ _ present_result).
        { apply ensure_present_ok; auto using exit_already_absent. }
        intros r [->|(c & ip & alloc & ->)].
        -- rewrite bool_decide_eq_true_2 by done.
           apply ok_exit_json. by constructor.
        -- rewrite bool_decide_eq_false_2 by done. apply ok_ret. eauto.
      * ok_step.
        -- ok_step; [by apply getitem_opt_ok|].
           ok_step; [by apply getitem_opt_ok|]. apply ok_ret. eauto.
        -- ok_bind as allocated;
             [apply allocate_address_ok; auto using exit_already_absent|].
           destruct allocated as [address' changed'].
           ok_step.
           ++ ok_step; [by apply getitem_opt_ok|].
              ok_step; [by apply getitem_opt_ok|]. apply ok_ret. eauto.
           ++ apply ok_exit_json. by constructor.
    + intros r (c & ip & alloc & ->).
      ok_step; [unfold ensure_ec2_tags; ok_invoke|].
      apply ok_ret. by constructor.
  - rewrite bool_decide_eq_false_2 by done.
    destruct (truthy (param_device_id module)) eqn:Hdev.
    + ok_bind as disassociated;
        [apply ensure_absent_ok; auto using exit_already_absent; congruence|].
      destruct (param_release_on_disassociation module) eqn:Hrel; cbn [andb].
      * destruct disassociated.
        -- ok_bind as changed'.
           { apply release_ip_address_ok; auto using exit_already_absent. }
           apply ok_ret. by constructor.
        -- apply ok_ret. by constructor.
      * apply ok_ret. by constructor.
    + ok_bind as changed'.
      { apply release_ip_address_ok; auto using exit_already_absent.
        intros Hcm. apply P_release; auto; congruence. }
      apply ok_ret. by constructor.
Qed.

End MainFootprint.

(** ** Release gating *)

Ltac spec_invoke :=
  lazymatch goal with
  | |- spec (invoke ?ec2 ?c) ?Q => apply (spec_invoke ec2 c Q)
  end.

Section ReleaseGating.
Context {cloud : Type}.
Variable ec2 : ∀ c : call, cloud → (ec2_error + reply c) * cloud.
Variable module : AnsibleAWSModule.

Lemma is_describe_DescribeAddresses kwargs : is_describe (DescribeAddresses kwargs).
Proof. by exists kwargs. Qed.

(** The association check only queries. *)
Lemma address_is_associated_with_device_describes address device_id is_instance :
  spec (address_is_associated_with_device ec2 module address device_id is_instance)
    (fun _ l => Forall is_describe l).
Proof.
  eapply spec_mono.
  - apply (address_is_associated_with_device_ok ec2 module is_describe
             (fun _ => True)); [apply is_describe_DescribeAddresses|done].
  - simpl. intros o l [Hl _]. exact Hl.
Qed.

(** [disassociate_ip_and_device] either only queries, and then it answers
    [True] in check mode only; or, outside check mode, it queries and then
    issues one disassociate call. *)
Lemma disassociate_ip_and_device_spec address device_id is_instance :
  spec (disassociate_ip_and_device ec2 module address device_id is_instance)
    (fun o l =>
       (Forall is_describe l ∧ (o = Return true → check_mode module = true)) ∨
       (check_mode module = false ∧
        ∃ ds kw, l = (ds ++ [DisassociateAddress kw])%list ∧
                 Forall is_describe ds)).
Proof.
  unfold disassociate_ip_and_device.
  eapply spec_bind;
    [apply address_is_associated_with_device_describes|..]; simpl;
    try (intros; left; split; [done|discriminate]).
  intros associated l1 Hl1.
  destruct associated; cbn [negb].
  2:{ apply spec_ret. rewrite app_nil_r. left. split; [done|discriminate]. }
  destruct (check_mode module) eqn:Hcm; cbn [negb].
  { eapply (spec_bind _ _ (fun o l => l = [] ∧ o = Return tt));
      [by apply spec_ret|..]; simpl; try (by intros ? ? [_ ?]).
    intros _ l2 [-> _]. apply spec_ret. rewrite !app_nil_r. left. done. }
  unfold disassociate_address. case_bool_decide.
  2:{ intros w. exists []. unfold bind, try_except, raise. simpl.
      rewrite !app_nil_r. split; [done|]. left. split; [done|discriminate]. }
  set (kw := association_id (or_empty address !! "AssociationId")).
  eapply (spec_bind _ _ (fun _ l => l = [DisassociateAddress kw])).
  - eapply spec_try_except.
    + instantiate (1 := fun _ l => l = [DisassociateAddress kw]).
      eapply (spec_bind _ _ (fun _ l => l = [DisassociateAddress _]));
        [spec_invoke; reflexivity|..]; simpl;
        [intros _ l ->; apply spec_ret; by rewrite app_nil_r|done..].
    + simpl. intros e l ->. apply spec_fail. by rewrite app_nil_r.
    + simpl. auto.
  - simpl. intros _ l2 ->. apply spec_ret. rewrite app_nil_r.
    right. split; [done|]. eauto.
  - simpl. intros e l ->. right. split; [done|]. eauto.
  - simpl. intros r l ->. right. split; [done|]. eauto.
  - simpl. intros f l ->. right. split; [done|]. eauto.
Qed.

(** [release_ip_address] issues at most one call, a release, and only
    outside check mode. *)
Lemma release_ip_address_spec address :
  spec (release_ip_address ec2 module address)
    (fun _ l => no_device_tail module l).
Proof.
  unfold release_ip_address.
  destruct (check_mode module) eqn:Hcm; cbn [negb].
  { apply spec_ret. constructor. }
  eapply spec_try_except.
  - instantiate (1 := fun _ l => no_device_tail module l).
    eapply (spec_bind _ _ (fun _ l => l = [])).
    + unfold getitem_opt, getitem.
      destruct address as [d|]; [destruct (d !! "AllocationId")|];
        (apply spec_ret || apply spec_raise); reflexivity.
    + simpl. intros id l ->. unfold release_address.
      spec_invoke; intros; by constructor.
    + simpl. intros e l ->. constructor.
    + simpl. intros r l ->. constructor.
    + simpl. intros f l ->. constructor.
  - simpl. intros e l Hl. apply spec_fail. by rewrite app_nil_r.
  - simpl. auto.
Qed.

Lemma spec_silent {A} (m : M cloud A) E R :
  ok (fun _ => False) E R m → spec m (fun _ l => l = []).
Proof.
  intros Hm. eapply spec_mono; [exact Hm|]. simpl.
  intros o [|c l] [Hl _]; [done|]. by apply Forall_cons in Hl as [[] _].
Qed.

Lemma spec_bind_silent {A B} (m : M cloud A) (k : A → M cloud B)
    (Q : outcome B → list call → Prop) :
  spec m (fun _ l => l = []) → (∀ a, spec (k a) Q) → (∀ o, Q o []) →
  spec (bind m k) Q.
Proof.
  intros Hm Hk HQ. eapply spec_bind; [exact Hm|..]; simpl.
  - intros a l ->. apply Hk.
  - intros e l ->. apply HQ.
  - intros r l ->. apply HQ.
  - intros f l ->. apply HQ.
Qed.

Lemma describes_then_nothing (tail : list call → Prop) l :
  tail [] → Forall is_describe l → describes_then tail l.
Proof. intros Ht Hl. exists l, []. by rewrite app_nil_r. Qed.

Lemma describes_then_prefix (tail : list call → Prop) l0 l :
  Forall is_describe l0 → describes_then tail l →
  describes_then tail (l0 ++ l)%list.
Proof.
  intros Hl0 (ds & t & -> & Hds & Ht). exists (l0 ++ ds)%list, t.
  rewrite app_assoc. split; [done|]. split; [by apply Forall_app|done].
Qed.

Lemma find_address_describes public_ip device_id is_instance :
  spec (find_address ec2 module public_ip device_id is_instance)
    (fun _ l => Forall is_describe l).
Proof.
  eapply spec_mono; [apply find_address_spec|]. simpl.
  intros o l [[->|(kwargs & _ & ->)] _]; repeat constructor.
  apply is_describe_DescribeAddresses.
Qed.

Lemma ensure_absent_spec address device_id is_instance :
  truthy device_id = true →
  spec (ensure_absent ec2 module address device_id is_instance)
    (disassociation module).
Proof.
  intros Hdev. unfold ensure_absent. rewrite Hdev.
  destruct (optdict_truthy address); cbn [negb].
  - destruct is_instance; apply disassociate_ip_and_device_spec.
  - apply spec_ret. left. split; [constructor|discriminate].
Qed.

Lemma disassociation_tail o l :
  disassociation module o l → describes_then (device_tail module) l.
Proof.
  intros [[Hl _]|(Hcm & ds & kw & -> & Hds)].
  - apply describes_then_nothing; [constructor|done].
  - exists ds, [DisassociateAddress kw]. split; [done|].
    split; [done|by constructor].
Qed.

Lemma disassociation_then_release l2 l3 :
  param_release_on_disassociation module = true →
  disassociation module (Return true) l2 → no_device_tail module l3 →
  describes_then (device_tail module) (l2 ++ l3)%list.
Proof.
  intros Hrel Hd Hr. destruct Hr as [|id Hcm].
  - rewrite app_nil_r. by eapply disassociation_tail.
  - destruct Hd as [[_ Hcheck]|(_ & ds & kw & -> & Hds)].
    + specialize (Hcheck eq_refl). congruence.
    + exists ds, [DisassociateAddress kw; ReleaseAddress id].
      rewrite <- app_assoc. split; [done|]. split; [done|by constructor].
Qed.

Lemma main_silent_prefix {B} (k : bool → option pydict → M cloud B)
    (Q : outcome B → list call → Prop) :
  (∀ is_instance search_tags, spec (k is_instance search_tags) Q) →
  (∀ o, Q o []) →
  spec
    (let* is_instance :=
       match check_is_instance (param_device_id module) (param_in_vpc module) with
       | inr b => ret b
       | inl (EipError msg) => fail (fail_json msg)
       | inl e => raise e
       end in
     let* search_tags :=
       generate_tag_dict module (param_tag_name module) (param_tag_value module) in
     k is_instance search_tags)
    Q.
Proof.
  intros Hk HQ. apply spec_bind_silent; [|intros is_instance|done].
  { destruct (check_is_instance _ _) as [[]|];
      (apply spec_ret || apply spec_fail || apply spec_raise); done. }
  apply spec_bind_silent; [|intros search_tags; apply Hk|done].
  apply (spec_silent _ (fun _ => True) (fun _ => True)), generate_tag_dict_ok.
Qed.

(** With a device id, an [absent] invocation queries and then, outside
    check mode, disassociates; a release comes only right after the
    disassociate call of the same invocation. *)
Lemma main_absent_device_spec :
  param_state module = absent →
  truthy (param_device_id module) = true →
  spec (main ec2 module) (fun _ l => describes_then (device_tail module) l).
Proof.
  intros Hstate Hdev. unfold main, main_try_block. cbv zeta.
  rewrite Hstate, Hdev.
  rewrite bool_decide_eq_false_2 by done.
  apply main_silent_prefix;
    [|intros; apply describes_then_nothing; constructor].
  intros is_instance search_tags.
  set (T := describes_then (device_tail module)).
  eapply (spec_bind _ _ (fun _ l => T l)); simpl; try done.
  2:{ intros r l Hl. apply spec_exit_json. by rewrite app_nil_r. }
  eapply (spec_try_except _ _ (fun _ l => T l)); simpl; try done.
  2:{ intros e l Hl. apply spec_fail. by rewrite app_nil_r. }
  eapply spec_bind; [apply find_address_describes|..]; simpl;
    try (intros; apply describes_then_nothing; [constructor|done]).
  intros address l1 Hl1.
  eapply spec_mono with (Q := fun _ l => T l);
    [|intros; by apply describes_then_prefix].
  eapply spec_bind; [by apply ensure_absent_spec|..]; simpl;
    try (intros; by eapply disassociation_tail).
  intros disassociated l2 Hl2.
  destruct (param_release_on_disassociation module) eqn:Hrel; cbn [andb].
  2:{ apply spec_ret. rewrite app_nil_r. by eapply disassociation_tail. }
  destruct disassociated.
  2:{ apply spec_ret. rewrite app_nil_r. by eapply disassociation_tail. }
  eapply spec_bind; [apply release_ip_address_spec|..]; simpl;
    try (intros; by apply disassociation_then_release).
  intros c l3 Hl3. apply spec_ret. rewrite app_nil_r.
  by apply disassociation_then_release.
Qed.

(** Without a device id, an [absent] invocation queries and then, outside
    check mode, releases what the locator returned, without looking at its
    association. *)
Lemma main_absent_no_device_spec :
  param_state module = absent →
  truthy (param_device_id module) = false →
  spec (main ec2 module) (fun _ l => describes_then (no_device_tail module) l).
Proof.
  intros Hstate Hdev. unfold main, main_try_block. cbv zeta.
  rewrite Hstate, Hdev.
  rewrite bool_decide_eq_false_2 by done.
  apply main_silent_prefix;
    [|intros; apply describes_then_nothing; constructor].
  intros is_instance search_tags.
  set (T := describes_then (no_device_tail module)).
  eapply (spec_bind _ _ (fun _ l => T l)); simpl; try done.
  2:{ intros r l Hl. apply spec_exit_json. by rewrite app_nil_r. }
  eapply (spec_try_except _ _ (fun _ l => T l)); simpl; try done.
  2:{ intros e l Hl. apply spec_fail. by rewrite app_nil_r. }
  eapply spec_bind; [apply find_address_describes|..]; simpl;
    try (intros; apply describes_then_nothing; [constructor|done]).
  intros address l1 Hl1.
  assert (Hcombine : ∀ l3, no_device_tail module l3 → T (l1 ++ l3)%list).
  { intros l3 Hl3. exists l1, l3. done. }
  eapply spec_bind; [apply release_ip_address_spec|..]; simpl; auto.
  intros c l3 Hl3. apply spec_ret. rewrite app_nil_r. auto.
Qed.

(** C1 (as amended). For every invocation, with [l] the calls it adds to
    the trace:
    - an exit payload has [released = True] only if the desired state is
      [absent] and, when a device id is given, [release_on_disassociation]
      is set and the payload has [disassociated = True];
    - with [state=present] no release call is made;
    - with [state=absent] and a device id, [l] is a run of describe queries
      followed by nothing, by one disassociate call, or by one disassociate
      call and then one release call (the last two outside check mode only,
      the release only with [release_on_disassociation]);
    - with [state=absent] and no device id, [l] is a run of describe queries
      followed by nothing or, outside check mode, by one release call: the
      address is released as located, whatever its association. *)
Theorem release_gating (w : world cloud) :
  ∃ l, trace (main ec2 module w).2 = (trace w ++ l)%list ∧
    (∀ r, (main ec2 module w).1 = ExitJson r → released r = Some true →
       param_state module = absent ∧
       (truthy (param_device_id module) = true →
        param_release_on_disassociation module = true ∧
        disassociated r = Some true)) ∧
    (param_state module = present →
       Forall (fun c => ∀ id, c ≠ ReleaseAddress id) l) ∧
    (param_state module = absent →
     truthy (param_device_id module) = true →
       describes_then (device_tail module) l) ∧
    (param_state module = absent →
     truthy (param_device_id module) = false →
       describes_then (no_device_tail module) l).
Proof.
  destruct (main_ok ec2 module
              (fun c => ∀ id, c = ReleaseAddress id →
                              param_state module = absent)) with (w := w)
    as (l & Hl & Hcalls & Hout); try done.
  exists l. split; [done|]. split; [|split; [|split]].
  - intros r Hrun Hreleased. rewrite Hrun in Hout. simpl in Hout.
    destruct Hout; simpl in *; try congruence; (split; [done|]).
    + intros _. done.
    + congruence.
  - intros Hstate. eapply Forall_impl; [exact Hcalls|]. simpl.
    intros c Hc id ->. specialize (Hc id eq_refl). congruence.
  - intros Hstate Hdev.
    destruct (main_absent_device_spec Hstate Hdev w) as (l' & Hl' & Hshape).
    rewrite Hl in Hl'. by apply app_inv_head in Hl' as <-.
  - intros Hstate Hdev.
    destruct (main_absent_no_device_spec Hstate Hdev w) as (l' & Hl' & Hshape).
    rewrite Hl in Hl'. by apply app_inv_head in Hl' as <-.
Qed.

End ReleaseGating.

(** ** Idempotence of [present] *)

Section Idempotence.
Context {cloud : Type}.
Variable ec2 : ∀ c : call, cloud → (ec2_error + reply c) * cloud.
Hypothesis Hlaw : lawful ec2.
Variable module : AnsibleAWSModule.

Lemma view_run c s : is_view c → ec2 c s = ((ec2 c s).1, s).
Proof.
  intros Hc. rewrite <- (views_are_pure ec2 Hlaw c s Hc) at 3.
  by destruct (ec2 c s).
Qed.

Lemma by_ip_is_view ip : is_view (DescribeAddresses (by_ip ip)).
Proof. by exists ip. Qed.

Lemma dict_truthy_lookup (d : pydict) k v : d !! k = Some v → dict_truthy d = true.
Proof.
  intros Hk. unfold dict_truthy. rewrite bool_decide_eq_false_2; [done|].
  intros ->. by rewrite lookup_empty in Hk.
Qed.

Lemma find_address_by_ip device_id is_instance ip s t addresses :
  str_truthy ip = true →
  (ec2 (DescribeAddresses (by_ip ip)) s).1 = inr addresses →
  find_address ec2 module (Some ip) device_id is_instance (World s t) =
    (located module (by_ip ip) addresses,
     World s (t ++ [DescribeAddresses (by_ip ip)])).
Proof.
  intros Hip Hview.
  apply find_address_answered.
  - unfold find_address_kwargs. cbn [truthy]. rewrite Hip. reflexivity.
  - cbn [cloud_state]. rewrite (view_run _ s (by_ip_is_view ip)), Hview.
    reflexivity.
Qed.

Lemma address_is_associated_with_device_by_ip a device_id is_instance ip s t a' :
  a !! "PublicIp" = Some ip → str_truthy ip = true →
  (ec2 (DescribeAddresses (by_ip ip)) s).1 = inr [a'] →
  address_is_associated_with_device ec2 module (Some a) device_id is_instance
    (World s t) =
    (Return (field_is a' (device_key is_instance) device_id),
     World s (t ++ [DescribeAddresses (by_ip ip)])).
Proof.
  intros Ha Hip Hview. unfold address_is_associated_with_device.
  assert (Ha' : a' !! "PublicIp" = Some ip).
  { by apply (by_ip_sound ec2 Hlaw) in Hview as [? _]%Forall_cons. }
  unfold or_empty at 1. rewrite (dict_truthy_lookup _ _ _ Ha), Ha.
  unfold bind at 1.
  rewrite (find_address_by_ip device_id is_instance ip s t [a'] Hip Hview).
  cbn [located optdict_truthy]. rewrite (dict_truthy_lookup _ _ _ Ha').
  unfold or_empty. rewrite (dict_truthy_lookup _ _ _ Ha').
  destruct is_instance; cbn [negb andb device_key];
    destruct (field_is a' _ device_id); reflexivity.
Qed.

(** [generate_tag_dict] does not look at the world. *)
Lemma generate_tag_dict_const tag_name tag_value :
  ∃ o, ∀ w : world cloud, generate_tag_dict module tag_name tag_value w = (o, w).
Proof.
  unfold generate_tag_dict. cbv zeta.
  repeat match goal with
         | |- context [if ?b then _ else _] => destruct b
         end; eexists; intros w; reflexivity.
Qed.

(** [find_device] depends on the cloud through its device query only. *)
Lemma find_device_stable device_id is_instance s :
  ∃ o, ∀ s2 t2, same_devices ec2 s s2 →
    ∃ t2', find_device ec2 module device_id is_instance (World s2 t2)
           = (o, World s2 t2').
Proof.
  unfold find_device, describe_instances, describe_network_interfaces.
  destruct is_instance.
  - destruct (ec2 (DescribeInstances [the_str device_id]) s).1
      as [e|reservations] eqn:Hview.
    2: destruct reservations as [|r [|]]; [|destruct (Instances r) as [|i [|]] eqn:Hr|].
    all: eexists; intros s2 t2 [Hi Hn]; eexists;
      unfold bind, try_except, invoke; cbn [cloud_state];
      rewrite (view_run (DescribeInstances _) s2 I), Hi, Hview;
      cbn [fst snd]; rewrite ?Hr; reflexivity.
  - destruct (ec2 (DescribeNetworkInterfaces [the_str device_id]) s).1
      as [e|interfaces] eqn:Hview.
    2: destruct interfaces as [|i [|]].
    all: eexists; intros s2 t2 [Hi Hn]; eexists;
      unfold bind, try_except, invoke; cbn [cloud_state];
      rewrite (view_run (DescribeNetworkInterfaces _) s2 I), Hn, Hview;
      reflexivity.
Qed.

Lemma same_devices_refl s : same_devices ec2 s s.
Proof. by split. Qed.

Lemma same_devices_trans s1 s2 s3 :
  same_devices ec2 s1 s2 → same_devices ec2 s2 s3 → same_devices ec2 s1 s3.
Proof.
  intros [Hi1 Hn1] [Hi2 Hn2]. split; intros ids.
  - by rewrite Hi2, Hi1.
  - by rewrite Hn2, Hn1.
Qed.

(** An address that the cloud shows bound to the device is left alone. *)
Lemma associate_ip_and_device_steady a a' ip private_ip_address device_id
    allow_reassociation is_instance s t :
  a !! "PublicIp" = Some ip → str_truthy ip = true →
  (ec2 (DescribeAddresses (by_ip ip)) s).1 = inr [a'] →
  field_is a' (device_key is_instance) device_id = true →
  associate_ip_and_device ec2 module (Some a) private_ip_address device_id
    allow_reassociation is_instance (World s t) =
    (Return false, World s (t ++ [DescribeAddresses (by_ip ip)])).
Proof.
  intros Ha Hip Hview Hbound. unfold associate_ip_and_device.
  unfold bind at 1.
  rewrite (address_is_associated_with_device_by_ip a device_id is_instance ip
             s t a' Ha Hip Hview), Hbound.
  reflexivity.
Qed.

Lemma field_is_refl (a : pydict) key d :
  a !! key = Some d → field_is a key (Some d) = true.
Proof. unfold field_is. intros ->. apply String.eqb_refl. Qed.

(** Outside check mode, once [associate_ip_and_device] has returned, the
    cloud shows the address bound to the device. *)
Lemma associate_ip_and_device_settles a ip private_ip_address device_id
    allow_reassociation is_instance s t c sA tA :
  check_mode module = false →
  a !! "PublicIp" = Some ip → str_truthy ip = true →
  truthy device_id = true →
  (ec2 (DescribeAddresses (by_ip ip)) s).1 = inr [a] →
  associate_ip_and_device ec2 module (Some a) private_ip_address device_id
    allow_reassociation is_instance (World s t) = (Return c, World sA tA) →
  ∃ a', (ec2 (DescribeAddresses (by_ip ip)) sA).1 = inr [a'] ∧
        field_is a' (device_key is_instance) device_id = true ∧
        a' !! "AllocationId" = a !! "AllocationId" ∧
        same_devices ec2 s sA.
Proof.
  intros Hcm Ha Hip Hdev Hview. unfold associate_ip_and_device.
  unfold bind at 1.
  rewrite (address_is_associated_with_device_by_ip a device_id is_instance ip
             s t a Ha Hip Hview).
  destruct (field_is a (device_key is_instance) device_id) eqn:Hbound.
  { intros [= <- <- <-]. exists a. auto using same_devices_refl. }
  rewrite Hcm. cbn [negb]. cbv zeta.
  destruct device_id as [d|]; [|discriminate]. cbn [of_opt].
  unfold or_empty. rewrite (dict_truthy_lookup _ _ _ Ha), Ha. cbn [of_opt].
  destruct is_instance.
  - match goal with
    | |- context [associate_address ec2 ?p] => set (params1 := p)
    end.
    unfold bind, try_except, associate_address, invoke. cbn [cloud_state].
    destruct (ec2 (AssociateAddress params1) s) as [[e|res] s'] eqn:Hcall;
      [discriminate|].
    destruct (dict_truthy res); [|discriminate]. cbn [negb ret].
    intros [= <- <- <-].
    destruct (associate_binds ec2 Hlaw params1 s res s' true d ip a Hcall)
      as (a' & Hview' & Hkey & Halloc); try done.
    + subst params1. cbn [device_key]. repeat case_match;
        by rewrite ?lookup_insert_ne, ?lookup_insert_eq by done.
    + subst params1. cbn [negb device_key]. repeat case_match;
        by rewrite ?lookup_insert_ne, ?lookup_empty by done.
    + subst params1. case_bool_decide; [left|right]; case_match; split;
        by rewrite ?lookup_insert_eq, ?lookup_insert_ne, ?lookup_empty by done.
    + exists a'. split; [done|]. split; [by apply field_is_refl|].
      split; [done|]. split; apply (associate_keeps_devices ec2 Hlaw _ _ _ _ Hcall).
  - unfold bind, try_except, associate_address, invoke. cbn [cloud_state].
    match goal with
    | |- context [ec2 (AssociateAddress ?p) s] => set (params2 := p)
    end.
    destruct (ec2 (AssociateAddress params2) s) as [[e|res] s'] eqn:Hcall;
      [discriminate|].
    destruct (dict_truthy res); [|discriminate]. cbn [negb ret].
    intros [= <- <- <-].
    destruct (associate_binds ec2 Hlaw params2 s res s' false d ip a Hcall)
      as (a' & Hview' & Hkey & Halloc); try done.
    + subst params2. cbn [device_key]. repeat case_match;
        by rewrite ?lookup_insert_ne, ?lookup_insert_eq by done.
    + subst params2. cbn [negb device_key]. repeat case_match;
        by rewrite ?lookup_insert_ne, ?lookup_empty by done.
    + subst params2. left. case_match; split;
        by rewrite ?lookup_insert_eq, ?lookup_insert_ne, ?lookup_empty by done.
    + exists a'. split; [done|]. split; [by apply field_is_refl|].
      split; [done|]. split; apply (associate_keeps_devices ec2 Hlaw _ _ _ _ Hcall).
Qed.

Lemma getitem_opt_Return (a : pydict) key v (w w1 : world cloud) :
  getitem_opt (Some a) key w = (Return v, w1) → a !! key = Some v ∧ w1 = w.
Proof.
  unfold getitem_opt, getitem. destruct (a !! key); [|discriminate].
  by intros [= -> ->].
Qed.

Lemma getitem_opt_lookup (a : pydict) key v (w : world cloud) :
  a !! key = Some v → getitem_opt (Some a) key w = (Return v, w).
Proof. unfold getitem_opt, getitem. by intros ->. Qed.

(** The check of the instance's vpc in [ensure_present] is constant. *)
Lemma vpc_check_constant (instance : option pydict) (domain : option string)
    (reuse : bool) :
  constant (cloud := cloud)
    (if reuse then
       let* vpc_id := getitem_opt instance "VpcId" in
       if str_truthy vpc_id && Nat.ltb 0 (String.length vpc_id)
          && bool_decide (domain = None)
       then fail (fail_json
         "You must set 'in_vpc' to true to associate an instance with an existing ip in a vpc")
       else ret tt
     else ret tt).
Proof.
  destruct reuse; [|apply constant_ret].
  apply constant_bind; [apply constant_getitem_opt|].
  intros v. destruct (_ && _); [apply constant_fail|apply constant_ret].
Qed.

(** Outside check mode, once [ensure_present] has returned for a located
    address and a device, the cloud shows the address bound to the device,
    and on any cloud state with the same views [ensure_present] returns the
    same identity with [changed = False]. *)
Lemma ensure_present_settles domain a ip private_ip_address device_id reuse
    allow_reassociation cm tags is_instance s t r sA tA :
  check_mode module = false →
  a !! "PublicIp" = Some ip → str_truthy ip = true →
  truthy device_id = true →
  (ec2 (DescribeAddresses (by_ip ip)) s).1 = inr [a] →
  ensure_present ec2 module domain (Some a) private_ip_address device_id
    reuse allow_reassociation cm tags is_instance (World s t)
    = (Return r, World sA tA) →
  ∃ a', (ec2 (DescribeAddresses (by_ip ip)) sA).1 = inr [a'] ∧
        same_devices ec2 s sA ∧
        (∃ c alloc, r = Result c (Some ip) (Some alloc) None None) ∧
        ∀ s2 t2, same_views ec2 ip sA s2 →
          ∃ t2', ensure_present ec2 module domain (Some a') private_ip_address
                   device_id reuse allow_reassociation cm tags is_instance
                   (World s2 t2)
                 = (Return (with_changed r false), World s2 t2').
Proof.
  intros Hcm Ha Hip Hdev Hview Hrun.
  unfold ensure_present in Hrun. cbv zeta in Hrun.
  cbn [optdict_truthy] in Hrun.
  rewrite (dict_truthy_lookup _ _ _ Ha), Hdev in Hrun. cbn [negb] in Hrun.
  rewrite bind_ret in Hrun.
  apply bind_Return_inv in Hrun as (changed' & w1 & Hassoc & Hrest).
  (* the identity of the address *)
  apply bind_Return_inv in Hrest as (ip' & w5 & Hgip & Hrest).
  apply getitem_opt_Return in Hgip as [Hip' ->].
  assert (ip' = ip) as -> by congruence.
  apply bind_Return_inv in Hrest as (alloc & w6 & Hgal & Hrest).
  apply getitem_opt_Return in Hgal as [Halloc ->].
  injection Hrest as <- ->.
  (* the device and the association *)
  destruct (find_device_stable device_id is_instance s) as [o Ho].
  destruct (Ho s t (same_devices_refl s)) as (t' & Hfd').
  destruct is_instance.
  - apply bind_Return_inv in Hassoc as (instance & w2 & Hfd & Hassoc).
    apply bind_Return_inv in Hassoc as ([] & w3 & Hchk & Hassoc).
    apply bind_Return_inv in Hassoc as (associated & [s4 t4] & Has & Hret).
    injection Hret as <- <- <-.
    rewrite Hfd in Hfd'. injection Hfd' as <- ->.
    destruct (constant_Return _ _ _ _
                (vpc_check_constant instance domain reuse) Hchk) as [-> Hchk'].
    destruct (associate_ip_and_device_settles _ _ _ _ _ _ _ _ _ _ _
                Hcm Ha Hip Hdev Hview Has)
      as (a' & Hview' & Hbound & Halloc' & Hsame).
    exists a'. split; [done|]. split; [done|]. split; [eauto|].
    intros s2 t2 [Hv Hd].
    assert (Ha' : a' !! "PublicIp" = Some ip).
    { by apply (by_ip_sound ec2 Hlaw) in Hview' as [? _]%Forall_cons. }
    destruct (Ho s2 t2 (same_devices_trans _ _ _ Hsame Hd)) as (t2a & Hfd2).
    eexists. unfold ensure_present. cbv zeta. cbn [optdict_truthy].
    rewrite (dict_truthy_lookup _ _ _ Ha'), Hdev. cbn [negb].
    rewrite bind_ret.
    erewrite bind_Return; cycle 1.
    { erewrite bind_Return; [|exact Hfd2].
      erewrite bind_Return; [|apply Hchk'].
      erewrite bind_Return; [reflexivity|].
      apply (associate_ip_and_device_steady a' a' ip);
        [done|done|by rewrite Hv|done]. }
    erewrite bind_Return; [|by apply getitem_opt_lookup].
    erewrite bind_Return;
      [|apply getitem_opt_lookup; rewrite Halloc'; exact Halloc].
    reflexivity.
  - apply bind_Return_inv in Hassoc as (instance & w2 & Hfd & Hassoc).
    apply bind_Return_inv in Hassoc as (associated & [s4 t4] & Has & Hret).
    injection Hret as <- <- <-.
    rewrite Hfd in Hfd'. injection Hfd' as <- ->.
    destruct (associate_ip_and_device_settles _ _ _ _ _ _ _ _ _ _ _
                Hcm Ha Hip Hdev Hview Has)
      as (a' & Hview' & Hbound & Halloc' & Hsame).
    exists a'. split; [done|]. split; [done|]. split; [eauto|].
    intros s2 t2 [Hv Hd].
    assert (Ha' : a' !! "PublicIp" = Some ip).
    { by apply (by_ip_sound ec2 Hlaw) in Hview' as [? _]%Forall_cons. }
    destruct (Ho s2 t2 (same_devices_trans _ _ _ Hsame Hd)) as (t2a & Hfd2).
    eexists. unfold ensure_present. cbv zeta. cbn [optdict_truthy].
    rewrite (dict_truthy_lookup _ _ _ Ha'), Hdev. cbn [negb].
    rewrite bind_ret.
    erewrite bind_Return; cycle 1.
    { erewrite bind_Return; [|exact Hfd2].
      erewrite bind_Return; [reflexivity|].
      apply (associate_ip_and_device_steady a' a' ip);
        [done|done|by rewrite Hv|done]. }
    erewrite bind_Return; [|by apply getitem_opt_lookup].
    erewrite bind_Return;
      [|apply getitem_opt_lookup; rewrite Halloc'; exact Halloc].
    reflexivity.
Qed.

Lemma ensure_ec2_tags_run resource_id resource_type tags purge_tags s t :
  ensure_ec2_tags ec2 resource_id resource_type tags purge_tags (World s t) =
  let c := EnsureEc2Tags (EnsureTagsArgs resource_id resource_type tags purge_tags) in
  (match (ec2 c s).1 with
   | inl e => Raise (AnsibleEC2Error e)
   | inr changed => Return changed
   end, World (ec2 c s).2 (t ++ [c])).
Proof.
  unfold ensure_ec2_tags, invoke. cbn [cloud_state trace].
  destruct (ec2 _ s) as [[e|changed] s']; reflexivity.
Qed.

(** The [try] block of [main], for [state=present] with a public IP that
    the locator finds, outside check mode: if it ends without a failure, it
    returns; and run again from the cloud state it left, it returns the
    same identity with [changed = False] and leaves that state as it is. *)
Lemma main_try_block_settles is_instance search_tags s0 t0 ip a o W1 :
  param_state module = present → check_mode module = false →
  param_public_ip module = Some ip → str_truthy ip = true →
  (ec2 (DescribeAddresses (by_ip ip)) s0).1 = inr [a] →
  main_try_block ec2 module is_instance search_tags (World s0 t0) = (o, W1) →
  (∀ e, o ≠ Raise e) → (∀ f, o ≠ FailJson f) →
  ∃ r s1 t1, o = Return r ∧ W1 = World s1 t1 ∧
    ∀ t, ∃ t', main_try_block ec2 module is_instance search_tags (World s1 t)
               = (Return (with_changed r false), World s1 t').
Proof.
  intros Hstate Hcm Hpublic Hip Hview Hrun Hnoraise Hnofail.
  assert (Ha : a !! "PublicIp" = Some ip).
  { by apply (by_ip_sound ec2 Hlaw) in Hview as [? _]%Forall_cons. }
  unfold main_try_block in Hrun. cbv zeta in Hrun.
  rewrite Hstate, Hpublic in Hrun.
  rewrite bool_decide_eq_true_2 in Hrun by done.
  destruct (truthy (param_device_id module)) eqn:Hdev.
  - (* with a device *)
    pose proof (find_address_by_ip (param_device_id module) is_instance ip
                  s0 t0 [a] Hip Hview) as Hfind.
    cbn [located] in Hfind.
    rewrite (bind_Return _ _ _ _ _ Hfind) in Hrun. rewrite bind_assoc in Hrun.
    match type of Hrun with
    | bind ?m _ ?w = _ => destruct (m w) as [[r|e|r|f] [sA tA]] eqn:Hep
    end.
    2:{ rewrite (bind_Raise _ _ _ _ _ Hep) in Hrun.
        injection Hrun as <- _. by destruct (Hnoraise e). }
    2:{ (* [ensure_present] does not exit when the state is [present] *)
        destruct (ensure_present_ok ec2 module (fun _ => True) (fun _ => False))
          with (w := World s0 (t0 ++ [DescribeAddresses (by_ip ip)]))
          (domain := if param_in_vpc module then Some "vpc" else None)
          (address := Some a)
          (private_ip_address := param_private_ip_address module)
          (device_id := param_device_id module)
          (reuse := param_reuse_existing_ip_allowed module)
          (allow_reassociation := param_allow_reassociation module)
          (cm := check_mode module) (tags := param_tags module)
          (is_instance := is_instance)
          as (l & _ & _ & Hout); try done; try congruence.
        rewrite Hep in Hout. done. }
    2:{ rewrite (bind_FailJson _ _ _ _ _ Hep) in Hrun.
        injection Hrun as <- _. by destruct (Hnofail f). }
    rewrite (bind_Return _ _ _ _ _ Hep) in Hrun.
    destruct (ensure_present_settles _ _ _ _ _ _ _ _ _ _ _ _ _ _ _
                Hcm Ha Hip Hdev Hview Hep)
      as (a' & Hview' & Hsame & (c & alloc & ->) & Hagain).
    cbn [allocation_id] in Hrun.
    rewrite bool_decide_eq_false_2, bind_ret in Hrun by done.
    unfold bind in Hrun. rewrite ensure_ec2_tags_run in Hrun.
    cbv zeta in Hrun. cbn [allocation_id] in Hrun.
    change (the_str (Some alloc)) with alloc in Hrun.
    destruct (ec2 (EnsureEc2Tags _) sA) as [[e|tc] s1] eqn:Htags;
      cbn [fst snd] in Hrun.
    { injection Hrun as <- _. by destruct (Hnoraise (AnsibleEC2Error e)). }
    injection Hrun as <- <-.
    eexists _, s1, _. split; [reflexivity|]. split; [reflexivity|].
    intros t.
    destruct (tags_keep_views ec2 Hlaw _ _ _ _ Htags) as (Hv & Hi & Hn).
    assert (Hview1 : (ec2 (DescribeAddresses (by_ip ip)) s1).1 = inr [a'])
      by (by rewrite Hv).
    destruct (Hagain s1 (t ++ [DescribeAddresses (by_ip ip)])%list)
      as (t2 & Hep2); [by split|].
    eexists. unfold main_try_block. cbv zeta.
    rewrite Hstate, Hpublic, Hdev.
    rewrite bool_decide_eq_true_2 by done.
    pose proof (find_address_by_ip (param_device_id module) is_instance ip
                  s1 t [a'] Hip Hview1) as Hfind1.
    cbn [located] in Hfind1.
    rewrite (bind_Return _ _ _ _ _ Hfind1), bind_assoc.
    rewrite (bind_Return _ _ _ _ _ Hep2).
    cbn [with_changed allocation_id].
    rewrite bool_decide_eq_false_2, bind_ret by done.
    unfold bind. rewrite ensure_ec2_tags_run.
    cbv zeta. cbn [allocation_id with_changed].
    change (the_str (Some alloc)) with alloc.
    rewrite (tags_settle ec2 Hlaw _ _ _ _ Htags). reflexivity.
  - (* without a device *)
    pose proof (find_address_by_ip None true ip s0 t0 [a] Hip Hview) as Hfind.
    cbn [located] in Hfind.
    rewrite (bind_Return _ _ _ _ _ Hfind) in Hrun.
    cbn [optdict_truthy] in Hrun.
    rewrite (dict_truthy_lookup _ _ _ Ha) in Hrun.
    rewrite bind_assoc in Hrun.
    rewrite (bind_Return _ _ _ _ _ (getitem_opt_lookup _ _ _ _ Ha)) in Hrun.
    rewrite bind_assoc in Hrun.
    destruct (a !! "AllocationId") as [alloc|] eqn:Halloc.
    2:{ unfold getitem_opt, getitem in Hrun. rewrite Halloc in Hrun.
        injection Hrun as <- _. by destruct (Hnoraise (KeyError "AllocationId")). }
    rewrite (bind_Return _ _ _ _ _ (getitem_opt_lookup _ _ _ _ Halloc)) in Hrun.
    rewrite bind_ret in Hrun.
    unfold bind in Hrun. rewrite ensure_ec2_tags_run in Hrun.
    cbv zeta in Hrun. cbn [allocation_id] in Hrun.
    change (the_str (Some alloc)) with alloc in Hrun.
    destruct (ec2 (EnsureEc2Tags _) s0) as [[e|tc] s1] eqn:Htags;
      cbn [fst snd] in Hrun.
    { injection Hrun as <- _. by destruct (Hnoraise (AnsibleEC2Error e)). }
    injection Hrun as <- <-.
    eexists _, s1, _. split; [reflexivity|]. split; [reflexivity|].
    intros t.
    destruct (tags_keep_views ec2 Hlaw _ _ _ _ Htags) as (Hv & Hi & Hn).
    assert (Hview1 : (ec2 (DescribeAddresses (by_ip ip)) s1).1 = inr [a])
      by (by rewrite Hv).
    eexists. unfold main_try_block. cbv zeta.
    rewrite Hstate, Hpublic, Hdev.
    rewrite bool_decide_eq_true_2 by done.
    pose proof (find_address_by_ip None true ip s1 t [a] Hip Hview1) as Hfind1.
    cbn [located] in Hfind1.
    rewrite (bind_Return _ _ _ _ _ Hfind1).
    cbn [optdict_truthy]. rewrite (dict_truthy_lookup _ _ _ Ha).
    rewrite bind_assoc.
    rewrite (bind_Return _ _ _ _ _ (getitem_opt_lookup _ _ _ _ Ha)).
    rewrite bind_assoc.
    rewrite (bind_Return _ _ _ _ _ (getitem_opt_lookup _ _ _ _ Halloc)).
    rewrite bind_ret.
    unfold bind. rewrite ensure_ec2_tags_run.
    cbv zeta. cbn [allocation_id with_changed].
    change (the_str (Some alloc)) with alloc.
    rewrite (tags_settle ec2 Hlaw _ _ _ _ Htags). reflexivity.
Qed.


End Idempotence.

(** ** The in-memory cloud is lawful *)

Section InMemoryLaws.
Import InMemory.

Lemma mem_singleton v ip : mem v [ip] = true → v = Some ip.
Proof.
  destruct v as [v|]; [|discriminate]. cbn [mem existsb].
  rewrite orb_false_r. by intros ->%String.eqb_eq.
Qed.

Lemma selected_by_ip s ip a :
  selected s (by_ip ip) a = mem (a !! "PublicIp") [ip].
Proof. unfold selected, by_ip. cbn [PublicIps Filters]. apply andb_true_r. Qed.

Lemma describe_by_ip s ip :
  ec2 (DescribeAddresses (by_ip ip)) s
  = (inr (List.filter (fun a => mem (a !! "PublicIp") [ip]) (addresses s)), s).
Proof.
  cbn [ec2]. f_equal. f_equal. apply filter_ext. intros a. apply selected_by_ip.
Qed.

Lemma bind_device_PublicIp params a :
  bind_device params a !! "PublicIp" = a !! "PublicIp".
Proof.
  unfold bind_device. repeat case_match;
    by rewrite ?lookup_insert_ne, ?lookup_delete_ne, ?lookup_insert_ne by done.
Qed.

Lemma bind_device_AllocationId params a :
  bind_device params a !! "AllocationId" = a !! "AllocationId".
Proof.
  unfold bind_device. repeat case_match;
    by rewrite ?lookup_insert_ne, ?lookup_delete_ne, ?lookup_insert_ne by done.
Qed.

Lemma bind_device_key params is_instance device a :
  params !! device_key is_instance = Some (PyStr device) →
  params !! device_key (negb is_instance) = None →
  bind_device params a !! device_key is_instance = Some device.
Proof.
  unfold bind_device. destruct is_instance; cbn [device_key negb];
    intros Hk Hn; rewrite ?Hn, ?Hk, ?Hn; by rewrite ?lookup_insert_eq.
Qed.

Lemma filter_update_where (p t : pydict → bool) (f : pydict → pydict) l :
  (∀ a, p (f a) = p a) →
  List.filter p (update_where t f l) = update_where t f (List.filter p l).
Proof.
  intros Hp. unfold update_where. induction l as [|a l IH]; [done|].
  cbn [fmap list_fmap List.filter].
  replace (p (if t a then f a else a)) with (p a)
    by (by destruct (t a); rewrite ?Hp).
  destruct (p a); cbn [fmap list_fmap]; by rewrite <- IH.
Qed.

Lemma filter_nonempty_In {A} (p : A → bool) l a rest :
  List.filter p l = a :: rest → p a = true.
Proof.
  intros H. assert (In a (List.filter p l)) as Hin by (rewrite H; by left).
  by apply filter_In in Hin as [_ ?].
Qed.

Theorem in_memory_lawful : lawful ec2.
Proof.
  split.
  - (* queries are pure *)
    intros c s Hc. destruct c; try done; cbn [ec2]; try done.
    by destruct (List.filter _ (instances s)).
  - (* by ip *)
    intros ip s addresses. rewrite describe_by_ip. cbn [fst].
    intros [= <-]. apply Forall_forall. intros a Ha.
    apply list_elem_of_In, filter_In in Ha as [_ Ha].
    by apply mem_singleton.
  - (* associate *)
    intros params s res s' is_instance device ip a Hcall Hkey Hother.
    rewrite describe_by_ip. cbn [fst]. intros [= Hview] Htarget.
    cbn [ec2] in Hcall.
    destruct (List.filter (targets params) (addresses s)) as [|a0 rest] eqn:Ht;
      [discriminate|].
    destruct (_ && _); [discriminate|].
    injection Hcall as _ <-.
    rewrite describe_by_ip. cbn [fst with_addresses addresses].
    rewrite filter_update_where
      by (intros; by rewrite bind_device_PublicIp).
    rewrite Hview. cbn [update_where fmap list_fmap].
    assert (Hip : a !! "PublicIp" = Some ip).
    { apply mem_singleton.
      apply (filter_nonempty_In (fun a => mem (a !! "PublicIp") [ip])
               (addresses s) a []). exact Hview. }
    assert (targets params a = true) as ->.
    { apply filter_nonempty_In in Ht. unfold targets in Ht |- *.
      destruct Htarget as [[H1 H2]|[H1 H2]]; rewrite H1, H2 in Ht |- *.
      - destruct (a !! "AllocationId") as [id|] eqn:Hid; cbn [of_opt] in Ht |- *.
        + unfold has. by rewrite Hid, bool_decide_eq_true_2.
        + done.
      - unfold has. by rewrite Hip, bool_decide_eq_true_2. }
    eexists. split; [reflexivity|].
    split; [by apply bind_device_key|apply bind_device_AllocationId].
  - (* associate keeps devices *)
    intros params s res s' Hcall. cbn [ec2] in Hcall.
    destruct (List.filter (targets params) (addresses s)); [discriminate|].
    destruct (_ && _); [discriminate|].
    injection Hcall as _ <-.
    split; intros ids; cbn [ec2 with_addresses instances interfaces];
      [by destruct (List.filter _ (instances s))|done].
  - (* tags keep views *)
    intros args s changed s' Htags. cbn [ec2] in Htags.
    destruct (tags_arg args); injection Htags as _ <-;
      (split; [|split]); intros x; rewrite ?describe_by_ip;
      cbn [ec2 addresses instances interfaces]; try done;
      by destruct (List.filter _ (instances s)).
  - (* tags settle *)
    intros args s changed s' Htags. cbn [ec2] in Htags |- *.
    destruct (tags_arg args) as [tags|] eqn:Harg; injection Htags as _ <-.
    2:{ done. }
    cbn [tags_of addresses available instances interfaces].
    rewrite lookup_insert_eq. cbn [default from_option id].
    set (current := default ∅ (tags_of s !! resource_id args)).
    assert (desired_tags (desired_tags current tags (purge_tags_arg args))
              tags (purge_tags_arg args)
            = desired_tags current tags (purge_tags_arg args)) as ->.
    { unfold desired_tags. destruct (purge_tags_arg args); [done|].
      by rewrite (assoc_L (∪)), (idemp_L (∪)). }
    rewrite bool_decide_eq_true_2 by done. by rewrite insert_insert_eq.
Qed.

End InMemoryLaws.

(** ** The Lambda layer listing *)

Section LayerListing.
Import LambdaLayerInfo.
Context {cloud : Type}.
Variable lambda_client : lambda_call → cloud → (ec2_error + list layer) * cloud.
Variable camel_dict_to_snake_dict : layer → layer.

(** The operation that [execute_module] selects, with its arguments. *)
Lemma execute_module_operation module (w : cloud * list lambda_call) :
  (execute_module lambda_client camel_dict_to_snake_dict module w).2.2 =
  (w.2 ++ [match name module with
           | Some _ =>
               list_layer_versions_op
                 (with_filters module {[ "LayerName" := of_opt (name module) ]})
           | None => list_layers_op (with_filters module ∅)
           end])%list.
Proof.
  unfold execute_module.
  destruct (name module) as [n|] eqn:Hname.
  - rewrite bool_decide_eq_true_2 by done.
    unfold list_layer_versions, lbind, paginate. rewrite Hname.
    destruct (lambda_client _ _) as [[e|l] s']; reflexivity.
  - rewrite bool_decide_eq_false_2 by (intros H; by apply H).
    unfold list_layers, lbind, paginate.
    destruct (lambda_client _ _) as [[e|l] s']; [reflexivity|].
    destruct (merge_latest _ l); reflexivity.
Qed.

(** C10. Every invocation of the layer listing module requests exactly one
    operation, [list_layer_versions] when a name is given and [list_layers]
    otherwise, and every payload it exits with has [changed = False]. *)
Theorem layer_listing_is_read_only module (w : cloud * list lambda_call) :
  let run := execute_module lambda_client camel_dict_to_snake_dict module w in
  (∀ r, run.1 = LExitJson r → lambda_changed r = false) ∧
  (name module ≠ None →
     run.2.2 = (w.2 ++ [list_layer_versions_op
                          (with_filters module
                             {[ "LayerName" := of_opt (name module) ]})])%list) ∧
  (name module = None →
     run.2.2 = (w.2 ++ [list_layers_op (with_filters module ∅)])%list).
Proof.
  intros run. split; [|split].
  - subst run. unfold execute_module.
    set (operation := if bool_decide (name module ≠ None) then _ else _).
    unfold lbind. intros r.
    destruct (operation module w) as [[layers|e|r'|f] w'] eqn:Hop; simpl;
      try congruence.
    + intros [= <-]. reflexivity.
    + (* the operations themselves never call [exit_json] *)
      exfalso. subst operation.
      destruct (bool_decide (name module ≠ None)).
      * unfold list_layer_versions, lbind, paginate in Hop.
        destruct (lambda_client _ _) as [[?|?] ?]; discriminate.
      * unfold list_layers, lbind, paginate in Hop.
        destruct (lambda_client _ _) as [[?|l] ?]; [discriminate|].
        destruct (merge_latest _ l); discriminate.
  - intros Hname. subst run. rewrite execute_module_operation.
    destruct (name module); [reflexivity|done].
  - intros Hname. subst run. rewrite execute_module_operation, Hname.
    reflexivity.
Qed.

End LayerListing.

(** ** Absent without an address *)

Section AbsentWithoutAddress.
Context {cloud : Type}.
Variable ec2 : ∀ c : call, cloud → (ec2_error + reply c) * cloud.

(** C2 (where the code departs from it). With [state=absent] and neither a
    device id nor a public IP the locator returns [None] without a query,
    and [main] still calls [release_ip_address] on it: outside check mode
    the invocation dies of the uncaught [TypeError] of [None["AllocationId"]];
    in check mode it exits reporting [released] and [changed] both true.
    Neither is the [released=false, changed=false] completion. *)
Theorem absent_without_address (w : world cloud) :
  main ec2 (Sample.absent_nothing false) w = (Raise not_subscriptable, w) ∧
  main ec2 (Sample.absent_nothing true) w =
    (ExitJson (Result true None None (Some false) (Some true)), w).
Proof. split; reflexivity. Qed.

End AbsentWithoutAddress.

(** * Further properties of the code

    ** Parameters: device ids and search tags *)

Section Parameters.
Context {cloud : Type}.
Variable ec2 : ∀ c : call, cloud → (ec2_error + reply c) * cloud.
Implicit Types w : world cloud.

Lemma prefix_nonempty p d :
  p ≠ "" → String.prefix p d = true → str_truthy d = true.
Proof. destruct p; [done|]. destruct d; [discriminate|reflexivity]. Qed.

(** X1. [check_is_instance] sorts device ids by prefix alone: the answer is
    [True] exactly for the ids that start with [i-], and the only error is
    that of an id that starts with [eni-] while [in_vpc] is false.  Every
    other id, whatever it looks like, is taken for a network interface. *)
Theorem check_is_instance_by_prefix device_id in_vpc :
  (check_is_instance device_id in_vpc = inr true ↔
     ∃ d, device_id = Some d ∧ String.prefix "i-" d = true) ∧
  (∀ e, check_is_instance device_id in_vpc = inl e ↔
     e = EipError "If you are specifying an ENI, in_vpc must be true" ∧
     in_vpc = false ∧ ∃ d, device_id = Some d ∧ String.prefix "eni-" d = true).
Proof.
  unfold check_is_instance. destruct device_id as [d|];
    cbn [truthy the_str default from_option id].
  2:{ cbn [negb]. split; [|intros e]; split; try discriminate.
      - intros (d & ? & _). discriminate.
      - intros (_ & _ & d & ? & _). discriminate. }
  destruct (String.prefix "i-" d) eqn:Hi.
  - rewrite (prefix_nonempty "i-" d) by done. cbn [negb].
    split; [|intros e]; split; try discriminate; eauto.
    intros (_ & _ & d' & [= <-] & Heni).
    apply prefix_eni_not_instance in Heni as [_ Heni]. congruence.
  - destruct (String.prefix "eni-" d) eqn:Heni.
    + rewrite (prefix_nonempty "eni-" d) by done. cbn [negb andb].
      destruct in_vpc; cbn [negb]; (split; [|intros e]; split); try discriminate.
      * intros (d' & [= <-] & ?). congruence.
      * intros (_ & ? & _). discriminate.
      * intros (d' & [= <-] & ?). congruence.
      * intros [= <-]. eauto.
      * by intros (-> & _).
    + cbn [andb]. destruct (negb (str_truthy d));
        (split; [|intros e]; split); try discriminate.
      all: try (intros (d' & [= <-] & ?); congruence).
      all: intros (_ & _ & d' & [= <-] & ?); congruence.
Qed.

Lemma append_cons c (a b : string) : String c a +:+ b = String c (a +:+ b).
Proof. reflexivity. Qed.

Lemma lstrip_spec chars s :
  ∃ pre, s = pre +:+ lstrip chars s ∧ all_in chars pre = true ∧
         outside chars (first_char (lstrip chars s)).
Proof.
  induction s as [|c s (pre & Hs & Hpre & Hout)]; [by exists ""|].
  cbn [lstrip]. destruct (char_in c chars) eqn:Hc.
  - exists (String c pre). cbn [all_in].
    rewrite append_cons, <- Hs, Hc, Hpre. done.
  - by exists "".
Qed.

Lemma rstrip_spec chars s :
  ∃ post, s = rstrip chars s +:+ post ∧ all_in chars post = true ∧
          outside chars (last_char (rstrip chars s)).
Proof.
  induction s as [|c s (post & Hs & Hpost & Hout)]; [by exists ""|].
  cbn [rstrip]. destruct (rstrip chars s) as [|c' r] eqn:Hr.
  - change ("" +:+ post) with post in Hs. subst s.
    destruct (char_in c chars) eqn:Hc.
    + exists (String c post). cbn [all_in]. by rewrite Hc, Hpost.
    + by exists post.
  - exists post. rewrite append_cons. by rewrite Hs at 1.
Qed.

Lemma rstrip_first_char chars s :
  outside chars (first_char s) → outside chars (first_char (rstrip chars s)).
Proof.
  destruct s as [|c s]; [done|]. cbn [rstrip first_char outside]. intros Hc.
  destruct (rstrip chars s); [rewrite Hc|]; done.
Qed.

Lemma py_strip_stripped chars s : stripped chars s (py_strip chars s).
Proof.
  unfold py_strip.
  destruct (lstrip_spec chars s) as (pre & Hs & Hpre & Hfirst).
  destruct (rstrip_spec chars (lstrip chars s)) as (post & Hl & Hpost & Hlast).
  exists pre, post. split; [|by auto using rstrip_first_char].
  by rewrite <- Hl.
Qed.

(** X2. A search by tag key alone ([tag_name] set, [tag_value] not) never
    fails and calls nothing.  When [tag_name] starts with [tag:] the key
    searched is [tag_name.strip("tag:")]: the name without a run of leading
    and a run of trailing characters among [t], [a], [g] and [:], so a key
    that neither begins nor ends with one of these four characters;
    otherwise the key is [tag_name] as given. *)
Theorem generate_tag_dict_tag_key module tag_name w :
  str_truthy tag_name = true →
  ∃ key,
    generate_tag_dict module (Some tag_name) None w
      = (Return (Some {[ "tag-key" := key ]}), w) ∧
    (String.prefix "tag:" tag_name = true → stripped "tag:" tag_name key) ∧
    (String.prefix "tag:" tag_name = false → key = tag_name).
Proof.
  intros Hname. unfold generate_tag_dict. cbv zeta.
  cbn [truthy the_str default from_option id negb]. rewrite Hname. cbn [andb].
  destruct (String.prefix "tag:" tag_name) eqn:Hp.
  - eexists. split; [reflexivity|]. split; [|done].
    intros _. apply py_strip_stripped.
  - eexists. split; [reflexivity|]. done.
Qed.

(** X3. With both [tag_name] and [tag_value] the filter is the one-entry
    dict [{"tag:<name>": tag_value}], and the prefix [tag:] may be written
    or left out: both spellings of the name give the same filter. *)
Theorem generate_tag_dict_prefix_optional module name value w :
  str_truthy name = true → str_truthy value = true →
  String.prefix "tag:" name = false →
  generate_tag_dict module (Some name) (Some value) w
    = (Return (Some {[ "tag:" +:+ name := value ]}), w) ∧
  generate_tag_dict module (Some ("tag:" +:+ name)) (Some value) w
    = generate_tag_dict module (Some name) (Some value) w.
Proof.
  intros Hname Hvalue Hp. unfold generate_tag_dict. cbv zeta.
  cbn [truthy the_str default from_option id]. rewrite Hname, Hvalue, Hp.
  cbn [andb negb].
  assert (String.prefix "tag:" ("tag:" +:+ name) = true) as ->.
  { rewrite !append_cons. cbn [String.prefix].
    repeat (destruct (Ascii.ascii_dec _ _); [|done]). by destruct name. }
  done.
Qed.

(** X4. A [tag_value] without a [tag_name] is refused before the cloud is
    touched: unless the device id is refused first (an [eni-] id without
    [in_vpc]), the invocation fails with the message below, and no call has
    been made. *)
Theorem tag_value_requires_tag_name module w value :
  param_tag_value module = Some value → str_truthy value = true →
  truthy (param_tag_name module) = false →
  (∀ e, check_is_instance (param_device_id module) (param_in_vpc module) ≠ inl e) →
  main ec2 module w =
    (FailJson (fail_json
       "parameters are required together: ('tag_name', 'tag_value')"), w).
Proof.
  intros Hvalue Hv Hname Hdev. unfold main. cbv zeta.
  destruct (check_is_instance _ _) as [e|is_instance]; [by destruct (Hdev e)|].
  rewrite bind_ret. unfold generate_tag_dict. cbv zeta.
  rewrite Hvalue, Hname. cbn [truthy andb negb]. rewrite Hv. reflexivity.
Qed.

End Parameters.

(** ** The locator, continued *)

Section LocatorUse.
Context {cloud : Type}.
Variable ec2 : ∀ c : call, cloud → (ec2_error + reply c) * cloud.
Implicit Types w : world cloud.

Lemma find_address_kwargs_None public_ip device_id is_instance :
  find_address_kwargs public_ip device_id is_instance = None ↔
  public_ip = None ∧ truthy device_id = false.
Proof.
  unfold find_address_kwargs. cbv zeta.
  destruct (truthy public_ip) eqn:Hip.
  - rewrite bool_decide_eq_false_2 by (by destruct public_ip).
    split; [done|]. intros [-> _]. done.
  - destruct (truthy device_id); [destruct is_instance|].
    + split; [done|]. by intros [_ ?].
    + split; [done|]. by intros [_ ?].
    + case_bool_decide; split; try done. by intros [? _].
Qed.

Lemma app_singleton_neq {A} (l : list A) c : (l ++ [c])%list ≠ l.
Proof.
  intros H. apply (f_equal length) in H. rewrite length_app in H.
  cbn [length] in H. lia.
Qed.

(** X5. The locator queries the cloud unless it has nothing to go by: it
    returns without a call exactly when [public_ip] is [None] and the
    device id is unset or empty.  An empty string for [public_ip] is not
    [None]: with no device id the locator then queries with no argument at
    all, that is for every address of the account. *)
Theorem find_address_queries module public_ip device_id is_instance w :
  (trace (find_address ec2 module public_ip device_id is_instance w).2 = trace w
     ↔ public_ip = None ∧ truthy device_id = false) ∧
  (public_ip = Some "" → truthy device_id = false →
     trace (find_address ec2 module public_ip device_id is_instance w).2
     = (trace w ++ [DescribeAddresses (DescribeKwargs None None)])%list).
Proof.
  assert (Hcall : ∀ kwargs,
    find_address_kwargs public_ip device_id is_instance = Some kwargs →
    trace (find_address ec2 module public_ip device_id is_instance w).2
    = (trace w ++ [DescribeAddresses kwargs])%list).
  { intros kwargs Hk.
    destruct (ec2 (DescribeAddresses kwargs) (cloud_state w))
      as [[e|addresses] s'] eqn:Hq.
    - by rewrite (find_address_error _ _ _ _ _ _ _ _ _ Hk Hq).
    - by rewrite (find_address_answered _ _ _ _ _ _ _ _ _ Hk Hq). }
  split.
  - rewrite <- (find_address_kwargs_None public_ip device_id is_instance).
    destruct (find_address_kwargs public_ip device_id is_instance)
      as [kwargs|] eqn:Hk.
    + rewrite (Hcall kwargs eq_refl). split; [|done].
      intros H. by apply app_singleton_neq in H.
    + by rewrite (find_address_no_query _ _ _ _ _ _ Hk).
  - intros -> Hdev. apply Hcall. unfold find_address_kwargs. cbv zeta.
    cbn [truthy str_truthy String.eqb negb]. by rewrite Hdev.
Qed.

Lemma find_address_Return_Some module public_ip device_id is_instance w a w' :
  find_address ec2 module public_ip device_id is_instance w = (Return (Some a), w') →
  ∃ kwargs,
    find_address_kwargs public_ip device_id is_instance = Some kwargs ∧
    ec2 (DescribeAddresses kwargs) (cloud_state w) = (inr [a], cloud_state w') ∧
    trace w' = (trace w ++ [DescribeAddresses kwargs])%list.
Proof.
  destruct (find_address_kwargs public_ip device_id is_instance)
    as [kwargs|] eqn:Hk.
  2:{ by rewrite (find_address_no_query _ _ _ _ _ _ Hk). }
  intros H. exists kwargs. split; [done|]. revert H.
  destruct (ec2 (DescribeAddresses kwargs) (cloud_state w))
    as [[e|addresses] s'] eqn:Hq.
  - by rewrite (find_address_error _ _ _ _ _ _ _ _ _ Hk Hq).
  - rewrite (find_address_answered _ _ _ _ _ _ _ _ _ Hk Hq).
    destruct addresses as [|b [|c rest]]; cbn [located].
    + case_bool_decide; discriminate.
    + by intros [= -> <-].
    + discriminate.
Qed.

(** X6. The locator returns an address exactly when the reply to its query
    is that one address: it never picks one of several and never returns an
    address the cloud did not list. *)
Theorem find_address_returns_the_only_match module public_ip device_id
    is_instance w a w' :
  find_address ec2 module public_ip device_id is_instance w = (Return (Some a), w')
  ↔ ∃ kwargs,
      find_address_kwargs public_ip device_id is_instance = Some kwargs ∧
      ec2 (DescribeAddresses kwargs) (cloud_state w) = (inr [a], cloud_state w') ∧
      trace w' = (trace w ++ [DescribeAddresses kwargs])%list.
Proof.
  split; [apply find_address_Return_Some|].
  intros (kwargs & Hk & Hq & Ht).
  rewrite (find_address_answered _ _ _ _ _ _ _ _ _ Hk Hq). cbn [located].
  destruct w' as [s' t']. cbn [trace cloud_state] in *. by rewrite Ht.
Qed.

(** X7. When a public IP is given the device plays no part in the lookup:
    the locator queries by the IP alone, whatever the device id and its
    kind. *)
Theorem find_address_prefers_public_ip module public_ip device_id is_instance w :
  truthy public_ip = true →
  find_address ec2 module public_ip device_id is_instance w
  = find_address ec2 module public_ip None true w ∧
  find_address_kwargs public_ip device_id is_instance
  = Some (DescribeKwargs (Some [the_str public_ip]) None).
Proof.
  intros Hip. unfold find_address, find_address_kwargs. cbv zeta.
  rewrite Hip. cbn [PublicIps Filters].
  rewrite bool_decide_eq_false_2 by (by destruct public_ip). done.
Qed.

(** X8. [address_is_associated_with_device] answers [True] only if the
    cloud's reply to the locator's query is a single address whose
    [InstanceId] (for an instance) or [NetworkInterfaceId] (for an
    interface) is the device id. *)
Theorem address_is_associated_with_device_sound module address device_id
    is_instance w w' :
  address_is_associated_with_device ec2 module address device_id is_instance w
    = (Return true, w') →
  ∃ d a kwargs,
    device_id = Some d ∧ a !! device_key is_instance = Some d ∧
    find_address_kwargs (or_empty address !! "PublicIp") device_id is_instance
      = Some kwargs ∧
    ec2 (DescribeAddresses kwargs) (cloud_state w) = (inr [a], cloud_state w') ∧
    trace w' = (trace w ++ [DescribeAddresses kwargs])%list.
Proof.
  unfold address_is_associated_with_device. intros H.
  apply bind_Return_inv in H as (result & w1 & Hfind & H).
  destruct result as [a|]; cbn [optdict_truthy] in H; [|discriminate].
  destruct (dict_truthy a) eqn:Ha; [|discriminate].
  apply find_address_Return_Some in Hfind as (kwargs & Hk & Hq & Ht).
  assert (w1 = w' ∧ field_is a (device_key is_instance) device_id = true)
    as [-> Hfield].
  { cbv zeta in H. unfold or_empty in H. rewrite Ha in H.
    destruct is_instance; cbn [andb negb device_key] in *;
      destruct (field_is a _ device_id); unfold ret in H; by simplify_eq. }
  unfold field_is in Hfield.
  destruct (a !! device_key is_instance) as [v|] eqn:Hv; [|done].
  destruct device_id as [d|]; [|done].
  apply String.eqb_eq in Hfield as ->. eauto 10.
Qed.

End LocatorUse.

(** ** The reconciler on an address that the locator found, without a
       device *)

Section LocatedWithoutDevice.
Context {cloud : Type}.
Variable ec2 : ∀ c : call, cloud → (ec2_error + reply c) * cloud.
Variable module : AnsibleAWSModule.
Implicit Types w : world cloud.

Hypothesis Hdevice : truthy (param_device_id module) = false.
Hypothesis Htags :
  truthy (param_tag_value module) = true → truthy (param_tag_name module) = true.

Lemma generate_tag_dict_Return w :
  ∃ search_tags,
    generate_tag_dict module (param_tag_name module) (param_tag_value module) w
    = (Return search_tags, w).
Proof.
  unfold generate_tag_dict. cbv zeta.
  destruct (truthy (param_tag_name module)), (truthy (param_tag_value module));
    cbn [andb negb]; eauto.
  by specialize (Htags eq_refl).
Qed.

(** Without a device id [main] is its [try] block with [is_instance]
    false. *)
Lemma main_without_device w :
  ∃ search_tags,
    main ec2 module w =
    bind (try_except (main_try_block ec2 module false search_tags)
            (fun e => fail (fail_json_aws_error e))) exit_json w.
Proof.
  destruct (generate_tag_dict_Return w) as [search_tags Hgen].
  exists search_tags. unfold main. cbv zeta.
  unfold check_is_instance. rewrite Hdevice. cbn [negb].
  rewrite bind_ret. unfold bind at 1. rewrite Hgen. reflexivity.
Qed.

Section Located.
Variables (w : world cloud) (kwargs : describe_kwargs) (a : pydict) (s1 : cloud).
Hypothesis Hkwargs :
  find_address_kwargs (param_public_ip module) None true = Some kwargs.
Hypothesis Hquery :
  ec2 (DescribeAddresses kwargs) (cloud_state w) = (inr [a], s1).

Lemma main_located search_tags :
  main_try_block ec2 module false search_tags w
  = (if bool_decide (param_state module = present) then
       let* result :=
         if optdict_truthy (Some a) then
           let* ip := getitem_opt (Some a) "PublicIp" in
           let* alloc := getitem_opt (Some a) "AllocationId" in
           ret (Result false (Some ip) (Some alloc) None None)
         else
           let* allocated :=
             allocate_address ec2 module
               (if param_in_vpc module then Some "vpc" else None)
               (param_reuse_existing_ip_allowed module) (check_mode module)
               (param_tags module) search_tags (param_public_ipv4_pool module) in
           let '(address, changed) := allocated in
           if optdict_truthy address then
             let* ip := getitem_opt address "PublicIp" in
             let* alloc := getitem_opt address "AllocationId" in
             ret (Result changed (Some ip) (Some alloc) None None)
           else exit_json (only_changed changed) in
       let* tags_changed :=
         ensure_ec2_tags ec2 (the_str (allocation_id result)) "elastic-ip"
           (param_tags module) (param_purge_tags module) in
       ret (or_changed result tags_changed)
     else
       let* changed := release_ip_address ec2 module (Some a) in
       ret (Result changed None None (Some false) (Some changed)))
      (World s1 (trace w ++ [DescribeAddresses kwargs])).
Proof.
  unfold main_try_block. cbv zeta. rewrite Hdevice.
  unfold bind at 1.
  rewrite (find_address_answered _ _ _ _ _ _ _ _ _ Hkwargs Hquery).
  reflexivity.
Qed.

(** X9. [state=absent] without a device id, outside check mode, on an
    address that the locator found: the address is released by its
    allocation id, and the cloud's answer to the release call is reported
    both as [released] and as [changed]; a refused release call fails the
    invocation with the message of [release_ip_address]. *)
Theorem absent_releases_located id :
  param_state module = absent → check_mode module = false →
  a !! "AllocationId" = Some id →
  (∀ released s2,
     ec2 (ReleaseAddress id) s1 = (inr released, s2) →
     main ec2 module w =
       (ExitJson (Result released None None (Some false) (Some released)),
        World s2 (trace w ++ [DescribeAddresses kwargs; ReleaseAddress id]))) ∧
  (∀ e s2,
     ec2 (ReleaseAddress id) s1 = (inl e, s2) →
     main ec2 module w =
       (FailJson (fail_json_aws e "Couldn't release Elastic IP address"),
        World s2 (trace w ++ [DescribeAddresses kwargs; ReleaseAddress id]))).
Proof.
  intros Hstate Hcm Hid.
  destruct (main_without_device w) as [search_tags ->].
  split; intros ? s2 Hrel;
    (unfold bind at 1, try_except at 1; rewrite main_located;
     rewrite bool_decide_eq_false_2 by congruence;
     unfold release_ip_address, release_address; rewrite Hcm; cbn [negb];
     unfold bind at 1, try_except at 1, bind at 1;
     rewrite (getitem_opt_lookup _ _ _ _ Hid)).
  - rewrite (invoke_inr ec2 _
               (World s1 (trace w ++ [DescribeAddresses kwargs])) _ _ Hrel).
    cbn [ret exit_json trace]. by rewrite <- app_assoc.
  - rewrite (invoke_inl ec2 _
               (World s1 (trace w ++ [DescribeAddresses kwargs])) _ _ Hrel).
    cbn [fail trace]. by rewrite <- app_assoc.
Qed.

(** X10. An address without an [AllocationId] field (an address of the
    standard domain) cannot be handled once the locator has found it:
    [state=present] dies of the uncaught [KeyError] when it builds the
    result, and so does [state=absent] outside check mode when it builds
    the release call.  Only the locator's query has been made. *)
Theorem located_address_needs_allocation_id :
  is_Some (a !! "PublicIp") → a !! "AllocationId" = None →
  (param_state module = absent → check_mode module = false) →
  main ec2 module w =
    (Raise (KeyError "AllocationId"),
     World s1 (trace w ++ [DescribeAddresses kwargs])).
Proof.
  intros [ip Hip] Hid Hcm.
  destruct (main_without_device w) as [search_tags ->].
  unfold bind at 1, try_except at 1. rewrite main_located.
  destruct (param_state module) eqn:Hstate.
  - rewrite bool_decide_eq_true_2 by done.
    cbn [optdict_truthy]. rewrite (dict_truthy_lookup _ _ _ Hip).
    unfold bind at 1, bind at 1. rewrite (getitem_opt_lookup _ _ _ _ Hip).
    unfold bind at 1. unfold getitem_opt, getitem. rewrite Hid. reflexivity.
  - rewrite bool_decide_eq_false_2 by done.
    unfold release_ip_address. rewrite (Hcm eq_refl). cbn [negb].
    unfold bind at 1, try_except at 1, bind at 1.
    unfold getitem_opt, getitem. rewrite Hid. reflexivity.
Qed.

(** X11. [state=present] without a device id on an address that the
    locator found: nothing is allocated or associated; the address is
    handed to the tag reconciliation, and the invocation reports its
    identity with [changed] equal to the answer of the tag
    reconciliation. *)
Theorem present_reports_located ip alloc tags_changed s2 :
  param_state module = present →
  a !! "PublicIp" = Some ip → a !! "AllocationId" = Some alloc →
  let tagging :=
    EnsureEc2Tags (EnsureTagsArgs alloc "elastic-ip" (param_tags module)
                     (param_purge_tags module)) in
  ec2 tagging s1 = (inr tags_changed, s2) →
  main ec2 module w =
    (ExitJson (Result tags_changed (Some ip) (Some alloc) None None),
     World s2 (trace w ++ [DescribeAddresses kwargs; tagging])).
Proof.
  intros Hstate Hip Hid tagging Htag. subst tagging.
  destruct (main_without_device w) as [search_tags ->].
  unfold bind at 1, try_except at 1. rewrite main_located.
  rewrite bool_decide_eq_true_2 by done.
  cbn [optdict_truthy]. rewrite (dict_truthy_lookup _ _ _ Hip).
  unfold bind at 1, bind at 1, bind at 1.
  rewrite (getitem_opt_lookup _ _ _ _ Hip).
  unfold bind at 1. rewrite (getitem_opt_lookup _ _ _ _ Hid).
  cbn [ret allocation_id the_str default from_option id].
  unfold ensure_ec2_tags.
  rewrite (invoke_inr ec2 _
             (World s1 (trace w ++ [DescribeAddresses kwargs])) _ _ Htag).
  cbn [ret exit_json trace or_changed changed orb]. by rewrite <- app_assoc.
Qed.

End Located.

End LocatedWithoutDevice.

(** ** Which exceptions and failures end an invocation *)

Section EndingRules.
Context {cloud : Type}.
Variable ec2 : ∀ c : call, cloud → (ec2_error + reply c) * cloud.
Implicit Types (X : exn → Prop) (F : failure → Prop).

Lemma ends_ret {A} X F (a : A) : ends_within (cloud := cloud) X F (ret a).
Proof. by intros w. Qed.

Lemma ends_exit_json {A} X F r :
  ends_within (cloud := cloud) (A := A) X F (exit_json r).
Proof. by intros w. Qed.

Lemma ends_raise {A} X F e :
  X e → ends_within (cloud := cloud) (A := A) X F (raise e).
Proof. by intros He w. Qed.

Lemma ends_fail {A} X F f :
  F f → ends_within (cloud := cloud) (A := A) X F (fail f).
Proof. by intros Hf w. Qed.

Lemma ends_bind {A B} X F (m : M cloud A) (k : A → M cloud B) :
  ends_within X F m → (∀ a, ends_within X F (k a)) → ends_within X F (bind m k).
Proof.
  intros Hm Hk w. specialize (Hm w). unfold bind.
  destruct (m w) as [[a|e|r|f] w1]; cbn [fst] in *; try done. apply Hk.
Qed.

Lemma ends_try_except {A} X F (body : M cloud A) h :
  ends_within (caught X) F body → (∀ e, ends_within X F (h e)) →
  ends_within X F (try_except body h).
Proof.
  intros Hm Hh w. specialize (Hm w). unfold try_except.
  destruct (body w) as [[a|[e| | |]|r|f] w1]; cbn [fst caught] in *; try done.
  apply Hh.
Qed.

Lemma ends_invoke X F c :
  (∀ e, X (AnsibleEC2Error e)) → ends_within X F (invoke ec2 c).
Proof.
  intros HX w. unfold invoke.
  destruct (ec2 c (cloud_state w)) as [[e|v] s']; cbn [fst]; done.
Qed.

Lemma ends_mono {A} X X' F F' (m : M cloud A) :
  ends_within X F m → (∀ e, X e → X' e) → (∀ f, F f → F' f) →
  ends_within X' F' m.
Proof.
  intros Hm HX HF w. specialize (Hm w).
  destruct (m w).1; auto.
Qed.

Lemma bind_Raise_inv {A B} (m : M cloud A) (k : A → M cloud B) w e w' :
  bind m k w = (Raise e, w') →
  m w = (Raise e, w') ∨ ∃ a w1, m w = (Return a, w1) ∧ k a w1 = (Raise e, w').
Proof.
  unfold bind. destruct (m w) as [[a|e'|r|f] w1]; try discriminate.
  - intros Hk. right. exists a, w1. by split.
  - intros [= -> ->]. by left.
Qed.

Lemma bind_FailJson_inv {A B} (m : M cloud A) (k : A → M cloud B) w f w' :
  bind m k w = (FailJson f, w') →
  m w = (FailJson f, w') ∨
  ∃ a w1, m w = (Return a, w1) ∧ k a w1 = (FailJson f, w').
Proof.
  unfold bind. destruct (m w) as [[a|e'|r|f'] w1]; try discriminate.
  - intros Hk. right. exists a, w1. by split.
  - intros [= -> ->]. by left.
Qed.

End EndingRules.

Ltac ends_step :=
  lazymatch goal with
  | |- ends_within _ _ (bind _ _) => apply ends_bind; [|intros]
  | |- ends_within _ _ (try_except _ _) => apply ends_try_except; [|intros]
  | |- ends_within _ _ (ret _) => apply ends_ret
  | |- ends_within _ _ (exit_json _) => apply ends_exit_json
  | |- ends_within _ _ (raise _) => apply ends_raise
  | |- ends_within _ _ (fail _) => apply ends_fail
  | |- ends_within ?X ?F (invoke ?ec2 ?c) => apply (ends_invoke ec2 X F c)
  | |- ends_within _ _ (if ?b then _ else _) => destruct b
  | |- ends_within _ _ (match ?x with _ => _ end) => destruct x
  end.

Section Endings.
Context {cloud : Type}.
Variable ec2 : ∀ c : call, cloud → (ec2_error + reply c) * cloud.
Variable module : AnsibleAWSModule.

Lemma allows_caught X F : allows X F → allows (caught X) F.
Proof.
  intros [HX HF]. split; [|done].
  intros e He. destruct e; cbn [caught]; auto.
Qed.

Lemma allows_specific X F f : allows X F → specific f → F f.
Proof. intros [_ HF]. apply HF. Qed.

Lemma allows_key_error X F key :
  allows X F →
  In key ["InstanceId"; "VpcId"; "PublicIp"; "AllocationId"] →
  X (KeyError key).
Proof. intros [HX _] Hkey. apply HX. right. eauto. Qed.

Lemma allows_not_subscriptable X F : allows X F → X not_subscriptable.
Proof. intros [HX _]. apply HX. by left. Qed.

Ltac ends_side :=
  lazymatch goal with
  | |- ∀ e, caught _ (AnsibleEC2Error e) => done
  | |- In _ _ => cbn [In]; intuition
  | |- specific _ => intros ?; discriminate
  | H : allows ?X ?F |- ?F _ => apply (allows_specific _ _ _ H); intros ?; discriminate
  | H : allows ?X ?F |- allows (caught ?X) ?F => apply allows_caught, H
  | H : allows ?X ?F |- allows ?X ?F => exact H
  end.

Ltac ends_go := repeat first [ends_step | ends_side | solve [eauto with ends]].

Create HintDb ends.
#[local] Hint Resolve allows_caught : ends.

Lemma getitem_ends X F (d : pydict) key :
  allows X F →
  In key ["InstanceId"; "VpcId"; "PublicIp"; "AllocationId"] →
  ends_within (cloud := cloud) X F (getitem d key).
Proof.
  intros HA Hkey. unfold getitem. ends_go.
  by apply (allows_key_error _ _ _ HA).
Qed.

Lemma getitem_opt_ends X F (d : option pydict) key :
  allows X F →
  In key ["InstanceId"; "VpcId"; "PublicIp"; "AllocationId"] →
  ends_within (cloud := cloud) X F (getitem_opt d key).
Proof.
  intros HA Hkey. unfold getitem_opt. ends_step.
  - by apply getitem_ends.
  - ends_step. by apply (allows_not_subscriptable _ _ HA).
Qed.

#[local] Hint Resolve getitem_ends getitem_opt_ends : ends.
#[local] Hint Extern 1 (In _ _) => cbn [In]; intuition : ends.

Lemma find_address_ends X F public_ip device_id is_instance :
  allows X F →
  ends_within X F (find_address ec2 module public_ip device_id is_instance).
Proof. intros HA. unfold find_address, describe_addresses. ends_go. Qed.
#[local] Hint Resolve find_address_ends : ends.

Lemma address_is_associated_with_device_ends X F address device_id is_instance :
  allows X F →
  ends_within X F
    (address_is_associated_with_device ec2 module address device_id is_instance).
Proof. intros HA. unfold address_is_associated_with_device. ends_go. Qed.
#[local] Hint Resolve address_is_associated_with_device_ends : ends.

Lemma associate_ip_and_device_ends X F address private_ip_address device_id
    allow_reassociation is_instance :
  allows X F →
  ends_within X F
    (associate_ip_and_device ec2 module address private_ip_address device_id
       allow_reassociation is_instance).
Proof.
  intros HA. unfold associate_ip_and_device, associate_address. cbv zeta.
  ends_go.
Qed.
#[local] Hint Resolve associate_ip_and_device_ends : ends.

Lemma disassociate_ip_and_device_ends X F address device_id is_instance :
  allows X F →
  (check_mode module = false → X unexpected_public_ip) →
  ends_within X F
    (disassociate_ip_and_device ec2 module address device_id is_instance).
Proof.
  intros HA HX. unfold disassociate_ip_and_device, disassociate_address.
  ends_step; [ends_go|]. ends_step; [ends_go|].
  ends_step; [|ends_go].
  destruct (check_mode module); cbn [negb]; [ends_go|].
  ends_step; [|ends_go]. ends_step; (ends_step; [|ends_go]).
  - ends_go.
  - ends_step. cbn [caught unexpected_public_ip]. by apply HX.
Qed.

Lemma allocate_address_from_pool_ends X F domain cm public_ipv4_pool tags :
  allows X F →
  ends_within X F
    (allocate_address_from_pool ec2 module domain cm public_ipv4_pool tags).
Proof.
  intros HA. unfold allocate_address_from_pool, allocate_ip_address. cbv zeta.
  ends_go.
Qed.
#[local] Hint Resolve allocate_address_from_pool_ends : ends.

Lemma list_comprehension_ends {A} X F (cond : A → M cloud bool) l :
  (∀ a, ends_within X F (cond a)) →
  ends_within X F (list_comprehension cond l).
Proof.
  intros Hcond. induction l as [|a l IH]; cbn [list_comprehension]; ends_go.
Qed.

Lemma allocate_address_ends X F domain reuse cm tags search_tags
    public_ipv4_pool :
  allows X F →
  ends_within X F
    (allocate_address ec2 module domain reuse cm tags search_tags
       public_ipv4_pool).
Proof.
  intros HA. unfold allocate_address, describe_addresses, allocate_ip_address.
  cbv zeta. ends_step.
  - destruct reuse; [|ends_go]. ends_step; [ends_go|].
    ends_step; [|ends_go]. ends_step; [ends_go|].
    apply list_comprehension_ends. intros a'. unfold instance_id_is_empty.
    ends_step; [|ends_go]. apply getitem_ends; [done|]. cbn [In]. intuition.
  - ends_go.
Qed.
#[local] Hint Resolve allocate_address_ends : ends.

Lemma release_ip_address_ends X F address :
  allows X F → ends_within X F (release_ip_address ec2 module address).
Proof.
  intros HA. unfold release_ip_address, release_address. cbv zeta.
  ends_step; [|ends_go]. ends_step; [|ends_go].
  ends_step; [|ends_go].
  apply getitem_opt_ends; [ends_side|]. cbn [In]. intuition.
Qed.
#[local] Hint Resolve release_ip_address_ends : ends.

Lemma find_device_ends X F device_id is_instance :
  allows X F → ends_within X F (find_device ec2 module device_id is_instance).
Proof.
  intros HA.
  unfold find_device, describe_instances, describe_network_interfaces.
  cbv zeta. ends_go.
Qed.
#[local] Hint Resolve find_device_ends : ends.

Lemma ensure_present_ends X F domain address private_ip_address device_id reuse
    allow_reassociation cm tags is_instance :
  allows X F →
  ends_within X F
    (ensure_present ec2 module domain address private_ip_address device_id
       reuse allow_reassociation cm tags is_instance).
Proof.
  intros HA. unfold ensure_present. cbv zeta.
  ends_step; [ends_go|]. destruct a as [early|[address' changed']]; [ends_go|].
  ends_step.
  - ends_step; [|ends_go]. ends_step.
    + ends_step; [ends_go|]. ends_step; [|ends_go].
      ends_step; [|ends_go]. ends_step; [|ends_go].
      apply getitem_opt_ends; [done|]. cbn [In]. intuition.
    + ends_go.
  - ends_step; [apply getitem_opt_ends; [done|]; cbn [In]; intuition|].
    ends_step; [apply getitem_opt_ends; [done|]; cbn [In]; intuition|].
    ends_go.
Qed.
#[local] Hint Resolve ensure_present_ends : ends.

Lemma ensure_absent_ends X F address device_id is_instance :
  allows X F →
  (check_mode module = false → truthy device_id = true →
   X unexpected_public_ip) →
  ends_within X F (ensure_absent ec2 module address device_id is_instance).
Proof.
  intros HA HX. unfold ensure_absent.
  ends_step; [ends_go|].
  destruct (truthy device_id) eqn:Hdevice; [|ends_go].
  ends_step; apply disassociate_ip_and_device_ends; auto.
Qed.

Lemma generate_tag_dict_ends X F tag_name tag_value :
  allows X F →
  ends_within (cloud := cloud) X F (generate_tag_dict module tag_name tag_value).
Proof. intros HA. unfold generate_tag_dict. cbv zeta. ends_go. Qed.

Lemma allows_uncaught F :
  (∀ f, specific f → F f) → allows (uncaught module) F.
Proof. split; [|done]. intros e He. by left. Qed.

Lemma uncaught_not_cloud_error e : ¬ uncaught module (AnsibleEC2Error e).
Proof. by intros [[|(key & ? & _)]|[? _]]. Qed.

Lemma check_is_instance_error device_id in_vpc e :
  check_is_instance device_id in_vpc = inl e →
  e = EipError "If you are specifying an ENI, in_vpc must be true".
Proof. unfold check_is_instance. repeat case_match; congruence. Qed.

(** The [try] block of [main] lets cloud errors through (those of the tag
    reconciliation, see below) besides the uncaught exceptions. *)
Lemma main_try_block_ends F is_instance search_tags :
  (∀ f, specific f → F f) →
  ends_within (caught (uncaught module)) F
    (main_try_block ec2 module is_instance search_tags).
Proof.
  intros HF. pose proof (allows_caught _ _ (allows_uncaught F HF)) as HA.
  unfold main_try_block, ensure_ec2_tags. cbv zeta.
  ends_step; [ends_go|].
  case_bool_decide as Hstate; [ends_go|].
  destruct (truthy (param_device_id module)) eqn:Hdevice; [|ends_go].
  ends_step; [|ends_go].
  apply ensure_absent_ends; [done|]. intros Hcm _. right.
  by destruct (param_state module).
Qed.

(** What an invocation can end with, besides a verdict. *)
Lemma main_ends :
  ends_within (uncaught module) (fun _ => True) (main ec2 module).
Proof.
  unfold main. cbv zeta.
  pose proof (allows_uncaught (fun _ => True) (fun _ _ => I)) as HA.
  ends_step.
  - destruct (check_is_instance _ _) as [e'|b] eqn:Hcheck; [|ends_go].
    apply check_is_instance_error in Hcheck as ->. by ends_step.
  - ends_step; [by apply generate_tag_dict_ends|].
    ends_step; [|ends_go].
    ends_step; [by apply main_try_block_ends|]. by ends_step.
Qed.


Lemma main_try_block_cloud_error is_instance search_tags w e w' :
  main_try_block ec2 module is_instance search_tags w
    = (Raise (AnsibleEC2Error e), w') →
  param_state module = present ∧
  ∃ w1 id,
    let tagging :=
      EnsureEc2Tags (EnsureTagsArgs id "elastic-ip" (param_tags module)
                       (param_purge_tags module)) in
    ec2 tagging (cloud_state w1) = (inl e, cloud_state w') ∧
    trace w' = (trace w1 ++ [tagging])%list.
Proof.
  pose proof (allows_uncaught specific (fun _ H => H)) as HA.
  assert (Hquiet : ∀ A (m : M cloud A) w0 w0',
            ends_within (uncaught module) specific m →
            m w0 = (Raise (AnsibleEC2Error e), w0') → False).
  { intros A m w0 w0' Hm Hrun. specialize (Hm w0). rewrite Hrun in Hm.
    by apply uncaught_not_cloud_error in Hm. }
  unfold main_try_block. cbv zeta. intros Hrun.
  apply bind_Raise_inv in Hrun as [Hrun|(address & w1 & _ & Hrun)].
  { exfalso. revert Hrun. apply Hquiet. ends_go. }
  destruct (bool_decide (param_state module = present)) eqn:Hstate.
  2:{ exfalso. revert Hrun. apply Hquiet.
      apply bool_decide_eq_false_1 in Hstate.
      destruct (truthy (param_device_id module)) eqn:Hdevice; [|ends_go].
      ends_step; [|ends_go].
      apply ensure_absent_ends; [done|]. intros Hcm _. right.
      by destruct (param_state module). }
  apply bool_decide_eq_true_1 in Hstate. split; [done|].
  apply bind_Raise_inv in Hrun as [Hrun|(result & w2 & _ & Hrun)].
  { exfalso. revert Hrun. apply Hquiet. ends_go. }
  apply bind_Raise_inv in Hrun as [Hrun|(c & w3 & _ & Hrun)]; [|discriminate].
  exists w2, (the_str (allocation_id result)). cbv zeta.
  unfold ensure_ec2_tags, invoke in Hrun.
  destruct (ec2 _ (cloud_state w2)) as [[e'|v] s']; [|discriminate].
  by injection Hrun as -> <-.
Qed.

(** X13. The generic report [fail_json_aws_error] is reached by one call
    alone.  If an invocation ends with it, the desired state is [present],
    the last call made is the tag reconciliation of an [elastic-ip] with
    the [tags] and [purge_tags] parameters, and the error reported is the
    cloud's answer to that call.  The error of every other call is
    reported with a message of the module. *)
Theorem generic_failure_is_tagging w e w' :
  main ec2 module w = (FailJson (fail_json_aws_error e), w') →
  param_state module = present ∧
  ∃ w1 id,
    let tagging :=
      EnsureEc2Tags (EnsureTagsArgs id "elastic-ip" (param_tags module)
                       (param_purge_tags module)) in
    ec2 tagging (cloud_state w1) = (inl e, cloud_state w') ∧
    trace w' = (trace w1 ++ [tagging])%list.
Proof.
  unfold main. cbv zeta. intros Hrun.
  apply bind_FailJson_inv in Hrun as [Hrun|(is_instance & w1 & _ & Hrun)].
  { destruct (check_is_instance _ _) as [[]|]; discriminate. }
  apply bind_FailJson_inv in Hrun as [Hrun|(search_tags & w2 & _ & Hrun)].
  { pose proof (generate_tag_dict_ends (uncaught module) specific
                  (param_tag_name module) (param_tag_value module)
                  (allows_uncaught specific (fun _ H => H)) w1) as Hgen.
    rewrite Hrun in Hgen. by destruct (Hgen e). }
  apply bind_FailJson_inv in Hrun as [Hrun|(result & w3 & _ & Hrun)];
    [|discriminate].
  unfold try_except in Hrun.
  pose proof (main_try_block_ends specific is_instance search_tags
                (fun _ H => H) w2) as Hbody.
  destruct (main_try_block ec2 module is_instance search_tags w2)
    as [[r|[e'| | |]|r|f] w4] eqn:Hblock; try discriminate.
  - injection Hrun as -> ->. by apply main_try_block_cloud_error in Hblock.
  - injection Hrun as -> ->. by destruct (Hbody e).
Qed.

End Endings.

(** ** Check mode *)

Section CheckMode.
Context {cloud : Type}.
Variable ec2 : ∀ c : call, cloud → (ec2_error + reply c) * cloud.


End CheckMode.

(** ** The payload of a successful exit *)

Section Payload.
Context {cloud : Type}.
Variable ec2 : ∀ c : call, cloud → (ec2_error + reply c) * cloud.
Variable module : AnsibleAWSModule.

(** X14. The keys of the payload depend on the desired state alone.  With
    [state=present] there is no [disassociated] and no [released], and
    [public_ip] and [allocation_id] come together or not at all.  With
    [state=absent] there is no address identity, [disassociated] and
    [released] are both there, and [changed] is their disjunction. *)
Theorem exit_payload_keys (w : world cloud) r :
  (main ec2 module w).1 = ExitJson r →
  match param_state module with
  | present =>
      disassociated r = None ∧ released r = None ∧
      (public_ip r = None ↔ allocation_id r = None)
  | absent =>
      public_ip r = None ∧ allocation_id r = None ∧
      ∃ d c, disassociated r = Some d ∧ released r = Some c ∧
             changed r = d || c
  end.
Proof.
  intros Hrun.
  destruct (main_ok ec2 module (fun _ => True)) with (w := w)
    as (l & _ & _ & Hout); try done.
  rewrite Hrun in Hout. cbn [outcome_ok] in Hout.
  destruct Hout as [Hs|c Hs|c ip alloc Hs|c Hs _ _|d Hs _|c Hs _];
    rewrite Hs; cbn [disassociated released public_ip allocation_id changed
                     only_changed];
    try done; (split; [done|]); (split; [done|]).
  - by exists false, false.
  - by exists true, c.
  - exists d, false. by rewrite orb_false_r.
  - by exists false, c.
Qed.

End Payload.

(** ** The association manager *)

Section AssociationManager.
Context {cloud : Type}.
Variable ec2 : ∀ c : call, cloud → (ec2_error + reply c) * cloud.
Variable module : AnsibleAWSModule.

Lemma spec_try_invoke c (f : ec2_error → failure) :
  spec (try_except (invoke ec2 c) (fun e => fail (f e))) (fun _ l => l = [c]).
Proof.
  intros w. exists [c]. unfold try_except, invoke.
  by destruct (ec2 c (cloud_state w)) as [[e|v] s'].
Qed.

Ltac spec_try_invoke :=
  lazymatch goal with
  | |- spec (try_except (invoke _ ?c) (fun e => fail (@?f e))) _ =>
      apply (spec_try_invoke c f)
  end.

(** X15. [associate_ip_and_device] first asks the locator whether the
    address is already bound to the device.  It then either stops there
    (and answers [True] only in check mode), or, outside check mode, makes
    exactly one associate call, as its last call.  That call names the
    device under the key of its kind, and targets the address by public IP
    for an instance outside the vpc domain and by allocation id in every
    other case, never by both. *)
Theorem associate_ip_and_device_calls address private_ip_address device_id
    allow_reassociation is_instance :
  spec (associate_ip_and_device ec2 module address private_ip_address device_id
          allow_reassociation is_instance)
    (fun o l =>
       (Forall is_describe l ∧ (o = Return true → check_mode module = true)) ∨
       (check_mode module = false ∧
        ∃ ds params,
          l = (ds ++ [AssociateAddress params])%list ∧ Forall is_describe ds ∧
          associates address private_ip_address device_id allow_reassociation
            is_instance params)).
Proof.
  unfold associate_ip_and_device.
  eapply spec_bind;
    [apply address_is_associated_with_device_describes|..]; simpl;
    try (intros; left; split; [done|discriminate]).
  intros associated l1 Hl1.
  destruct associated.
  { apply spec_ret. rewrite app_nil_r. left. split; [done|discriminate]. }
  destruct (check_mode module) eqn:Hcm; cbn [negb].
  { eapply (spec_bind _ _ (fun o l => l = [] ∧ o = Return tt));
      [by apply spec_ret|..]; simpl; try (by intros ? ? [_ ?]).
    intros _ l2 [-> _]. apply spec_ret. rewrite !app_nil_r. left. done. }
  assert (Hdone : ∀ (o : outcome bool) params,
    associates address private_ip_address device_id allow_reassociation
      is_instance params →
    (Forall is_describe (l1 ++ [AssociateAddress params]) ∧
     (o = Return true → false = true)) ∨
    (false = false ∧
     ∃ ds params',
       (l1 ++ [AssociateAddress params])%list
       = (ds ++ [AssociateAddress params'])%list ∧
       Forall is_describe ds ∧
       associates address private_ip_address device_id allow_reassociation
         is_instance params')).
  { intros o params Hparams. right. split; [done|]. by exists l1, params. }
  cbv zeta.
  eapply (spec_bind _ _ (fun _ l => ∃ params,
            l = [AssociateAddress params] ∧
            associates address private_ip_address device_id
              allow_reassociation is_instance params)); simpl.
  - eapply (spec_bind _ _ (fun _ l => ∃ params,
              l = [AssociateAddress params] ∧
              associates address private_ip_address device_id
                allow_reassociation is_instance params)); simpl.
    + unfold associate_address.
      destruct is_instance.
      * eapply spec_mono; [spec_try_invoke|]. simpl.
        intros _ l ->. eexists. split; [reflexivity|].
        unfold associates. cbn [device_key negb andb].
        destruct (truthy private_ip_address); case_bool_decide; cbn [negb];
          repeat split;
          by rewrite ?lookup_insert_eq, ?lookup_insert_ne, ?lookup_empty by done.
      * eapply spec_mono; [spec_try_invoke|]. simpl.
        intros _ l ->. eexists. split; [reflexivity|].
        unfold associates. cbn [device_key negb andb].
        destruct (truthy private_ip_address);
          repeat split;
          by rewrite ?lookup_insert_eq, ?lookup_insert_ne, ?lookup_empty by done.
    + intros res l2 Hl2.
      destruct (negb (dict_truthy res)); [apply spec_fail|apply spec_ret];
        by rewrite app_nil_r.
    + auto.
    + auto.
    + auto.
  - intros _ l2 (params & -> & Hparams). apply spec_ret. rewrite app_nil_r.
    by apply Hdone.
  - intros e l2 (params & -> & Hparams). by apply Hdone.
  - intros r l2 (params & -> & Hparams). by apply Hdone.
  - intros f l2 (params & -> & Hparams). by apply Hdone.
Qed.

(** X30. Outside check mode, [associate_ip_and_device] answers [True] only
    after an associate call that the cloud answered with a non-empty
    reply: that call is the last one made, it names the device and targets
    the address as [associates] says, and a refused call or an empty reply
    never counts as an association. *)
Theorem associate_ip_and_device_sound address private_ip_address device_id
    allow_reassociation is_instance (w w' : world cloud) :
  check_mode module = false →
  associate_ip_and_device ec2 module address private_ip_address device_id
    allow_reassociation is_instance w = (Return true, w') →
  ∃ params res w1,
    associates address private_ip_address device_id allow_reassociation
      is_instance params ∧
    ec2 (AssociateAddress params) (cloud_state w1) = (inr res, cloud_state w') ∧
    dict_truthy res = true ∧
    trace w' = (trace w1 ++ [AssociateAddress params])%list.
Proof.
  intros Hcm Hrun. unfold associate_ip_and_device in Hrun. cbv zeta in Hrun.
  apply bind_Return_inv in Hrun as (associated & w1 & _ & Hrun).
  destruct associated; [unfold ret in Hrun; by simplify_eq|].
  rewrite Hcm in Hrun. cbn [negb] in Hrun.
  apply bind_Return_inv in Hrun as ([] & w2 & Hcall & Hret).
  unfold ret in Hret. injection Hret as ->.
  apply bind_Return_inv in Hcall as (res & w3 & Hinvoke & Hres).
  destruct (dict_truthy res) eqn:Hanswer; cbn [negb] in Hres; [|discriminate].
  unfold ret in Hres. injection Hres as ->.
  assert (Hfail : ∀ (f : ec2_error → failure) e (w0 : world cloud),
            (fail (A := pydict) (f e) w0).1 ≠ Return res) by done.
  destruct is_instance.
  - apply try_except_Return_inv in Hinvoke; [|apply Hfail].
    unfold associate_address, invoke in Hinvoke.
    destruct (ec2 _ (cloud_state w1)) as [[e|v] s'] eqn:Hq; [discriminate|].
    injection Hinvoke as -> <-.
    refine (ex_intro _ _ (ex_intro _ res (ex_intro _ w1
              (conj _ (conj Hq (conj Hanswer eq_refl)))))).
    unfold associates. cbn [device_key negb andb].
    destruct (truthy private_ip_address); case_bool_decide; cbn [negb];
      repeat split;
      by rewrite ?lookup_insert_eq, ?lookup_insert_ne, ?lookup_empty by done.
  - apply try_except_Return_inv in Hinvoke; [|apply Hfail].
    unfold associate_address, invoke in Hinvoke.
    destruct (ec2 _ (cloud_state w1)) as [[e|v] s'] eqn:Hq; [discriminate|].
    injection Hinvoke as -> <-.
    refine (ex_intro _ _ (ex_intro _ res (ex_intro _ w1
              (conj _ (conj Hq (conj Hanswer eq_refl)))))).
    unfold associates. cbn [device_key negb andb].
    destruct (truthy private_ip_address);
      repeat split;
      by rewrite ?lookup_insert_eq, ?lookup_insert_ne, ?lookup_empty by done.
Qed.


End AssociationManager.

(** ** The allocator, continued *)

Section AllocatorUse.
Context {cloud : Type}.
Variable ec2 : ∀ c : call, cloud → (ec2_error + reply c) * cloud.
Variable module : AnsibleAWSModule.
Implicit Types w : world cloud.

Lemma instance_ids_present_or_missing (l : list pydict) :
  Forall (fun a => is_Some (a !! "InstanceId")) l ∨
  Exists (fun a => a !! "InstanceId" = None) l.
Proof.
  induction l as [|a l [IH|IH]]; [by left| |by right; right].
  destruct (a !! "InstanceId") eqn:Ha; [left|right; by left].
  constructor; [by rewrite Ha|done].
Qed.

Lemma filter_head_In {A} (p : A → bool) l a rest :
  List.filter p l = a :: rest → In a l ∧ p a = true.
Proof.
  intros Hf. apply filter_In. rewrite Hf. by left.
Qed.

(** Without reuse the allocator makes no call in check mode and exactly
    one allocate call otherwise, and it returns an address exactly when it
    has made the call. *)
Lemma allocate_address_fresh domain cm tags search_tags public_ipv4_pool w :
  let run := allocate_address ec2 module domain false cm tags search_tags
               public_ipv4_pool w in
  let request := AllocateAddress (allocate_request domain tags public_ipv4_pool) in
  (cm = true ∧ run = (Return (None, true), w)) ∨
  (cm = false ∧
   trace run.2 = (trace w ++ [request])%list ∧
   ((∃ a, run.1 = Return (Some a, true)) ∨ (∃ f, run.1 = FailJson f))).
Proof.
  unfold allocate_address, allocate_address_from_pool, allocate_ip_address,
    allocate_request, allocator_domain.
  cbv zeta.
  destruct (truthy public_ipv4_pool) eqn:Hpool.
  - destruct public_ipv4_pool as [pool|]; [|discriminate].
    rewrite !bool_decide_eq_true_2 by done.
    destruct cm; [by left|right]. split; [done|].
    unfold bind, try_except, invoke, ret, fail.
    destruct (optdict_truthy tags);
      cbn [Domain PublicIpv4Pool TagSpecifications];
      destruct (ec2 _ (cloud_state w)) as [[e|a] s']; cbn [fst snd trace]; eauto.
  - destruct cm; [by left|right]. split; [done|].
    unfold bind, try_except, invoke, ret, fail. cbn [negb].
    destruct (optdict_truthy tags);
      cbn [Domain PublicIpv4Pool TagSpecifications];
      destruct (ec2 _ (cloud_state w)) as [[e|a] s']; cbn [fst snd trace]; eauto.
Qed.

Lemma allocate_address_scan_error domain cm tags search_tags public_ipv4_pool
    w e s' :
  ec2 (DescribeAddresses (reuse_kwargs domain search_tags)) (cloud_state w)
    = (inl e, s') →
  allocate_address ec2 module domain true cm tags search_tags public_ipv4_pool w
  = (FailJson (fail_json_aws e
       "Couldn't obtain list of existing Elastic IP addresses"),
     World s' (trace w ++ [DescribeAddresses (reuse_kwargs domain search_tags)])).
Proof.
  intros Hq. pose proof (invoke_inl ec2 _ _ _ _ Hq) as Hi.
  unfold reuse_kwargs, allocator_domain in Hi |- *.
  unfold allocate_address, describe_addresses. cbv zeta.
  rewrite bind_assoc. apply bind_FailJson.
  unfold try_except. by rewrite Hi.
Qed.

(** With reuse, once the listing is answered: an unassociated address of
    the listing is returned, or the scan raises, or the allocator goes on
    as it does without reuse. *)
Lemma allocate_address_scan_cases domain cm tags search_tags public_ipv4_pool
    w all_addresses s' :
  ec2 (DescribeAddresses (reuse_kwargs domain search_tags)) (cloud_state w)
    = (inr all_addresses, s') →
  let run := allocate_address ec2 module domain true cm tags search_tags
               public_ipv4_pool w in
  let w1 :=
    World s' (trace w ++ [DescribeAddresses (reuse_kwargs domain search_tags)]) in
  (∃ a, In a all_addresses ∧ unassociated (allocator_domain domain) a = true ∧
        run = (Return (Some a, false), w1)) ∨
  run = (Raise (KeyError "InstanceId"), w1) ∨
  run = allocate_address ec2 module domain false cm tags search_tags
          public_ipv4_pool w1.
Proof.
  intros Hq run w1.
  destruct (String.eqb (allocator_domain domain) "vpc") eqn:Hd.
  - subst run. rewrite (allocate_address_scan_total _ _ _ _ _ _ _ _ _ _ Hq)
      by (by left).
    destruct (List.filter _ all_addresses) as [|a rest] eqn:Hf; [by right; right|].
    left. exists a. destruct (filter_head_In _ _ _ _ Hf). done.
  - destruct (instance_ids_present_or_missing all_addresses) as [Hall|Hmissing].
    + subst run. rewrite (allocate_address_scan_total _ _ _ _ _ _ _ _ _ _ Hq)
        by (by right).
      destruct (List.filter _ all_addresses) as [|a rest] eqn:Hf;
        [by right; right|].
      left. exists a. destruct (filter_head_In _ _ _ _ Hf). done.
    + right. left. subst run.
      rewrite (allocate_address_scan _ _ _ _ _ _ _ _ _ _ Hq), Hd.
      by apply bind_Raise, list_comprehension_key_error.
Qed.

(** X16. What the allocator returns tells what it did.  [changed] is false
    only for a reused address: reuse was allowed, and the address is one of
    the listing that counts as unassociated in the domain.  And there is no
    address to return only in check mode, with [changed] true: outside
    check mode a returned [changed] always comes with an address. *)
Theorem allocate_address_result domain reuse cm tags search_tags
    public_ipv4_pool w address changed w' :
  allocate_address ec2 module domain reuse cm tags search_tags
    public_ipv4_pool w = (Return (address, changed), w') →
  (changed = false →
     reuse = true ∧
     ∃ a all_addresses,
       address = Some a ∧ In a all_addresses ∧
       unassociated (allocator_domain domain) a = true ∧
       (ec2 (DescribeAddresses (reuse_kwargs domain search_tags))
          (cloud_state w)).1 = inr all_addresses) ∧
  (address = None → cm = true ∧ changed = true).
Proof.
  assert (Hfresh : ∀ w0,
    allocate_address ec2 module domain false cm tags search_tags
      public_ipv4_pool w0 = (Return (address, changed), w') →
    changed = true ∧ (address = None → cm = true)).
  { intros w0 Hrun.
    destruct (allocate_address_fresh domain cm tags search_tags
                public_ipv4_pool w0) as [[-> Hr]|(-> & _ & [[a Hr]|[f Hr]])];
      rewrite Hrun in Hr; cbn [fst] in Hr; by simplify_eq. }
  destruct reuse.
  2:{ intros [-> Hnone]%Hfresh. split; [done|]. auto. }
  destruct (ec2 (DescribeAddresses (reuse_kwargs domain search_tags))
              (cloud_state w)) as [[e|all_addresses] s'] eqn:Hq.
  { by rewrite (allocate_address_scan_error _ _ _ _ _ _ _ _ Hq). }
  destruct (allocate_address_scan_cases domain cm tags search_tags
              public_ipv4_pool w all_addresses s' Hq)
    as [(a & Hin & Ha & ->)|[->| ->]]; [| |].
  - intros [= <- <- <-]. split; [|done]. intros _. split; [done|].
    by exists a, all_addresses.
  - discriminate.
  - intros [-> Hnone]%Hfresh. split; [done|]. auto.
Qed.

(** X17. The calls of the allocator: the listing of the reuse scan first,
    when (and only when) reuse is allowed; then at most one allocate call,
    outside check mode only.  Whether it goes to a pool or not, the
    allocate call names the domain ([standard] unless a domain is given),
    the pool if there is one, and the tags if there are some. *)
Theorem allocate_address_calls domain reuse cm tags search_tags
    public_ipv4_pool :
  spec (allocate_address ec2 module domain reuse cm tags search_tags
          public_ipv4_pool)
    (fun o l =>
       ∃ allocation,
         l = ((if reuse
               then [DescribeAddresses (reuse_kwargs domain search_tags)]
               else []) ++ allocation)%list ∧
         (allocation = [] ∨
          cm = false ∧
          allocation = [AllocateAddress
                          (allocate_request domain tags public_ipv4_pool)])).
Proof.
  assert (Hfresh : ∀ w0, ∃ allocation,
    trace (allocate_address ec2 module domain false cm tags search_tags
             public_ipv4_pool w0).2 = (trace w0 ++ allocation)%list ∧
    (allocation = [] ∨
     cm = false ∧
     allocation = [AllocateAddress
                     (allocate_request domain tags public_ipv4_pool)])).
  { intros w0.
    destruct (allocate_address_fresh domain cm tags search_tags
                public_ipv4_pool w0) as [[-> ->]|(-> & Ht & _)].
    - exists []. by rewrite app_nil_r; auto.
    - eexists. split; [exact Ht|]. auto. }
  intros w. destruct reuse.
  2:{ destruct (Hfresh w) as (allocation & Ht & Hal).
      exists allocation. split; [done|]. by exists allocation. }
  destruct (ec2 (DescribeAddresses (reuse_kwargs domain search_tags))
              (cloud_state w)) as [[e|all_addresses] s'] eqn:Hq.
  { rewrite (allocate_address_scan_error _ _ _ _ _ _ _ _ Hq).
    eexists. split; [reflexivity|]. exists []. by rewrite app_nil_r; auto. }
  destruct (allocate_address_scan_cases domain cm tags search_tags
              public_ipv4_pool w all_addresses s' Hq)
    as [(a & _ & _ & ->)|[->| ->]].
  - eexists. split; [reflexivity|]. exists []. by rewrite app_nil_r; auto.
  - eexists. split; [reflexivity|]. exists []. by rewrite app_nil_r; auto.
  - destruct (Hfresh (World s' (trace w ++
                [DescribeAddresses (reuse_kwargs domain search_tags)])))
      as (allocation & Ht & Hal).
    exists ([DescribeAddresses (reuse_kwargs domain search_tags)] ++ allocation)%list.
    split; [by rewrite Ht, app_assoc|]. by exists allocation.
Qed.

End AllocatorUse.

(** ** [state=present]: an instance that is not found, and check mode *)

Section PresentEdges.
Context {cloud : Type}.
Variable ec2 : ∀ c : call, cloud → (ec2_error + reply c) * cloud.
Variable module : AnsibleAWSModule.
Implicit Types w : world cloud.

(** X18. [ensure_present] for an instance with reuse allowed reads
    [instance["VpcId"]] without checking that the instance was found: when
    the reply to the instance query is not exactly one reservation of one
    instance, the invocation dies of the uncaught [TypeError], right after
    that query and before any associate call. *)
Theorem ensure_present_unknown_instance domain a private_ip_address device_id
    allow_reassociation cm tags w reservations s' :
  dict_truthy a = true → truthy device_id = true →
  ec2 (DescribeInstances [the_str device_id]) (cloud_state w)
    = (inr reservations, s') →
  no_single_instance reservations →
  ensure_present ec2 module domain (Some a) private_ip_address device_id
    true allow_reassociation cm tags true w
  = (Raise not_subscriptable,
     World s' (trace w ++ [DescribeInstances [the_str device_id]])).
Proof.
  intros Ha Hdev Hq Hnone. unfold ensure_present. cbv zeta.
  cbn [optdict_truthy]. rewrite Ha, Hdev. cbn [negb].
  rewrite bind_ret. apply bind_Raise.
  unfold bind at 1.
  assert (find_device ec2 module device_id true w
          = (Return None,
             World s' (trace w ++ [DescribeInstances [the_str device_id]])))
    as ->.
  { unfold find_device, describe_instances. cbv zeta.
    unfold bind, try_except. rewrite (invoke_inr ec2 _ _ _ _ Hq).
    destruct reservations as [|r [|]]; try done.
    cbn [no_single_instance] in Hnone.
    by destruct (Instances r) as [|i [|]]. }
  reflexivity.
Qed.

(** X19. In check mode, [state=present] for a device whose address the
    locator does not find: the invocation reports [changed = True] and
    nothing else, and it stops there.  Nothing follows the locator's query,
    not even the tag reconciliation. *)
Theorem check_mode_present_device_unlocated w is_instance w1 :
  check_mode module = true → param_state module = present →
  truthy (param_device_id module) = true →
  check_is_instance (param_device_id module) (param_in_vpc module)
    = inr is_instance →
  (truthy (param_tag_value module) = true →
   truthy (param_tag_name module) = true) →
  find_address ec2 module (param_public_ip module) (param_device_id module)
    is_instance w = (Return None, w1) →
  main ec2 module w = (ExitJson (only_changed true), w1).
Proof.
  intros Hcm Hstate Hdev Hcheck Htags Hfind.
  destruct (generate_tag_dict_Return module Htags w) as [search_tags Hgen].
  unfold main. cbv zeta. rewrite Hcheck, bind_ret.
  unfold bind at 1. rewrite Hgen.
  apply bind_ExitJson, try_except_ExitJson.
  unfold main_try_block. cbv zeta. rewrite Hdev, Hstate, Hcm.
  unfold bind at 1. rewrite Hfind.
  rewrite bool_decide_eq_true_2 by done.
  reflexivity.
Qed.

End PresentEdges.

(** ** The Lambda layer listing, continued *)

Section LayerRecords.
Import LambdaLayerInfo.
Implicit Types (d : layer) (key k : key).

Lemma get_None key d : key ∉ d.*1 → get key d = None.
Proof.
  induction d as [|[k v] d IH]; [done|]. cbn [get fmap list_fmap fst].
  intros Hk. apply not_elem_of_cons in Hk as [Hne Hk].
  case_bool_decide; [congruence|auto].
Qed.

Lemma pop_get key d : (pop key d).1 = get key d.
Proof.
  induction d as [|[k v] d IH]; [done|]. cbn [pop get].
  case_bool_decide; [done|].
  by destruct (pop key d).
Qed.

Lemma get_pop_eq key d : NoDup d.*1 → get key (pop key d).2 = None.
Proof.
  induction d as [|[k v] d IH]; [done|]. cbn [pop fmap list_fmap fst].
  intros [Hk Hd]%NoDup_cons. case_bool_decide as Hne; [subst k|].
  - by apply get_None.
  - specialize (IH Hd). destruct (pop key d) as [found rest].
    cbn [snd get] in *. by rewrite bool_decide_eq_false_2.
Qed.

Lemma get_pop_ne key k d : k ≠ key → get k (pop key d).2 = get k d.
Proof.
  intros Hne. induction d as [|[k' v] d IH]; [done|]. cbn [pop get].
  case_bool_decide as Hk'; [subst k'|].
  - cbn [snd]. by rewrite bool_decide_eq_false_2.
  - destruct (pop key d) as [found rest]. cbn [snd get] in *. by rewrite IH.
Qed.

Lemma get_setitem_eq key v d : get key (setitem key v d) = Some v.
Proof.
  induction d as [|[k v'] d IH]; cbn [setitem get].
  - by rewrite bool_decide_eq_true_2.
  - case_bool_decide as Hk; cbn [get].
    + by rewrite bool_decide_eq_true_2.
    + by rewrite bool_decide_eq_false_2.
Qed.

Lemma get_setitem_ne key k v d : k ≠ key → get k (setitem key v d) = get k d.
Proof.
  intros Hne. induction d as [|[k' v'] d IH]; cbn [setitem get].
  - by rewrite bool_decide_eq_false_2.
  - case_bool_decide as Hk'; [subst k'|]; cbn [get].
    + by rewrite !bool_decide_eq_false_2.
    + by rewrite IH.
Qed.

(** [d.update(other)] for a dict [other]: its entries win. *)
Lemma get_update k other d :
  NoDup other.*1 →
  get k (fold_left (fun acc kv => setitem kv.1 kv.2 acc) other d)
  = match get k other with
    | Some v => Some v
    | None => get k d
    end.
Proof.
  revert d. induction other as [|[k0 v0] other IH]; [done|].
  intros d [Hk0 Hother]%NoDup_cons. cbn [fold_left fst snd get] in Hk0 |- *.
  rewrite (IH _ Hother).
  case_bool_decide as Hne; [subst k0|].
  - by rewrite (get_None _ _ Hk0), get_setitem_eq.
  - rewrite get_setitem_ne by done. done.
Qed.

Section Merge.
Variable camel_dict_to_snake_dict : layer → layer.

(** X20. [list_layers] folds the dict under [LatestMatchingVersion] into
    each layer record.  For records as boto3 returns them, the result has
    one record per layer, in the order of the listing, and each is the
    snake-cased form of a record in which the entries of the latest version
    win over those of the layer, the other entries of the layer are kept,
    and [LatestMatchingVersion] itself is gone. *)
Theorem merge_latest_overrides layers :
  Forall layer_summary layers →
  ∃ merged,
    merge_latest camel_dict_to_snake_dict layers
      = inr (camel_dict_to_snake_dict <$> merged) ∧
    Forall2 (fun layer m =>
      ∀ k, get k m = match get k (latest_version layer) with
                     | Some v => Some v
                     | None =>
                         if bool_decide (k = "LatestMatchingVersion") then None
                         else get k layer
                     end) layers merged.
Proof.
  induction 1 as [|layer layers (Hlayer & version & Hlatest & Hversion) _
                    (merged & Hmerged & Hfields)].
  { by exists []. }
  cbn [merge_latest].
  pose proof (pop_get "LatestMatchingVersion" layer) as Hpop.
  pose proof (get_pop_eq "LatestMatchingVersion" layer Hlayer) as Hgone.
  pose proof (fun k => get_pop_ne "LatestMatchingVersion" k layer) as Hkept.
  destruct (pop "LatestMatchingVersion" layer) as [found rest].
  cbn [fst snd] in *. rewrite Hpop, Hlatest. cbn [update]. rewrite Hmerged.
  eexists (_ :: merged). split; [reflexivity|].
  constructor; [|done]. intros k.
  unfold latest_version. rewrite Hlatest, (get_update _ _ _ Hversion).
  destruct (get k version); [done|].
  case_bool_decide as Hne; [subst k|]; auto.
Qed.

Lemma merge_latest_missing before layer after :
  Forall layer_summary before →
  get "LatestMatchingVersion" layer = None →
  merge_latest camel_dict_to_snake_dict (before ++ layer :: after)
  = inl (LTypeError "'NoneType' object is not iterable").
Proof.
  intros Hbefore Hnone.
  induction Hbefore as [|first before (_ & version & Hlatest & _) _ IH];
    cbn [app merge_latest].
  - pose proof (pop_get "LatestMatchingVersion" layer) as Hpop.
    destruct (pop "LatestMatchingVersion" layer) as [found rest].
    cbn [fst] in Hpop. by rewrite Hpop, Hnone.
  - pose proof (pop_get "LatestMatchingVersion" first) as Hpop.
    destruct (pop "LatestMatchingVersion" first) as [found rest].
    cbn [fst] in Hpop. rewrite Hpop, Hlatest. cbn [update]. by rewrite IH.
Qed.

End Merge.

Section Listing.
Context {cloud : Type}.
Variable lambda_client : lambda_call → cloud → (ec2_error + list layer) * cloud.
Variable camel_dict_to_snake_dict : layer → layer.

(** X21. Without a [name] the module lists the layers, and it takes for
    granted that every one of them has a [LatestMatchingVersion]: at the
    first record without the key, [layer.update(None)] raises a
    [TypeError] that nothing catches, and the invocation ends with it
    instead of a result. *)
Theorem list_layers_needs_latest_version module (w : cloud * list lambda_call)
    before layer after s' :
  name module = None →
  lambda_client (list_layers_op (with_filters module ∅)) w.1
    = (inr (before ++ layer :: after)%list, s') →
  Forall layer_summary before →
  get "LatestMatchingVersion" layer = None →
  execute_module lambda_client camel_dict_to_snake_dict module w
  = (LRaise (LTypeError "'NoneType' object is not iterable"),
     (s', (w.2 ++ [list_layers_op (with_filters module ∅)])%list)).
Proof.
  intros Hname Hq Hbefore Hnone. unfold execute_module. cbv zeta.
  rewrite Hname, bool_decide_eq_false_2 by (intros H; by apply H).
  unfold list_layers, lbind, paginate. cbv zeta. rewrite Hq.
  by rewrite (merge_latest_missing _ _ _ _ Hbefore Hnone).
Qed.

(** X22. With a [name] (be it the empty string) the module lists the
    versions of that layer: the payload holds the snake-cased form of each
    version, in the order of the listing, and an error of the listing is
    reported by a failure that names the layer. *)
Theorem list_layer_versions_reports module (w : cloud * list lambda_call) n :
  name module = Some n →
  let request :=
    list_layer_versions_op
      (with_filters module {[ "LayerName" := PyStr n ]}) in
  (∀ versions s',
     lambda_client request w.1 = (inr versions, s') →
     execute_module lambda_client camel_dict_to_snake_dict module w
     = (LExitJson (LambdaResult false (camel_dict_to_snake_dict <$> versions)),
        (s', (w.2 ++ [request])%list))) ∧
  (∀ e s',
     lambda_client request w.1 = (inl e, s') →
     execute_module lambda_client camel_dict_to_snake_dict module w
     = (LFailJson (fail_list_layer_versions e
                     ("Unable to list layer versions for name " +:+ n)),
        (s', (w.2 ++ [request])%list))).
Proof.
  intros Hname request. subst request.
  split; intros ? s' Hq; unfold execute_module; cbv zeta;
    rewrite Hname, bool_decide_eq_true_2 by done;
    unfold list_layer_versions, lbind, paginate; cbv zeta;
    rewrite Hname; cbn [of_opt py_str]; by rewrite Hq.
Qed.

End Listing.

End LayerRecords.

(** ** The order of the calls of [state=present] *)

Section PresentOrder.
Context {cloud : Type}.
Variable ec2 : ∀ c : call, cloud → (ec2_error + reply c) * cloud.
Variable module : AnsibleAWSModule.

Lemma present_run_app s l1 l2 :
  present_run s (l1 ++ l2)
  = match present_run s l1 with
    | Some s1 => present_run s1 l2
    | None => None
    end.
Proof.
  revert s. induction l1 as [|c l1 IH]; intros s; [done|].
  cbn [app present_run]. by destruct (present_step s c).
Qed.

Lemma within_nil (a b : nat) : (a ≤ b)%nat → within a b [].
Proof. intros Hab s Hs. exists s. split; [done|lia]. Qed.

Lemma within_app a b c l1 l2 :
  within a b l1 → within b c l2 → within a c (l1 ++ l2).
Proof.
  intros H1 H2 s Hs. destruct (H1 s Hs) as (s1 & Hrun1 & Hs1).
  destruct (H2 s1 Hs1) as (s2 & Hrun2 & Hs2).
  exists s2. by rewrite present_run_app, Hrun1.
Qed.

Lemma within_mono (a b a' b' : nat) l :
  within a b l → (a' ≤ a)%nat → (b ≤ b')%nat → within a' b' l.
Proof.
  intros H Ha Hb s Hs. destruct (H s) as (s' & Hrun & Hs'); [lia|].
  exists s'. split; [done|lia].
Qed.

Lemma phase_silent {A} (a b : nat) (m : M cloud A) :
  (a ≤ b)%nat → constant m → phase a b m.
Proof.
  intros Hab [o Ho] w. exists []. rewrite Ho, app_nil_r.
  split; [done|]. by apply within_nil.
Qed.

Lemma phase_bind {A B} (a b c : nat) (m : M cloud A) (k : A → M cloud B) :
  (b ≤ c)%nat → phase a b m → (∀ x, phase b c (k x)) → phase a c (bind m k).
Proof.
  intros Hbc Hm Hk. eapply spec_bind; [exact Hm|..]; cbv beta;
    try (intros; eapply within_mono; eauto).
  intros x l1 Hl1. eapply spec_mono; [apply Hk|]. cbv beta.
  intros _ l2 Hl2. by eapply within_app.
Qed.

Lemma phase_try_except {A} a b (body : M cloud A) f :
  phase a b body → phase a b (try_except body (fun e => fail (f e))).
Proof.
  intros Hbody. eapply spec_try_except; [exact Hbody| |]; cbv beta.
  - intros e l1 Hl1. apply spec_fail. by rewrite app_nil_r.
  - auto.
Qed.

Lemma phase_mono {A} (a b a' b' : nat) (m : M cloud A) :
  phase a b m → (a' ≤ a)%nat → (b ≤ b')%nat → phase a' b' m.
Proof.
  intros Hm Ha Hb. eapply spec_mono; [exact Hm|]. cbv beta.
  intros _ l Hl. by eapply within_mono.
Qed.

Lemma phase_invoke a b c :
  within a b [c] → phase a b (invoke ec2 c).
Proof. intros Hc. apply spec_invoke; intros; exact Hc. Qed.

Lemma within_queries (b : nat) l :
  (b ≤ 1)%nat → Forall is_query l → within b b l.
Proof.
  intros Hb Hl s Hs. exists s. split; [|done].
  induction Hl as [|c l Hc _ IH]; [done|]. cbn [present_run].
  assert (Nat.leb s 1 = true) as Hle by (apply Nat.leb_le; lia).
  destruct c; try done; cbn [present_step]; by rewrite Hle.
Qed.

Lemma phase_queries {A} (b : nat) (m : M cloud A) :
  (b ≤ 1)%nat → ok is_query (fun _ => True) (fun _ => True) m → phase b b m.
Proof.
  intros Hb Hm. eapply spec_mono; [exact Hm|]. cbv beta.
  intros _ l [Hl _]. by apply within_queries.
Qed.

Lemma constant_exit_json {A} r :
  constant (cloud := cloud) (A := A) (exit_json r).
Proof. by exists (ExitJson r). Qed.

Lemma constant_list_comprehension (l : list pydict) :
  constant (cloud := cloud) (list_comprehension instance_id_is_empty l).
Proof.
  induction l as [|a l IH]; cbn [list_comprehension]; [apply constant_ret|].
  apply constant_bind.
  - unfold instance_id_is_empty. apply constant_bind;
      [apply constant_getitem|intros; apply constant_ret].
  - intros keep. apply constant_bind; [exact IH|intros; apply constant_ret].
Qed.

Ltac constant_go :=
  repeat first
    [ apply constant_ret | apply constant_fail | apply constant_raise
    | apply constant_exit_json | apply constant_getitem_opt
    | apply constant_getitem | apply constant_list_comprehension
    | apply constant_bind; [|intros]
    | match goal with
      | |- constant (if ?b then _ else _) => destruct b
      | |- constant (match ?x with _ => _ end) => destruct x
      end ].

Ltac phase_pure := apply phase_silent; [lia|constant_go].

Ltac within_call :=
  intros [|[|[|s]]] Hs; try lia; eexists; (split; [reflexivity|lia]).

Ltac phase_call :=
  lazymatch goal with
  | |- phase ?a ?b (invoke _ ?c) => apply (phase_invoke a b c); within_call
  end.

Lemma find_address_phase (b : nat) public_ip device_id is_instance :
  (b ≤ 1)%nat →
  phase b b (find_address ec2 module public_ip device_id is_instance).
Proof. intros Hb. by apply phase_queries, find_address_ok. Qed.

Lemma address_is_associated_with_device_phase (b : nat) address device_id
    is_instance :
  (b ≤ 1)%nat →
  phase b b
    (address_is_associated_with_device ec2 module address device_id is_instance).
Proof.
  intros Hb. by apply phase_queries, address_is_associated_with_device_ok.
Qed.

Lemma find_device_phase (b : nat) device_id is_instance :
  (b ≤ 1)%nat → phase b b (find_device ec2 module device_id is_instance).
Proof. intros Hb. by apply phase_queries, find_device_ok. Qed.

Lemma allocate_address_from_pool_phase domain cm public_ipv4_pool tags :
  phase 0 1
    (allocate_address_from_pool ec2 module domain cm public_ipv4_pool tags).
Proof.
  unfold allocate_address_from_pool, allocate_ip_address. cbv zeta.
  destruct cm; [phase_pure|].
  apply (phase_bind 0 1 1); [lia| |intros; phase_pure].
  apply phase_try_except. phase_call.
Qed.

Lemma allocate_address_phase domain reuse cm tags search_tags public_ipv4_pool :
  phase 0 1
    (allocate_address ec2 module domain reuse cm tags search_tags
       public_ipv4_pool).
Proof.
  unfold allocate_address, describe_addresses, allocate_ip_address. cbv zeta.
  apply (phase_bind 0 0 1); [lia| |intros reused].
  { destruct reuse; [|phase_pure].
    apply (phase_bind 0 0 0); [lia| |intros; phase_pure].
    apply phase_try_except. phase_call. }
  destruct reused; [phase_pure|].
  destruct (truthy public_ipv4_pool).
  - apply (phase_bind 0 1 1); [lia| |intros; phase_pure].
    apply allocate_address_from_pool_phase.
  - apply (phase_bind 0 1 1); [lia| |intros; phase_pure].
    apply phase_try_except. destruct cm; cbn [negb]; [phase_pure|].
    apply (phase_bind 0 1 1); [lia| |intros; phase_pure].
    phase_call.
Qed.

Lemma associate_ip_and_device_phase address private_ip_address device_id
    allow_reassociation is_instance :
  phase 1 2
    (associate_ip_and_device ec2 module address private_ip_address device_id
       allow_reassociation is_instance).
Proof.
  unfold associate_ip_and_device, associate_address. cbv zeta.
  apply (phase_bind 1 1 2); [lia| |intros associated].
  { by apply address_is_associated_with_device_phase. }
  destruct associated; [phase_pure|].
  apply (phase_bind 1 2 2); [lia| |intros; phase_pure].
  destruct (check_mode module); cbn [negb]; [phase_pure|].
  apply (phase_bind 1 2 2); [lia| |intros; phase_pure].
  destruct is_instance; apply phase_try_except; phase_call.
Qed.

Lemma ensure_present_phase domain address private_ip_address device_id reuse
    allow_reassociation cm tags is_instance :
  phase 0 2
    (ensure_present ec2 module domain address private_ip_address device_id
       reuse allow_reassociation cm tags is_instance).
Proof.
  unfold ensure_present. cbv zeta.
  apply (phase_bind 0 1 2); [lia| |intros allocated].
  { destruct (negb (optdict_truthy address)); [|phase_pure].
    destruct cm; [phase_pure|].
    apply (phase_bind 0 1 1); [lia| |intros; phase_pure].
    apply allocate_address_phase. }
  destruct allocated as [early|[address' changed']]; [phase_pure|].
  apply (phase_bind 1 2 2); [lia| |intros; phase_pure].
  destruct (truthy device_id); [|phase_pure].
  destruct is_instance.
  - apply (phase_bind 1 1 2); [lia| |intros instance].
    { by apply find_device_phase. }
    apply (phase_bind 1 1 2); [lia|phase_pure|intros].
    apply (phase_bind 1 2 2); [lia| |intros; phase_pure].
    apply associate_ip_and_device_phase.
  - apply (phase_bind 1 1 2); [lia| |intros instance].
    { by apply find_device_phase. }
    apply (phase_bind 1 2 2); [lia| |intros; phase_pure].
    apply associate_ip_and_device_phase.
Qed.

Lemma main_try_block_phase is_instance search_tags :
  param_state module = present →
  phase 0 3 (main_try_block ec2 module is_instance search_tags).
Proof.
  intros Hstate. unfold main_try_block, ensure_ec2_tags. cbv zeta.
  rewrite Hstate, bool_decide_eq_true_2 by done.
  apply (phase_bind 0 0 3); [lia| |intros address].
  { destruct (truthy (param_device_id module)); apply find_address_phase; lia. }
  apply (phase_bind 0 2 3); [lia| |intros result].
  - destruct (truthy (param_device_id module)).
    + apply (phase_bind 0 2 2); [lia| |intros; phase_pure].
      apply ensure_present_phase.
    + destruct (optdict_truthy address); [phase_pure|].
      apply (phase_bind 0 1 2); [lia| |intros [address' changed']; phase_pure].
      apply allocate_address_phase.
  - apply (phase_bind 2 3 3); [lia| |intros; phase_pure].
    phase_call.
Qed.

(** X24. With [state=present] the calls of an invocation come in one
    order, whatever the cloud answers: queries; at most one allocate call,
    before any other change; more queries; at most one associate call; and
    at most one tag reconciliation, after which nothing is called.  There
    is no disassociate and no release call. *)
Theorem present_call_order (w : world cloud) :
  param_state module = present →
  ∃ l s, trace (main ec2 module w).2 = (trace w ++ l)%list ∧
         present_run 0 l = Some s.
Proof.
  intros Hstate.
  assert (phase 0 3 (main ec2 module)) as Hmain.
  { unfold main. cbv zeta.
    apply (phase_bind 0 0 3); [lia| |intros is_instance].
    { destruct (check_is_instance _ _) as [[]|]; phase_pure. }
    apply (phase_bind 0 0 3); [lia| |intros search_tags].
    { apply phase_silent; [lia|]. apply generate_tag_dict_const. }
    apply (phase_bind 0 3 3); [lia| |intros; phase_pure].
    by apply phase_try_except, main_try_block_phase. }
  destruct (Hmain w) as (l & Hl & Hrun).
  destruct (Hrun 0) as (s & Hs & _); [lia|]. by exists l, s.
Qed.

End PresentOrder.

(** ** Which parameters matter *)

Section SearchParameters.
Context {cloud : Type}.
Variable ec2 : ∀ c : call, cloud → (ec2_error + reply c) * cloud.
Variable module : AnsibleAWSModule.

Lemma main_try_block_search tag_name tag_value public_ipv4_pool is_instance
    search_tags search_tags' (w : world cloud) :
  truthy (param_device_id module) = true ∨ param_state module = absent →
  main_try_block ec2 (with_search module tag_name tag_value public_ipv4_pool)
    is_instance search_tags' w
  = main_try_block ec2 module is_instance search_tags w.
Proof.
  intros Hcase. unfold main_try_block. cbv zeta.
  cbn [with_search param_device_id param_public_ip param_state param_in_vpc
       param_reuse_existing_ip_allowed param_release_on_disassociation
       param_allow_reassociation param_private_ip_address param_tags
       param_purge_tags param_public_ipv4_pool check_mode].
  destruct Hcase as [Hdev|Hstate].
  - rewrite Hdev. reflexivity.
  - rewrite Hstate, !bool_decide_eq_false_2 by done. reflexivity.
Qed.

(** X25. [tag_name], [tag_value] and [public_ipv4_pool] matter only for
    [state=present] without a device id.  With a device id, or with
    [state=absent], an invocation is the same whatever their values (as
    long as a [tag_value] comes with a [tag_name]): the address for a device
    is reused or allocated without the tag filter and never from the
    pool. *)
Theorem search_parameters_ignored tag_name tag_value public_ipv4_pool
    (w : world cloud) :
  truthy (param_device_id module) = true ∨ param_state module = absent →
  (truthy (param_tag_value module) = true →
   truthy (param_tag_name module) = true) →
  (truthy tag_value = true → truthy tag_name = true) →
  main ec2 (with_search module tag_name tag_value public_ipv4_pool) w
  = main ec2 module w.
Proof.
  intros Hcase Htags Htags'.
  destruct (generate_tag_dict_Return module Htags w) as [search_tags Hgen].
  destruct (generate_tag_dict_Return
              (with_search module tag_name tag_value public_ipv4_pool)
              Htags' w) as [search_tags' Hgen'].
  unfold main. cbv zeta.
  cbn [with_search param_device_id param_in_vpc param_tag_name
       param_tag_value] in Hgen' |- *.
  destruct (check_is_instance _ _) as [e|is_instance];
    [by destruct e|].
  rewrite !bind_ret.
  unfold bind at 1 3.
  change (generate_tag_dict
            (with_search module tag_name tag_value public_ipv4_pool))
    with (generate_tag_dict (cloud := cloud) module) in Hgen' |- *.
  rewrite Hgen, Hgen'.
  unfold bind, try_except.
  by rewrite (main_try_block_search _ _ _ _ search_tags search_tags').
Qed.

End SearchParameters.

(** ** Reuse without a device *)

Section ReuseWithoutDevice.
Context {cloud : Type}.
Variable ec2 : ∀ c : call, cloud → (ec2_error + reply c) * cloud.
Variable module : AnsibleAWSModule.
Implicit Types w : world cloud.

(** X26. [state=present] with neither a device id nor a public IP, with
    reuse allowed: the reuse scan lists the addresses of the domain
    narrowed by the search tags that [generate_tag_dict] made of
    [tag_name] and [tag_value]; when the listing holds an unassociated
    address, the first one is handed to the tag reconciliation and reported
    with its identity.  Nothing is allocated, and [changed] is the answer
    of the tag reconciliation. *)
Theorem present_reuses_listed w search_tags all_addresses s1
    before a after ip alloc tags_changed s2 :
  truthy (param_device_id module) = false →
  param_state module = present → param_public_ip module = None →
  param_reuse_existing_ip_allowed module = true →
  generate_tag_dict module (param_tag_name module) (param_tag_value module) w
    = (Return search_tags, w) →
  let domain := if param_in_vpc module then Some "vpc" else None in
  let listing := DescribeAddresses (reuse_kwargs domain search_tags) in
  let tagging :=
    EnsureEc2Tags (EnsureTagsArgs alloc "elastic-ip" (param_tags module)
                     (param_purge_tags module)) in
  ec2 listing (cloud_state w) = (inr all_addresses, s1) →
  param_in_vpc module = true ∨
    Forall (fun a => is_Some (a !! "InstanceId")) all_addresses →
  all_addresses = (before ++ a :: after)%list →
  Forall (fun b => unassociated (allocator_domain domain) b = false) before →
  unassociated (allocator_domain domain) a = true →
  a !! "PublicIp" = Some ip → a !! "AllocationId" = Some alloc →
  ec2 tagging s1 = (inr tags_changed, s2) →
  main ec2 module w =
    (ExitJson (Result tags_changed (Some ip) (Some alloc) None None),
     World s2 (trace w ++ [listing; tagging])).
Proof.
  intros Hdev Hstate Hip Hreuse Hgen domain listing tagging Hq Hfields ->
    Hbefore Ha Hpub Hid Htag.
  subst listing tagging.
  unfold main. cbv zeta. unfold check_is_instance. rewrite Hdev. cbn [negb].
  rewrite bind_ret. unfold bind at 1. rewrite Hgen.
  unfold bind at 1, try_except at 1.
  unfold main_try_block. cbv zeta. fold domain.
  rewrite Hdev, Hip, Hstate, Hreuse.
  unfold bind at 1.
  rewrite (find_address_no_query ec2 module None None true w eq_refl).
  rewrite bool_decide_eq_true_2 by done.
  cbn [optdict_truthy].
  unfold bind at 1, bind at 1.
  rewrite (allocate_address_scan_total _ _ _ _ _ _ _ _ _ _ Hq).
  2:{ destruct Hfields as [Hvpc|Hall]; [left|by right].
      subst domain. by rewrite Hvpc. }
  rewrite (filter_first _ _ _ _ Hbefore Ha).
  cbn [optdict_truthy]. rewrite (dict_truthy_lookup _ _ _ Hpub).
  unfold bind at 1. rewrite (getitem_opt_lookup _ _ _ _ Hpub).
  unfold bind at 1. rewrite (getitem_opt_lookup _ _ _ _ Hid).
  cbn [ret allocation_id the_str default from_option id].
  unfold bind at 1, ensure_ec2_tags.
  rewrite (invoke_inr ec2 _
             (World s1 (trace w ++
                [DescribeAddresses (reuse_kwargs domain search_tags)]))
             _ _ Htag).
  cbn [ret exit_json trace or_changed changed orb]. by rewrite <- app_assoc.
Qed.

End ReuseWithoutDevice.

(** ** [state=absent] twice *)

Section AbsentTwice.
Context {cloud : Type}.
Variable ec2 : ∀ c : call, cloud → (ec2_error + reply c) * cloud.
Variable module : AnsibleAWSModule.

(** What the second run relies on: the query by public IP leaves the cloud
    as it is, and an address that has been released is no longer listed. *)
Hypothesis query_is_pure :
  ∀ ip s, (ec2 (DescribeAddresses (by_ip ip)) s).2 = s.
Hypothesis released_is_forgotten :
  ∀ id s s' ip a,
    ec2 (ReleaseAddress id) s = (inr true, s') →
    (ec2 (DescribeAddresses (by_ip ip)) s).1 = inr [a] →
    a !! "AllocationId" = Some id →
    (ec2 (DescribeAddresses (by_ip ip)) s').1 = inr [].

Lemma query_run ip s addresses :
  (ec2 (DescribeAddresses (by_ip ip)) s).1 = inr addresses →
  ec2 (DescribeAddresses (by_ip ip)) s = (inr addresses, s).
Proof.
  intros Hq. pose proof (query_is_pure ip s) as Hs.
  destruct (ec2 (DescribeAddresses (by_ip ip)) s) as [r s'].
  cbn [fst snd] in *. by subst.
Qed.

Lemma find_address_kwargs_by_ip ip :
  str_truthy ip = true →
  find_address_kwargs (Some ip) None true = Some (by_ip ip).
Proof.
  intros Hip. unfold find_address_kwargs. cbv zeta. cbn [truthy].
  by rewrite Hip.
Qed.

(** X27. Releasing is idempotent.  For [state=absent] with a public IP and
    no device id, outside check mode, against a cloud whose query by public
    IP changes nothing and which no longer lists an address once released:
    if a first run exits with [released = True], a second run with the same
    parameters from the cloud that the first one left makes the locator's
    query alone, leaves the cloud as it is, and exits with [changed],
    [disassociated] and [released] all false. *)
Theorem absent_released_idempotent s0 t0 ip a r1 s1 t1 :
  param_state module = absent → check_mode module = false →
  truthy (param_device_id module) = false →
  param_public_ip module = Some ip → str_truthy ip = true →
  (truthy (param_tag_value module) = true →
   truthy (param_tag_name module) = true) →
  (ec2 (DescribeAddresses (by_ip ip)) s0).1 = inr [a] →
  main ec2 module (World s0 t0) = (ExitJson r1, World s1 t1) →
  released r1 = Some true →
  ∀ t, main ec2 module (World s1 t)
       = (ExitJson (Result false None None (Some false) (Some false)),
          World s1 (t ++ [DescribeAddresses (by_ip ip)])).
Proof.
  intros Hstate Hcm Hdev Hpublic Hip Htags Hq0 Hrun Hreleased t.
  pose proof (find_address_kwargs_by_ip ip Hip) as Hkwargs.
  rewrite <- Hpublic in Hkwargs.
  apply query_run in Hq0.
  (* the first run: the release call was answered with [True] *)
  assert (∃ id, a !! "AllocationId" = Some id ∧
                ec2 (ReleaseAddress id) s0 = (inr true, s1))
    as (id & Hid & Hrel).
  { destruct (main_without_device ec2 module Hdev Htags (World s0 t0))
      as [search_tags Hmain].
    rewrite Hmain in Hrun. unfold bind at 1, try_except at 1 in Hrun.
    rewrite (main_located ec2 module Hdev (World s0 t0) _ a s0 Hkwargs Hq0)
      in Hrun.
    rewrite bool_decide_eq_false_2 in Hrun by congruence.
    unfold release_ip_address, release_address in Hrun.
    rewrite Hcm in Hrun. cbn [negb] in Hrun.
    unfold bind at 1, try_except at 1, bind at 1 in Hrun.
    unfold getitem_opt, getitem in Hrun.
    destruct (a !! "AllocationId") as [id|]; [|discriminate].
    exists id. split; [done|].
    unfold ret at 1, invoke in Hrun.
    destruct (ec2 (ReleaseAddress id) _) as [[e|answer] s'];
      [discriminate|].
    cbn in Hrun. injection Hrun as <- -> _.
    cbn [released] in Hreleased. by injection Hreleased as ->. }
  (* the second run: the locator finds nothing *)
  pose proof (released_is_forgotten id s0 s1 ip a Hrel
                ltac:(by rewrite Hq0) Hid) as Hq1.
  apply query_run in Hq1.
  destruct (main_without_device ec2 module Hdev Htags (World s1 t))
    as [search_tags ->].
  apply bind_ExitJson, try_except_ExitJson.
  unfold main_try_block. cbv zeta. rewrite Hdev.
  apply bind_ExitJson.
  rewrite (find_address_answered ec2 module _ None true (World s1 t) _ [] s1
             Hkwargs Hq1).
  cbn [located]. by rewrite bool_decide_eq_true_2.
Qed.

End AbsentTwice.

Section InMemoryRelease.
Import InMemory.

Lemma filter_comm {A} (p q : A → bool) l :
  List.filter p (List.filter q l) = List.filter q (List.filter p l).
Proof.
  induction l as [|x l IH]; [done|]. cbn [List.filter].
  destruct (p x) eqn:Hp, (q x) eqn:Hq; cbn [List.filter];
    rewrite ?Hp, ?Hq, IH; done.
Qed.

Lemma in_memory_query_is_pure ip s :
  (ec2 (DescribeAddresses (by_ip ip)) s).2 = s.
Proof. by rewrite describe_by_ip. Qed.

Lemma in_memory_released_is_forgotten id s s' ip a :
  ec2 (ReleaseAddress id) s = (inr true, s') →
  (ec2 (DescribeAddresses (by_ip ip)) s).1 = inr [a] →
  a !! "AllocationId" = Some id →
  (ec2 (DescribeAddresses (by_ip ip)) s').1 = inr [].
Proof.
  intros Hrel Hq Hid. rewrite describe_by_ip in Hq |- *. cbn [fst] in *.
  injection Hq as Hq. cbn [ec2] in Hrel.
  destruct (List.filter (has "AllocationId" id) (addresses s)) as [|b rest];
    [discriminate|].
  destruct (is_associated b); [discriminate|].
  injection Hrel as <-. cbn [with_addresses addresses].
  rewrite filter_comm, Hq. cbn [List.filter]. unfold has.
  by rewrite Hid, bool_decide_eq_true_2.
Qed.

End InMemoryRelease.

(** ** The reconciler on an address that the locator found, with a
       device *)

Section LocatedWithDevice.
Context {cloud : Type}.
Variable ec2 : ∀ c : call, cloud → (ec2_error + reply c) * cloud.
Variable module : AnsibleAWSModule.
Variables (is_instance : bool) (w w1 : world cloud) (a : pydict).

Hypothesis Hdevice : truthy (param_device_id module) = true.
Hypothesis Hkind :
  check_is_instance (param_device_id module) (param_in_vpc module)
  = inr is_instance.
Hypothesis Htags :
  truthy (param_tag_value module) = true → truthy (param_tag_name module) = true.
Hypothesis Hfound :
  find_address ec2 module (param_public_ip module) (param_device_id module)
    is_instance w = (Return (Some a), w1).
Hypothesis Ha : dict_truthy a = true.

Lemma main_with_device :
  main ec2 module w =
  bind (try_except
          (fun _ =>
             (if bool_decide (param_state module = present) then
                let* result :=
                  let* result :=
                    ensure_present ec2 module
                      (if param_in_vpc module then Some "vpc" else None)
                      (Some a) (param_private_ip_address module)
                      (param_device_id module)
                      (param_reuse_existing_ip_allowed module)
                      (param_allow_reassociation module) (check_mode module)
                      (param_tags module) is_instance in
                  if bool_decide (allocation_id result = None)
                  then exit_json result else ret result in
                let* tags_changed :=
                  ensure_ec2_tags ec2 (the_str (allocation_id result))
                    "elastic-ip" (param_tags module) (param_purge_tags module) in
                ret (or_changed result tags_changed)
              else
                let* disassociated :=
                  ensure_absent ec2 module (Some a) (param_device_id module)
                    is_instance in
                if param_release_on_disassociation module && disassociated then
                  let* changed := release_ip_address ec2 module (Some a) in
                  ret (Result true None None (Some disassociated) (Some changed))
                else
                  ret (Result disassociated None None (Some disassociated)
                         (Some false))) w1)
          (fun e => fail (fail_json_aws_error e))) exit_json w.
Proof.
  destruct (generate_tag_dict_Return module Htags w) as [search_tags Hgen].
  unfold main. cbv zeta. rewrite Hkind, bind_ret.
  unfold bind at 1. rewrite Hgen.
  unfold bind at 1 3, try_except. unfold main_try_block. cbv zeta.
  rewrite Hdevice. unfold bind at 1. rewrite Hfound. reflexivity.
Qed.


(** X29. [state=present] with a device id, reuse not allowed, on an
    address that the locator found and that the association check finds
    already bound to the device: after the device query and the
    association check nothing is associated; the address is handed to the
    tag reconciliation, and the invocation reports its identity with
    [changed] equal to the answer of the tag reconciliation. *)
Theorem present_keeps_bound instance w2 w3 ip alloc tags_changed s4 :
  param_state module = present →
  param_reuse_existing_ip_allowed module = false →
  a !! "PublicIp" = Some ip → a !! "AllocationId" = Some alloc →
  find_device ec2 module (param_device_id module) is_instance w1
    = (Return instance, w2) →
  address_is_associated_with_device ec2 module (Some a)
    (param_device_id module) is_instance w2 = (Return true, w3) →
  let tagging :=
    EnsureEc2Tags (EnsureTagsArgs alloc "elastic-ip" (param_tags module)
                     (param_purge_tags module)) in
  ec2 tagging (cloud_state w3) = (inr tags_changed, s4) →
  main ec2 module w =
    (ExitJson (Result tags_changed (Some ip) (Some alloc) None None),
     World s4 (trace w3 ++ [tagging])).
Proof.
  intros Hstate Hreuse Hip Hid Hdev Hbound tagging Htag. subst tagging.
  assert (Hrun :
    ensure_present ec2 module
      (if param_in_vpc module then Some "vpc" else None)
      (Some a) (param_private_ip_address module) (param_device_id module)
      (param_reuse_existing_ip_allowed module)
      (param_allow_reassociation module) (check_mode module)
      (param_tags module) is_instance w1
    = (Return (Result false (Some ip) (Some alloc) None None), w3)).
  { unfold ensure_present. cbv zeta. cbn [optdict_truthy].
    rewrite Ha, Hdevice, Hreuse. cbn [negb]. rewrite bind_ret.
    assert (associate_ip_and_device ec2 module (Some a)
              (param_private_ip_address module) (param_device_id module)
              (param_allow_reassociation module) is_instance w2
            = (Return false, w3)) as Hassoc.
    { unfold associate_ip_and_device. unfold bind at 1. by rewrite Hbound. }
    unfold bind at 1.
    assert ((if is_instance then
               let* instance := find_device ec2 module (param_device_id module) true in
               let* _ := ret tt in
               let* associated :=
                 associate_ip_and_device ec2 module (Some a)
                   (param_private_ip_address module) (param_device_id module)
                   (param_allow_reassociation module) true in
               ret (false || associated)
             else
               let* instance := find_device ec2 module (param_device_id module) false in
               let* associated :=
                 associate_ip_and_device ec2 module (Some a)
                   (param_private_ip_address module) (param_device_id module)
                   (param_allow_reassociation module) false in
               ret (false || associated)) w1 = (Return false, w3)) as ->.
    { destruct is_instance.
      - unfold bind at 1. rewrite Hdev. rewrite bind_ret.
        unfold bind at 1. by rewrite Hassoc.
      - unfold bind at 1. rewrite Hdev.
        unfold bind at 1. by rewrite Hassoc. }
    unfold bind at 1. rewrite (getitem_opt_lookup _ _ _ _ Hip).
    unfold bind at 1. by rewrite (getitem_opt_lookup _ _ _ _ Hid). }
  rewrite main_with_device, bool_decide_eq_true_2 by done.
  unfold bind at 1, try_except at 1, bind at 1, bind at 1. rewrite Hrun.
  cbn [allocation_id]. rewrite bool_decide_eq_false_2 by done.
  unfold ret at 1. cbv beta iota. unfold bind at 1, ensure_ec2_tags.
  cbn [allocation_id the_str default from_option id].
  rewrite (invoke_inr ec2 _ w3 _ _ Htag).
  reflexivity.
Qed.

End LocatedWithDevice.

(** ** The theorems at concrete inputs *)

Lemma find_address_already_absent_witness :
  find_address InMemory.ec2 (Sample.absent_ip "192.0.2.9")
    (Some "192.0.2.9") None true (World Sample.vpc_cloud [])
  = (ExitJson (Result false None None (Some false) (Some false)),
     World Sample.vpc_cloud
       [DescribeAddresses (DescribeKwargs (Some ["192.0.2.9"]) None)]).
Proof.
  exact (proj1 (find_address_already_absent InMemory.ec2
                  (Sample.absent_ip "192.0.2.9") (Some "192.0.2.9") None true
                  (World Sample.vpc_cloud [])
                  (DescribeKwargs (Some ["192.0.2.9"]) None) Sample.vpc_cloud
                  eq_refl eq_refl eq_refl)).
Defined.

Lemma find_address_ambiguous_witness :
  find_address InMemory.ec2 Sample.present_nothing
    (Some "93.184.216.119") None true (World Sample.twin_cloud [])
  = (FailJson (fail_json_more_than_one
                 (DescribeKwargs (Some ["93.184.216.119"]) None)
                 (InMemory.addresses Sample.twin_cloud)),
     World Sample.twin_cloud
       [DescribeAddresses (DescribeKwargs (Some ["93.184.216.119"]) None)]).
Proof.
  refine (proj1 (find_address_ambiguous InMemory.ec2
                   Sample.present_nothing (Some "93.184.216.119") None true
                   (World Sample.twin_cloud [])
                   (DescribeKwargs (Some ["93.184.216.119"]) None)
                   (InMemory.addresses Sample.twin_cloud) Sample.twin_cloud
                   eq_refl _ _)).
  - vm_compute. reflexivity.
  - simpl. lia.
Defined.

Lemma eni_requires_vpc_witness :
  main InMemory.ec2 Sample.present_eni_no_vpc (World Sample.vpc_cloud [])
  = (FailJson (fail_json "If you are specifying an ENI, in_vpc must be true"),
     World Sample.vpc_cloud []).
Proof.
  exact (eni_requires_vpc InMemory.ec2 Sample.present_eni_no_vpc
           (World Sample.vpc_cloud []) "eni-c8ad70f3" eq_refl eq_refl eq_refl).
Defined.

Lemma reuse_returns_first_unassociated_witness :
  allocate_address InMemory.ec2 Sample.present_nothing (Some "vpc") true false
    None None None (World Sample.vpc_cloud [])
  = (Return (Some Sample.vpc_free, false),
     World Sample.vpc_cloud [DescribeAddresses (reuse_kwargs (Some "vpc") None)]).
Proof.
  refine (proj1 (reuse_returns_first_unassociated InMemory.ec2
                   Sample.present_nothing (Some "vpc") false None None None
                   (World Sample.vpc_cloud [])
                   [Sample.vpc_bound; Sample.vpc_free] Sample.vpc_cloud _ _)
            [Sample.vpc_bound] Sample.vpc_free [] eq_refl _ _).
  - vm_compute. reflexivity.
  - left. reflexivity.
  - repeat constructor.
  - reflexivity.
Defined.

Lemma reuse_scan_requires_instance_id_witness :
  allocate_address InMemory.ec2 Sample.present_nothing None true false
    None None None (World Sample.classic_cloud [])
  = (Raise (KeyError "InstanceId"),
     World Sample.classic_cloud [DescribeAddresses (reuse_kwargs None None)]).
Proof.
  refine (proj1 (reuse_scan_requires_instance_id InMemory.ec2
                   Sample.present_nothing None false None None None
                   (World Sample.classic_cloud [])
                   [Sample.classic_free; Sample.classic_bare]
                   Sample.classic_cloud _ _) _).
  - reflexivity.
  - vm_compute. reflexivity.
  - apply Exists_cons_tl, Exists_cons_hd. reflexivity.
Defined.

(** C3 as stated fails in the standard domain: the listing holds an
    unassociated address ([InstanceId] empty) in first position, followed by
    an address without the field; the allocator does not return the first
    one, it raises [KeyError]. *)
Lemma reuse_preference_counterexample :
  InMemory.ec2 (DescribeAddresses (reuse_kwargs None None)) Sample.classic_cloud
    = (inr [Sample.classic_free; Sample.classic_bare], Sample.classic_cloud) ∧
  unassociated (allocator_domain None) Sample.classic_free = true ∧
  allocate_address InMemory.ec2 Sample.present_nothing None true false
    None None None (World Sample.classic_cloud [])
  = (Raise (KeyError "InstanceId"),
     World Sample.classic_cloud [DescribeAddresses (reuse_kwargs None None)]).
Proof. repeat split; vm_compute; reflexivity. Qed.

Lemma layer_listing_is_read_only_witness :
  let run :=
    LambdaLayerInfo.execute_module SampleLambda.client (fun l => l)
      (LambdaLayerInfo.Params (Some "pylogger") None None) (tt, []) in
  run.1 = LambdaLayerInfo.LExitJson
            (LambdaLayerInfo.LambdaResult false [SampleLambda.version]) ∧
  LambdaLayerInfo.lambda_changed
    (LambdaLayerInfo.LambdaResult false [SampleLambda.version]) = false.
Proof.
  split; [reflexivity|].
  exact (proj1 (layer_listing_is_read_only SampleLambda.client (fun l => l)
                  (LambdaLayerInfo.Params (Some "pylogger") None None) (tt, []))
           _ eq_refl).
Defined.


(** C4, the claim as written.  In check mode an invocation may end with no
    verdict at all: asked for a public IP that two addresses answer to, it
    fails, as the locator is meant to; asked for a standard-domain address,
    which has no allocation id, it dies of the [KeyError] that nothing
    catches.  Neither run reports [changed]. *)
Lemma check_mode_without_verdict :
  let ambiguous :=
    Sample.params true None (Some "93.184.216.119") present false false false in
  let classic :=
    Sample.params true None (Some "203.0.113.6") present false false false in
  check_mode ambiguous = true ∧ check_mode classic = true ∧
  main InMemory.ec2 ambiguous (World Sample.twin_cloud [])
  = (FailJson (fail_json_more_than_one (by_ip "93.184.216.119")
                 (InMemory.addresses Sample.twin_cloud)),
     World Sample.twin_cloud [DescribeAddresses (by_ip "93.184.216.119")]) ∧
  main InMemory.ec2 classic (World Sample.classic_cloud [])
  = (Raise (KeyError "AllocationId"),
     World Sample.classic_cloud [DescribeAddresses (by_ip "203.0.113.6")]).
Proof. repeat split; vm_compute; reflexivity. Qed.

Lemma release_gating_witness :
  (main InMemory.ec2 SampleRelease.absent_device_release
     (World Sample.vpc_cloud [])).1
  = ExitJson (Result true None None (Some true) (Some true)) ∧
  ∃ l, trace (main InMemory.ec2 SampleRelease.absent_device_release
                (World Sample.vpc_cloud [])).2 = ([] ++ l)%list ∧
       describes_then (device_tail SampleRelease.absent_device_release) l.
Proof.
  split; [vm_compute; reflexivity|].
  destruct (release_gating InMemory.ec2 SampleRelease.absent_device_release
              (World Sample.vpc_cloud [])) as (l & Hl & _ & _ & Hshape & _).
  exists l. split; [exact Hl|]. apply Hshape; reflexivity.
Defined.

(** C1 as stated fails without a device id: the address that the locator
    returns is bound to an instance, no disassociate call is made, and the
    release call is issued all the same (this cloud refuses it). *)
Lemma release_attempted_while_associated :
  InMemory.ec2
    (DescribeAddresses (DescribeKwargs (Some ["93.184.216.119"]) None))
    Sample.vpc_cloud = (inr [Sample.vpc_bound], Sample.vpc_cloud) ∧
  Sample.vpc_bound !! "InstanceId" = Some "i-1212f003" ∧
  Sample.vpc_bound !! "AllocationId" = Some "eipalloc-1" ∧
  InMemory.run (Sample.absent_ip "93.184.216.119") Sample.vpc_cloud =
    (FailJson (fail_json_aws (InMemory.error "InvalidIPAddress.InUse")
                 "Couldn't release Elastic IP address"),
     World Sample.vpc_cloud
       [DescribeAddresses (DescribeKwargs (Some ["93.184.216.119"]) None);
        ReleaseAddress "eipalloc-1"]).
Proof. repeat split; vm_compute; reflexivity. Qed.



(** ** The further properties at concrete inputs *)

Lemma generate_tag_dict_tag_key_witness :
  ∃ key,
    generate_tag_dict Sample.present_nothing (Some "tag:gateway") None
      (World Sample.vpc_cloud [])
      = (Return (Some {[ "tag-key" := key ]}), World Sample.vpc_cloud []) ∧
    (String.prefix "tag:" "tag:gateway" = true →
     stripped "tag:" "tag:gateway" key) ∧
    (String.prefix "tag:" "tag:gateway" = false → key = "tag:gateway").
Proof.
  exact (generate_tag_dict_tag_key Sample.present_nothing "tag:gateway"
           (World Sample.vpc_cloud []) eq_refl).
Defined.

Lemma generate_tag_dict_prefix_optional_witness :
  generate_tag_dict Sample.present_nothing (Some "Name") (Some "web")
    (World Sample.vpc_cloud [])
    = (Return (Some {[ "tag:Name" := "web" ]}), World Sample.vpc_cloud []) ∧
  generate_tag_dict Sample.present_nothing (Some "tag:Name") (Some "web")
    (World Sample.vpc_cloud [])
    = generate_tag_dict Sample.present_nothing (Some "Name") (Some "web")
        (World Sample.vpc_cloud []).
Proof.
  exact (generate_tag_dict_prefix_optional Sample.present_nothing "Name" "web"
           (World Sample.vpc_cloud []) eq_refl eq_refl eq_refl).
Defined.

Lemma tag_value_requires_tag_name_witness :
  main InMemory.ec2 SampleMore.value_without_name (World Sample.vpc_cloud [])
  = (FailJson (fail_json
       "parameters are required together: ('tag_name', 'tag_value')"),
     World Sample.vpc_cloud []).
Proof.
  apply (tag_value_requires_tag_name InMemory.ec2 SampleMore.value_without_name
           (World Sample.vpc_cloud []) "web"); try reflexivity.
  intros e. discriminate.
Defined.

Lemma find_address_prefers_public_ip_witness :
  find_address InMemory.ec2 Sample.present_nothing (Some "198.51.100.2")
    (Some "i-1212f003") true (World Sample.vpc_cloud [])
  = find_address InMemory.ec2 Sample.present_nothing (Some "198.51.100.2")
      None true (World Sample.vpc_cloud []) ∧
  find_address_kwargs (Some "198.51.100.2") (Some "i-1212f003") true
  = Some (DescribeKwargs (Some ["198.51.100.2"]) None).
Proof.
  exact (find_address_prefers_public_ip InMemory.ec2 Sample.present_nothing
           (Some "198.51.100.2") (Some "i-1212f003") true
           (World Sample.vpc_cloud []) eq_refl).
Defined.

Lemma address_is_associated_with_device_sound_witness :
  ∃ d a kwargs,
    Some "i-1212f003" = Some d ∧ a !! device_key true = Some d ∧
    find_address_kwargs (or_empty (Some Sample.vpc_bound) !! "PublicIp")
      (Some "i-1212f003") true = Some kwargs ∧
    InMemory.ec2 (DescribeAddresses kwargs) Sample.vpc_cloud
      = (inr [a], Sample.vpc_cloud) ∧
    [DescribeAddresses (by_ip "93.184.216.119")]
      = ([] ++ [DescribeAddresses kwargs])%list.
Proof.
  apply (address_is_associated_with_device_sound InMemory.ec2
           Sample.present_nothing (Some Sample.vpc_bound) (Some "i-1212f003")
           true (World Sample.vpc_cloud [])
           (World Sample.vpc_cloud [DescribeAddresses (by_ip "93.184.216.119")])).
  vm_compute. reflexivity.
Defined.

Lemma absent_releases_located_witness :
  main InMemory.ec2 (Sample.absent_ip "198.51.100.2") (World Sample.vpc_cloud [])
  = (ExitJson (Result true None None (Some false) (Some true)),
     World (InMemory.ec2 (ReleaseAddress "eipalloc-2") Sample.vpc_cloud).2
       ([] ++ [DescribeAddresses (by_ip "198.51.100.2");
               ReleaseAddress "eipalloc-2"])).
Proof.
  refine (proj1 (absent_releases_located InMemory.ec2
                   (Sample.absent_ip "198.51.100.2") eq_refl _
                   (World Sample.vpc_cloud []) (by_ip "198.51.100.2")
                   Sample.vpc_free Sample.vpc_cloud eq_refl _
                   "eipalloc-2" eq_refl eq_refl _) true _ _).
  - discriminate.
  - vm_compute. reflexivity.
  - vm_compute. reflexivity.
  - vm_compute. reflexivity.
Defined.

Lemma located_address_needs_allocation_id_witness :
  main InMemory.ec2 (Sample.absent_ip "203.0.113.5")
    (World Sample.classic_cloud [])
  = (Raise (KeyError "AllocationId"),
     World Sample.classic_cloud ([] ++ [DescribeAddresses (by_ip "203.0.113.5")])).
Proof.
  refine (located_address_needs_allocation_id InMemory.ec2
            (Sample.absent_ip "203.0.113.5") eq_refl _
            (World Sample.classic_cloud []) (by_ip "203.0.113.5")
            Sample.classic_free Sample.classic_cloud eq_refl _ _ _ _).
  - discriminate.
  - vm_compute. reflexivity.
  - exists "203.0.113.5". vm_compute. reflexivity.
  - vm_compute. reflexivity.
  - reflexivity.
Defined.

Lemma present_reports_located_witness :
  main InMemory.ec2 (SampleMore.present_ip "198.51.100.2")
    (World Sample.vpc_cloud [])
  = (ExitJson (Result false (Some "198.51.100.2") (Some "eipalloc-2") None None),
     World Sample.vpc_cloud
       ([] ++ [DescribeAddresses (by_ip "198.51.100.2");
               EnsureEc2Tags
                 (EnsureTagsArgs "eipalloc-2" "elastic-ip" None true)])).
Proof.
  refine (present_reports_located InMemory.ec2
            (SampleMore.present_ip "198.51.100.2") eq_refl _
            (World Sample.vpc_cloud []) (by_ip "198.51.100.2")
            Sample.vpc_free Sample.vpc_cloud eq_refl _
            "198.51.100.2" "eipalloc-2" false Sample.vpc_cloud eq_refl _ _ _).
  - discriminate.
  - vm_compute. reflexivity.
  - vm_compute. reflexivity.
  - vm_compute. reflexivity.
  - reflexivity.
Defined.


Lemma generic_failure_is_tagging_witness :
  param_state (SampleMore.present_ip "198.51.100.2") = present ∧
  ∃ w1 id,
    ReadOnlyTags.ec2
      (EnsureEc2Tags (EnsureTagsArgs id "elastic-ip" None true)) (cloud_state w1)
    = (inl (InMemory.error "UnauthorizedOperation"), Sample.vpc_cloud) ∧
    [DescribeAddresses (by_ip "198.51.100.2");
     EnsureEc2Tags (EnsureTagsArgs "eipalloc-2" "elastic-ip" None true)]
    = (trace w1 ++ [EnsureEc2Tags (EnsureTagsArgs id "elastic-ip" None true)])%list.
Proof.
  apply (generic_failure_is_tagging ReadOnlyTags.ec2
           (SampleMore.present_ip "198.51.100.2") (World Sample.vpc_cloud [])
           (InMemory.error "UnauthorizedOperation")
           (World Sample.vpc_cloud
              [DescribeAddresses (by_ip "198.51.100.2");
               EnsureEc2Tags
                 (EnsureTagsArgs "eipalloc-2" "elastic-ip" None true)])).
  vm_compute. reflexivity.
Defined.

Lemma exit_payload_keys_witness :
  public_ip (Result true None None (Some true) (Some true)) = None ∧
  allocation_id (Result true None None (Some true) (Some true)) = None ∧
  ∃ d c,
    disassociated (Result true None None (Some true) (Some true)) = Some d ∧
    released (Result true None None (Some true) (Some true)) = Some c ∧
    changed (Result true None None (Some true) (Some true)) = d || c.
Proof.
  apply (exit_payload_keys InMemory.ec2 SampleRelease.absent_device_release
           (World Sample.vpc_cloud [])
           (Result true None None (Some true) (Some true))).
  vm_compute. reflexivity.
Defined.

Lemma allocate_address_result_witness :
  (false = false →
     true = true ∧
     ∃ a all_addresses,
       Some Sample.vpc_free = Some a ∧ In a all_addresses ∧
       unassociated (allocator_domain (Some "vpc")) a = true ∧
       (InMemory.ec2 (DescribeAddresses (reuse_kwargs (Some "vpc") None))
          Sample.vpc_cloud).1 = inr all_addresses) ∧
  (Some Sample.vpc_free = None → false = true ∧ false = true).
Proof.
  apply (allocate_address_result InMemory.ec2 Sample.present_nothing
           (Some "vpc") true false None None None (World Sample.vpc_cloud [])
           (Some Sample.vpc_free) false
           (World Sample.vpc_cloud
              [DescribeAddresses (reuse_kwargs (Some "vpc") None)])).
  vm_compute. reflexivity.
Defined.

Lemma ensure_present_unknown_instance_witness :
  ensure_present InMemory.ec2 Sample.present_nothing (Some "vpc")
    (Some Sample.vpc_free) None (Some "i-0000a000") true false false None true
    (World Sample.vpc_cloud [])
  = (Raise not_subscriptable,
     World Sample.vpc_cloud ([] ++ [DescribeInstances ["i-0000a000"]])).
Proof.
  refine (ensure_present_unknown_instance InMemory.ec2 Sample.present_nothing
            (Some "vpc") Sample.vpc_free None (Some "i-0000a000") false false
            None (World Sample.vpc_cloud []) [] Sample.vpc_cloud _ eq_refl _ I).
  - vm_compute. reflexivity.
  - vm_compute. reflexivity.
Defined.

Lemma check_mode_present_device_unlocated_witness :
  main InMemory.ec2 SampleMore.check_present_unlocated (World Sample.vpc_cloud [])
  = (ExitJson (only_changed true),
     World Sample.vpc_cloud [DescribeAddresses (by_ip "192.0.2.9")]).
Proof.
  refine (check_mode_present_device_unlocated InMemory.ec2
            SampleMore.check_present_unlocated (World Sample.vpc_cloud []) true
            (World Sample.vpc_cloud [DescribeAddresses (by_ip "192.0.2.9")])
            eq_refl eq_refl eq_refl eq_refl _ _).
  - discriminate.
  - vm_compute. reflexivity.
Defined.

Lemma merge_latest_overrides_witness :
  ∃ merged,
    LambdaLayerInfo.merge_latest (fun l => l) [SampleLambda.summary]
      = inr ((fun l => l) <$> merged) ∧
    Forall2 (fun layer m =>
      ∀ k, get k m = match get k (latest_version layer) with
                     | Some v => Some v
                     | None =>
                         if bool_decide
                              (k = LambdaLayerInfo.KStr "LatestMatchingVersion")
                         then None
                         else get k layer
                     end) [SampleLambda.summary] merged.
Proof.
  apply (merge_latest_overrides (fun l => l) [SampleLambda.summary]).
  constructor; [|constructor]. split.
  - apply (bool_decide_unpack _). vm_compute. exact I.
  - exists SampleLambda.version. split; [reflexivity|].
    apply (bool_decide_unpack _). vm_compute. exact I.
Defined.

Lemma list_layers_needs_latest_version_witness :
  LambdaLayerInfo.execute_module SampleMore.bare_client (fun l => l)
    (LambdaLayerInfo.Params None None None) (tt, [])
  = (LambdaLayerInfo.LRaise
       (LambdaLayerInfo.LTypeError "'NoneType' object is not iterable"),
     (tt, ([] ++ [LambdaLayerInfo.list_layers_op
                    (LambdaLayerInfo.with_filters
                       (LambdaLayerInfo.Params None None None) ∅)])%list)).
Proof.
  exact (list_layers_needs_latest_version SampleMore.bare_client (fun l => l)
           (LambdaLayerInfo.Params None None None) (tt, [])
           [] SampleMore.bare_summary [] tt eq_refl eq_refl
           (List.Forall_nil _) eq_refl).
Defined.

Lemma list_layer_versions_reports_witness :
  LambdaLayerInfo.execute_module SampleLambda.client (fun l => l)
    (LambdaLayerInfo.Params (Some "pylogger") None None) (tt, [])
  = (LambdaLayerInfo.LExitJson
       (LambdaLayerInfo.LambdaResult false ((fun l => l) <$> [SampleLambda.version])),
     (tt, ([] ++ [LambdaLayerInfo.list_layer_versions_op
                    (LambdaLayerInfo.with_filters
                       (LambdaLayerInfo.Params (Some "pylogger") None None)
                       {[ "LayerName" := PyStr "pylogger" ]})])%list)).
Proof.
  exact (proj1 (list_layer_versions_reports SampleLambda.client (fun l => l)
                  (LambdaLayerInfo.Params (Some "pylogger") None None) (tt, [])
                  "pylogger" eq_refl)
           [SampleLambda.version] tt eq_refl).
Defined.

Lemma present_call_order_witness :
  ∃ l s,
    trace (main InMemory.ec2 SampleIdempotence.present_device
             (World Sample.vpc_cloud [])).2 = ([] ++ l)%list ∧
    present_run 0 l = Some s.
Proof.
  exact (present_call_order InMemory.ec2 SampleIdempotence.present_device
           (World Sample.vpc_cloud []) eq_refl).
Defined.

Lemma search_parameters_ignored_witness :
  main InMemory.ec2
    (with_search SampleIdempotence.present_device (Some "Name") (Some "web")
       (Some "ipv4pool-ec2-012345"))
    (World Sample.vpc_cloud [])
  = main InMemory.ec2 SampleIdempotence.present_device (World Sample.vpc_cloud []).
Proof.
  refine (search_parameters_ignored InMemory.ec2 SampleIdempotence.present_device
            (Some "Name") (Some "web") (Some "ipv4pool-ec2-012345")
            (World Sample.vpc_cloud []) (or_introl eq_refl) _ _).
  - discriminate.
  - reflexivity.
Defined.

Lemma present_reuses_listed_witness :
  main InMemory.ec2 SampleMore.present_reuse (World Sample.vpc_cloud [])
  = (ExitJson (Result false (Some "198.51.100.2") (Some "eipalloc-2") None None),
     World Sample.vpc_cloud
       ([] ++ [DescribeAddresses (reuse_kwargs (Some "vpc") None);
               EnsureEc2Tags
                 (EnsureTagsArgs "eipalloc-2" "elastic-ip" None true)])).
Proof.
  refine (present_reuses_listed InMemory.ec2 SampleMore.present_reuse
            (World Sample.vpc_cloud []) None
            [Sample.vpc_bound; Sample.vpc_free] Sample.vpc_cloud
            [Sample.vpc_bound] Sample.vpc_free [] "198.51.100.2" "eipalloc-2"
            false Sample.vpc_cloud eq_refl eq_refl eq_refl eq_refl eq_refl
            _ (or_introl eq_refl) eq_refl _ _ _ _ _).
  - vm_compute. reflexivity.
  - repeat constructor.
  - reflexivity.
  - vm_compute. reflexivity.
  - vm_compute. reflexivity.
  - reflexivity.
Defined.

Lemma absent_released_idempotent_witness :
  let first := InMemory.run (Sample.absent_ip "198.51.100.2") Sample.vpc_cloud in
  first.1 = ExitJson (Result true None None (Some false) (Some true)) ∧
  ∀ t, main InMemory.ec2 (Sample.absent_ip "198.51.100.2")
         (World (cloud_state first.2) t)
       = (ExitJson (Result false None None (Some false) (Some false)),
          World (cloud_state first.2)
            (t ++ [DescribeAddresses (by_ip "198.51.100.2")])).
Proof.
  intros first. split; [vm_compute; reflexivity|].
  refine (absent_released_idempotent InMemory.ec2
            (Sample.absent_ip "198.51.100.2")
            in_memory_query_is_pure in_memory_released_is_forgotten
            Sample.vpc_cloud [] "198.51.100.2" Sample.vpc_free
            (Result true None None (Some false) (Some true))
            (cloud_state first.2) (trace first.2)
            eq_refl eq_refl eq_refl eq_refl eq_refl _ _ _ eq_refl).
  - discriminate.
  - vm_compute. reflexivity.
  - vm_compute. reflexivity.
Defined.


Lemma present_keeps_bound_witness :
  let m := SampleMore.present_bound in
  let w := World Sample.vpc_cloud [] in
  let tagging :=
    EnsureEc2Tags (EnsureTagsArgs "eipalloc-1" "elastic-ip" None true) in
  main InMemory.ec2 m w
  = (ExitJson (Result false (Some "93.184.216.119") (Some "eipalloc-1")
                 None None),
     World Sample.vpc_cloud
       ([DescribeAddresses (by_ip "93.184.216.119");
         DescribeInstances ["i-1212f003"];
         DescribeAddresses (by_ip "93.184.216.119")] ++ [tagging])).
Proof.
  intros m w tagging.
  refine (present_keeps_bound InMemory.ec2 m true w
            (World Sample.vpc_cloud [DescribeAddresses (by_ip "93.184.216.119")])
            Sample.vpc_bound eq_refl eq_refl _ _ _
            (Some Sample.instance)
            (World Sample.vpc_cloud
               [DescribeAddresses (by_ip "93.184.216.119");
                DescribeInstances ["i-1212f003"]])
            (World Sample.vpc_cloud
               [DescribeAddresses (by_ip "93.184.216.119");
                DescribeInstances ["i-1212f003"];
                DescribeAddresses (by_ip "93.184.216.119")])
            "93.184.216.119" "eipalloc-1" false Sample.vpc_cloud
            eq_refl eq_refl _ _ _ _ _).
  - discriminate.
  - vm_compute. reflexivity.
  - vm_compute. reflexivity.
  - vm_compute. reflexivity.
  - vm_compute. reflexivity.
  - vm_compute. reflexivity.
  - vm_compute. reflexivity.
  - vm_compute. reflexivity.
Defined.

Lemma associate_ip_and_device_sound_witness :
  let w := World Sample.vpc_cloud [] in
  let w' :=
    (associate_ip_and_device InMemory.ec2 SampleIdempotence.present_device
       (Some Sample.vpc_free) None (Some "i-1212f003") false true w).2 in
  ∃ params res w1,
    associates (Some Sample.vpc_free) None (Some "i-1212f003") false true
      params ∧
    InMemory.ec2 (AssociateAddress params) (cloud_state w1)
      = (inr res, cloud_state w') ∧
    dict_truthy res = true ∧
    trace w' = (trace w1 ++ [AssociateAddress params])%list.
Proof.
  intros w w'.
  apply (associate_ip_and_device_sound InMemory.ec2
           SampleIdempotence.present_device (Some Sample.vpc_free) None
           (Some "i-1212f003") false true w w' eq_refl).
  vm_compute. reflexivity.
Defined.
